(** * Desktop automation recorder: recording, playback, credentials, scheduling

    A shallow embedding of the recorder ([recorder.py]), the playback engine
    ([playback.py]), the credential manager ([credentials.py]) and the
    scheduler ([scheduler.py]), with the properties stated in the
    specification proved (or refuted) over it.

    Conventions.
    - Python [float] values (timestamps, delays, rates) are exact rationals
      [Q]; a clock reading is passed to every handler as [now].
    - Python [str] is [string]; [None] is [option]'s [None].
    - Record fields carry a short prefix ([ra_] for RecordedAction, ...)
      because Python attribute names such as [x], [id] or [key] would clash;
      instance attributes of the stateful classes keep their names. *)

From Stdlib Require Import ZArith QArith Qminmax Qround String Ascii List Lia Bool.
From stdpp Require Import base strings list gmap pretty option sorting countable.

#[local] Set Warnings "-register-all".
#[local] Open Scope string_scope.

(** ** Python helpers shared by the modules *)

Module Py.

(** [s * n] for a one-character string. *)
Fixpoint str_repeat (s : string) (n : nat) : string :=
  match n with
  | O => ""
  | S n' => s +:+ str_repeat s n'
  end.

(** The format spec [{n:0Wd}] for a non-negative integer. *)
Definition zero_pad (w : nat) (s : string) : string :=
  str_repeat "0" (w - String.length s) +:+ s.

(** [s[:n]] *)
Fixpoint str_take (n : nat) (s : string) : string :=
  match n, s with
  | S n', String c s' => String c (str_take n' s')
  | _, _ => ""
  end.

(** [s[:-1]] *)
Fixpoint str_drop_last (s : string) : string :=
  match s with
  | "" => ""
  | String c "" => ""
  | String c s' => String c (str_drop_last s')
  end.

Definition is_upper (c : ascii) : bool :=
  let n := nat_of_ascii c in (65 <=? n)%nat && (n <=? 90)%nat.
Definition is_lower (c : ascii) : bool :=
  let n := nat_of_ascii c in (97 <=? n)%nat && (n <=? 122)%nat.
Definition to_upper (c : ascii) : ascii :=
  if is_lower c then ascii_of_nat (nat_of_ascii c - 32) else c.
Definition to_lower (c : ascii) : ascii :=
  if is_upper c then ascii_of_nat (nat_of_ascii c + 32) else c.

(** [str.lower()] on ASCII text. *)
Fixpoint str_lower (s : string) : string :=
  match s with
  | "" => ""
  | String c s' => String (to_lower c) (str_lower s')
  end.

(** [str.title()] on ASCII text: the first letter of every run of letters in
    upper case, the others in lower case. *)
Fixpoint str_title_from (in_word : bool) (s : string) : string :=
  match s with
  | "" => ""
  | String c s' =>
      if is_upper c || is_lower c
      then String (if in_word then to_lower c else to_upper c) (str_title_from true s')
      else String c (str_title_from false s')
  end.
Definition str_title (s : string) : string := str_title_from false s.

(** [str(x)] for an [Optional[int]]. *)
Definition str_opt_Z (x : option Z) : string :=
  match x with
  | Some z => pretty z
  | None => "None"
  end.

(** Truthiness of an [Optional[str]]: neither [None] nor empty. *)
Definition truthy_str (s : option string) : bool :=
  match s with
  | Some (String _ _) => true
  | _ => false
  end.

(** [a or b] on floats: [0.0] and [None] are falsy. *)
Definition float_or (a : option Q) (b : Q) : Q :=
  match a with
  | Some t => if Qeq_bool t 0%Q then b else t
  | None => b
  end.

(** [a < b] on floats. *)
Definition Qlt_bool (a b : Q) : bool := negb (Qle_bool b a).

(** [int(x)] for a float: truncation towards zero. *)
Definition int_of_float (x : Q) : Z := Z.quot (Qnum x) (Zpos (Qden x)).

(** [s.split(sep)] for a one-character separator. *)
Fixpoint str_split_from (sep : ascii) (cur : string) (s : string) : list string :=
  match s with
  | "" => [cur]
  | String c s' =>
      if bool_decide (c = sep) then cur :: str_split_from sep "" s'
      else str_split_from sep (cur +:+ String c "") s'
  end.
Definition str_split (sep : ascii) (s : string) : list string := str_split_from sep "" s.

End Py.

(** ** Exceptions and effects

    Code with side effects is a function of the state it threads; it ends
    with a value or with a raised exception, of which only the message is
    kept since every handler in the program is [except Exception]. *)

Inductive Outcome (A : Type) :=
| Ok (a : A)
| Raise (e : string).
Arguments Ok {A} a.
Arguments Raise {A} e.

Definition M (S A : Type) : Type := S -> Outcome A * S.

#[global] Instance M_ret {S} : MRet (M S) := fun A a st => (Ok a, st).
#[global] Instance M_bind {S} : MBind (M S) := fun A B f m st =>
  match m st with
  | (Ok a, st') => f a st'
  | (Raise e, st') => (Raise e, st')
  end.

#[global] Instance M_fmap {S} : FMap (M S) := fun A B f m st =>
  match m st with
  | (Ok a, st') => (Ok (f a), st')
  | (Raise e, st') => (Raise e, st')
  end.

Definition raise {S A} (e : string) : M S A := fun st => (Raise e, st).

(** [try: m  except Exception as e: handler(e)] *)
Definition try_except {S A} (m : M S A) (handler : string -> M S A) : M S A :=
  fun st =>
    match m st with
    | (Ok a, st') => (Ok a, st')
    | (Raise e, st') => handler e st'
    end.

Definition get_state {S} : M S S := fun st => (Ok st, st).
Definition modify {S} (f : S -> S) : M S unit := fun st => (Ok tt, f st).


(** ** recorder.py *)

Module Recorder.

Inductive ActionType :=
| MOUSE_CLICK | MOUSE_DOUBLE_CLICK | MOUSE_RIGHT_CLICK | MOUSE_MOVE | MOUSE_DRAG
| MOUSE_SCROLL | KEY_PRESS | KEY_RELEASE | KEY_TYPE | HOTKEY | SCREENSHOT | WAIT
| CREDENTIAL_INPUT | WINDOW_FOCUS | OPEN_APPLICATION | OPEN_URL.

#[global] Instance ActionType_eq_dec : EqDecision ActionType.
Proof. solve_decision. Defined.

(** [ActionType.value] *)
Definition ActionType_value (t : ActionType) : string :=
  match t with
  | MOUSE_CLICK => "mouse_click" | MOUSE_DOUBLE_CLICK => "mouse_double_click"
  | MOUSE_RIGHT_CLICK => "mouse_right_click" | MOUSE_MOVE => "mouse_move"
  | MOUSE_DRAG => "mouse_drag" | MOUSE_SCROLL => "mouse_scroll"
  | KEY_PRESS => "key_press" | KEY_RELEASE => "key_release" | KEY_TYPE => "key_type"
  | HOTKEY => "hotkey" | SCREENSHOT => "screenshot" | WAIT => "wait"
  | CREDENTIAL_INPUT => "credential_input" | WINDOW_FOCUS => "window_focus"
  | OPEN_APPLICATION => "open_application" | OPEN_URL => "open_url"
  end.

Definition all_action_types : list ActionType :=
  [MOUSE_CLICK; MOUSE_DOUBLE_CLICK; MOUSE_RIGHT_CLICK; MOUSE_MOVE; MOUSE_DRAG;
   MOUSE_SCROLL; KEY_PRESS; KEY_RELEASE; KEY_TYPE; HOTKEY; SCREENSHOT; WAIT;
   CREDENTIAL_INPUT; WINDOW_FOCUS; OPEN_APPLICATION; OPEN_URL].

(** [ActionType(s)]: the member whose value is [s], [None] for the
    [ValueError] of an unknown tag. *)
Definition ActionType_of_value (s : string) : option ActionType :=
  List.find (fun t => bool_decide (ActionType_value t = s)) all_action_types.

Record ScreenRegion := {
  sr_x : Z;
  sr_y : Z;
  sr_width : Z;
  sr_height : Z;
  sr_image_path : option string;
  sr_image_hash : option string;
}.

Record RecordedAction := {
  ra_id : string;
  ra_action_type : ActionType;
  ra_timestamp : Q;
  ra_x : option Z;
  ra_y : option Z;
  ra_key : option string;
  ra_text : option string;
  ra_button : option string;
  ra_dx : option Z;
  ra_dy : option Z;
  ra_credential_name : option string;
  ra_credential_field : option string;
  ra_screen_region : option ScreenRegion;
  ra_delay_before : Q;
  ra_window_title : option string;
  ra_window_class : option string;
  ra_options : list (string * string);
  ra_description : option string;
}.

(** The dataclass constructor with every optional field at its default. *)
Definition RecordedAction_new (id : string) (ty : ActionType) (ts : Q) : RecordedAction :=
  {| ra_id := id; ra_action_type := ty; ra_timestamp := ts;
     ra_x := None; ra_y := None; ra_key := None; ra_text := None; ra_button := None;
     ra_dx := None; ra_dy := None; ra_credential_name := None;
     ra_credential_field := None; ra_screen_region := None; ra_delay_before := 0.0%Q;
     ra_window_title := None; ra_window_class := None; ra_options := [];
     ra_description := None |}.

Record Recording := {
  rec_id : string;
  rec_name : string;
  rec_description : string;
  rec_created_at : Q;
  rec_updated_at : Q;
  rec_url : option string;
  rec_actions : list RecordedAction;
  rec_capture_screenshots : bool;
  rec_screenshot_region_size : Z;
  rec_speed_multiplier : Q;
  rec_verify_screenshots : bool;
  rec_retry_on_failure : Z;
  rec_audit_purpose : option string;
  rec_audit_verification_goal : option string;
  rec_step_screenshot_paths : list (string * string);
  rec_email_recipients : list string;
}.

(** A [threading.Timer]: the time at which it fires, and whether it is still
    due (neither cancelled nor fired). *)
Record Timer := { t_deadline : Q; t_live : bool }.

(** A key object handed to the keyboard callbacks by the input library: a
    [KeyCode] has a [char] attribute (possibly [None]) and no [name], so the
    handler falls back on [str(key)]; a special [Key] has a [name] and no
    [char]. *)
Inductive KeyEvent :=
| KeyCode (char : option string) (str_key : string)
| SpecialKey (name : string).

(** *** ActionRecorder *)

Record ActionRecorder := {
  on_action : bool;                       (* a callback is installed *)
  notified : list RecordedAction;         (* the calls made to it, in order *)
  _actions : list RecordedAction;
  _recording : bool;
  _paused : bool;
  _last_action_time : option Q;
  _action_counter : nat;
  _exclude_rect : option (Z * Z * Z * Z);
  _text_buffer : string;
  _text_buffer_start_time : option Q;
  _text_flush_delay : Q;
  _scroll_buffer_x : Z;
  _scroll_buffer_y : Z;
  _scroll_last_x : option Z;
  _scroll_last_y : option Z;
  _scroll_start_time : option Q;
  _scroll_timer : option Timer;
  _sensitive_mode : bool;
  _current_credential : option (string * string);
  _capture_screenshots : option bool;     (* [None]: attribute not yet set *)
}.

(** Attribute assignment, one function per attribute that is written. *)
Definition set_notified (v : list RecordedAction) (self : ActionRecorder) : ActionRecorder :=
  {| on_action := on_action self; notified := v; _actions := _actions self; _recording
     := _recording self; _paused := _paused self; _last_action_time :=
     _last_action_time self; _action_counter := _action_counter self; _exclude_rect :=
     _exclude_rect self; _text_buffer := _text_buffer self; _text_buffer_start_time :=
     _text_buffer_start_time self; _text_flush_delay := _text_flush_delay self;
     _scroll_buffer_x := _scroll_buffer_x self; _scroll_buffer_y := _scroll_buffer_y
     self; _scroll_last_x := _scroll_last_x self; _scroll_last_y := _scroll_last_y
     self; _scroll_start_time := _scroll_start_time self; _scroll_timer :=
     _scroll_timer self; _sensitive_mode := _sensitive_mode self; _current_credential
     := _current_credential self; _capture_screenshots := _capture_screenshots self |}.
Definition set_actions (v : list RecordedAction) (self : ActionRecorder) : ActionRecorder :=
  {| on_action := on_action self; notified := notified self; _actions := v; _recording
     := _recording self; _paused := _paused self; _last_action_time :=
     _last_action_time self; _action_counter := _action_counter self; _exclude_rect :=
     _exclude_rect self; _text_buffer := _text_buffer self; _text_buffer_start_time :=
     _text_buffer_start_time self; _text_flush_delay := _text_flush_delay self;
     _scroll_buffer_x := _scroll_buffer_x self; _scroll_buffer_y := _scroll_buffer_y
     self; _scroll_last_x := _scroll_last_x self; _scroll_last_y := _scroll_last_y
     self; _scroll_start_time := _scroll_start_time self; _scroll_timer :=
     _scroll_timer self; _sensitive_mode := _sensitive_mode self; _current_credential
     := _current_credential self; _capture_screenshots := _capture_screenshots self |}.
Definition set_recording (v : bool) (self : ActionRecorder) : ActionRecorder :=
  {| on_action := on_action self; notified := notified self; _actions := _actions
     self; _recording := v; _paused := _paused self; _last_action_time :=
     _last_action_time self; _action_counter := _action_counter self; _exclude_rect :=
     _exclude_rect self; _text_buffer := _text_buffer self; _text_buffer_start_time :=
     _text_buffer_start_time self; _text_flush_delay := _text_flush_delay self;
     _scroll_buffer_x := _scroll_buffer_x self; _scroll_buffer_y := _scroll_buffer_y
     self; _scroll_last_x := _scroll_last_x self; _scroll_last_y := _scroll_last_y
     self; _scroll_start_time := _scroll_start_time self; _scroll_timer :=
     _scroll_timer self; _sensitive_mode := _sensitive_mode self; _current_credential
     := _current_credential self; _capture_screenshots := _capture_screenshots self |}.
Definition set_paused (v : bool) (self : ActionRecorder) : ActionRecorder :=
  {| on_action := on_action self; notified := notified self; _actions := _actions
     self; _recording := _recording self; _paused := v; _last_action_time :=
     _last_action_time self; _action_counter := _action_counter self; _exclude_rect :=
     _exclude_rect self; _text_buffer := _text_buffer self; _text_buffer_start_time :=
     _text_buffer_start_time self; _text_flush_delay := _text_flush_delay self;
     _scroll_buffer_x := _scroll_buffer_x self; _scroll_buffer_y := _scroll_buffer_y
     self; _scroll_last_x := _scroll_last_x self; _scroll_last_y := _scroll_last_y
     self; _scroll_start_time := _scroll_start_time self; _scroll_timer :=
     _scroll_timer self; _sensitive_mode := _sensitive_mode self; _current_credential
     := _current_credential self; _capture_screenshots := _capture_screenshots self |}.
Definition set_last_action_time (v : option Q) (self : ActionRecorder) : ActionRecorder :=
  {| on_action := on_action self; notified := notified self; _actions := _actions
     self; _recording := _recording self; _paused := _paused self; _last_action_time
     := v; _action_counter := _action_counter self; _exclude_rect := _exclude_rect
     self; _text_buffer := _text_buffer self; _text_buffer_start_time :=
     _text_buffer_start_time self; _text_flush_delay := _text_flush_delay self;
     _scroll_buffer_x := _scroll_buffer_x self; _scroll_buffer_y := _scroll_buffer_y
     self; _scroll_last_x := _scroll_last_x self; _scroll_last_y := _scroll_last_y
     self; _scroll_start_time := _scroll_start_time self; _scroll_timer :=
     _scroll_timer self; _sensitive_mode := _sensitive_mode self; _current_credential
     := _current_credential self; _capture_screenshots := _capture_screenshots self |}.
Definition set_action_counter (v : nat) (self : ActionRecorder) : ActionRecorder :=
  {| on_action := on_action self; notified := notified self; _actions := _actions
     self; _recording := _recording self; _paused := _paused self; _last_action_time
     := _last_action_time self; _action_counter := v; _exclude_rect := _exclude_rect
     self; _text_buffer := _text_buffer self; _text_buffer_start_time :=
     _text_buffer_start_time self; _text_flush_delay := _text_flush_delay self;
     _scroll_buffer_x := _scroll_buffer_x self; _scroll_buffer_y := _scroll_buffer_y
     self; _scroll_last_x := _scroll_last_x self; _scroll_last_y := _scroll_last_y
     self; _scroll_start_time := _scroll_start_time self; _scroll_timer :=
     _scroll_timer self; _sensitive_mode := _sensitive_mode self; _current_credential
     := _current_credential self; _capture_screenshots := _capture_screenshots self |}.
Definition set_exclude_rect (v : option (Z * Z * Z * Z)) (self : ActionRecorder) : ActionRecorder :=
  {| on_action := on_action self; notified := notified self; _actions := _actions
     self; _recording := _recording self; _paused := _paused self; _last_action_time
     := _last_action_time self; _action_counter := _action_counter self; _exclude_rect
     := v; _text_buffer := _text_buffer self; _text_buffer_start_time :=
     _text_buffer_start_time self; _text_flush_delay := _text_flush_delay self;
     _scroll_buffer_x := _scroll_buffer_x self; _scroll_buffer_y := _scroll_buffer_y
     self; _scroll_last_x := _scroll_last_x self; _scroll_last_y := _scroll_last_y
     self; _scroll_start_time := _scroll_start_time self; _scroll_timer :=
     _scroll_timer self; _sensitive_mode := _sensitive_mode self; _current_credential
     := _current_credential self; _capture_screenshots := _capture_screenshots self |}.
Definition set_text_buffer (v : string) (self : ActionRecorder) : ActionRecorder :=
  {| on_action := on_action self; notified := notified self; _actions := _actions
     self; _recording := _recording self; _paused := _paused self; _last_action_time
     := _last_action_time self; _action_counter := _action_counter self; _exclude_rect
     := _exclude_rect self; _text_buffer := v; _text_buffer_start_time :=
     _text_buffer_start_time self; _text_flush_delay := _text_flush_delay self;
     _scroll_buffer_x := _scroll_buffer_x self; _scroll_buffer_y := _scroll_buffer_y
     self; _scroll_last_x := _scroll_last_x self; _scroll_last_y := _scroll_last_y
     self; _scroll_start_time := _scroll_start_time self; _scroll_timer :=
     _scroll_timer self; _sensitive_mode := _sensitive_mode self; _current_credential
     := _current_credential self; _capture_screenshots := _capture_screenshots self |}.
Definition set_text_buffer_start_time (v : option Q) (self : ActionRecorder) : ActionRecorder :=
  {| on_action := on_action self; notified := notified self; _actions := _actions
     self; _recording := _recording self; _paused := _paused self; _last_action_time
     := _last_action_time self; _action_counter := _action_counter self; _exclude_rect
     := _exclude_rect self; _text_buffer := _text_buffer self; _text_buffer_start_time
     := v; _text_flush_delay := _text_flush_delay self; _scroll_buffer_x :=
     _scroll_buffer_x self; _scroll_buffer_y := _scroll_buffer_y self; _scroll_last_x
     := _scroll_last_x self; _scroll_last_y := _scroll_last_y self; _scroll_start_time
     := _scroll_start_time self; _scroll_timer := _scroll_timer self; _sensitive_mode
     := _sensitive_mode self; _current_credential := _current_credential self;
     _capture_screenshots := _capture_screenshots self |}.
Definition set_scroll_buffer_x (v : Z) (self : ActionRecorder) : ActionRecorder :=
  {| on_action := on_action self; notified := notified self; _actions := _actions
     self; _recording := _recording self; _paused := _paused self; _last_action_time
     := _last_action_time self; _action_counter := _action_counter self; _exclude_rect
     := _exclude_rect self; _text_buffer := _text_buffer self; _text_buffer_start_time
     := _text_buffer_start_time self; _text_flush_delay := _text_flush_delay self;
     _scroll_buffer_x := v; _scroll_buffer_y := _scroll_buffer_y self; _scroll_last_x
     := _scroll_last_x self; _scroll_last_y := _scroll_last_y self; _scroll_start_time
     := _scroll_start_time self; _scroll_timer := _scroll_timer self; _sensitive_mode
     := _sensitive_mode self; _current_credential := _current_credential self;
     _capture_screenshots := _capture_screenshots self |}.
Definition set_scroll_buffer_y (v : Z) (self : ActionRecorder) : ActionRecorder :=
  {| on_action := on_action self; notified := notified self; _actions := _actions
     self; _recording := _recording self; _paused := _paused self; _last_action_time
     := _last_action_time self; _action_counter := _action_counter self; _exclude_rect
     := _exclude_rect self; _text_buffer := _text_buffer self; _text_buffer_start_time
     := _text_buffer_start_time self; _text_flush_delay := _text_flush_delay self;
     _scroll_buffer_x := _scroll_buffer_x self; _scroll_buffer_y := v; _scroll_last_x
     := _scroll_last_x self; _scroll_last_y := _scroll_last_y self; _scroll_start_time
     := _scroll_start_time self; _scroll_timer := _scroll_timer self; _sensitive_mode
     := _sensitive_mode self; _current_credential := _current_credential self;
     _capture_screenshots := _capture_screenshots self |}.
Definition set_scroll_last_x (v : option Z) (self : ActionRecorder) : ActionRecorder :=
  {| on_action := on_action self; notified := notified self; _actions := _actions
     self; _recording := _recording self; _paused := _paused self; _last_action_time
     := _last_action_time self; _action_counter := _action_counter self; _exclude_rect
     := _exclude_rect self; _text_buffer := _text_buffer self; _text_buffer_start_time
     := _text_buffer_start_time self; _text_flush_delay := _text_flush_delay self;
     _scroll_buffer_x := _scroll_buffer_x self; _scroll_buffer_y := _scroll_buffer_y
     self; _scroll_last_x := v; _scroll_last_y := _scroll_last_y self;
     _scroll_start_time := _scroll_start_time self; _scroll_timer := _scroll_timer
     self; _sensitive_mode := _sensitive_mode self; _current_credential :=
     _current_credential self; _capture_screenshots := _capture_screenshots self |}.
Definition set_scroll_last_y (v : option Z) (self : ActionRecorder) : ActionRecorder :=
  {| on_action := on_action self; notified := notified self; _actions := _actions
     self; _recording := _recording self; _paused := _paused self; _last_action_time
     := _last_action_time self; _action_counter := _action_counter self; _exclude_rect
     := _exclude_rect self; _text_buffer := _text_buffer self; _text_buffer_start_time
     := _text_buffer_start_time self; _text_flush_delay := _text_flush_delay self;
     _scroll_buffer_x := _scroll_buffer_x self; _scroll_buffer_y := _scroll_buffer_y
     self; _scroll_last_x := _scroll_last_x self; _scroll_last_y := v;
     _scroll_start_time := _scroll_start_time self; _scroll_timer := _scroll_timer
     self; _sensitive_mode := _sensitive_mode self; _current_credential :=
     _current_credential self; _capture_screenshots := _capture_screenshots self |}.
Definition set_scroll_start_time (v : option Q) (self : ActionRecorder) : ActionRecorder :=
  {| on_action := on_action self; notified := notified self; _actions := _actions
     self; _recording := _recording self; _paused := _paused self; _last_action_time
     := _last_action_time self; _action_counter := _action_counter self; _exclude_rect
     := _exclude_rect self; _text_buffer := _text_buffer self; _text_buffer_start_time
     := _text_buffer_start_time self; _text_flush_delay := _text_flush_delay self;
     _scroll_buffer_x := _scroll_buffer_x self; _scroll_buffer_y := _scroll_buffer_y
     self; _scroll_last_x := _scroll_last_x self; _scroll_last_y := _scroll_last_y
     self; _scroll_start_time := v; _scroll_timer := _scroll_timer self;
     _sensitive_mode := _sensitive_mode self; _current_credential :=
     _current_credential self; _capture_screenshots := _capture_screenshots self |}.
Definition set_scroll_timer (v : option Timer) (self : ActionRecorder) : ActionRecorder :=
  {| on_action := on_action self; notified := notified self; _actions := _actions
     self; _recording := _recording self; _paused := _paused self; _last_action_time
     := _last_action_time self; _action_counter := _action_counter self; _exclude_rect
     := _exclude_rect self; _text_buffer := _text_buffer self; _text_buffer_start_time
     := _text_buffer_start_time self; _text_flush_delay := _text_flush_delay self;
     _scroll_buffer_x := _scroll_buffer_x self; _scroll_buffer_y := _scroll_buffer_y
     self; _scroll_last_x := _scroll_last_x self; _scroll_last_y := _scroll_last_y
     self; _scroll_start_time := _scroll_start_time self; _scroll_timer := v;
     _sensitive_mode := _sensitive_mode self; _current_credential :=
     _current_credential self; _capture_screenshots := _capture_screenshots self |}.
Definition set_sensitive_mode (v : bool) (self : ActionRecorder) : ActionRecorder :=
  {| on_action := on_action self; notified := notified self; _actions := _actions
     self; _recording := _recording self; _paused := _paused self; _last_action_time
     := _last_action_time self; _action_counter := _action_counter self; _exclude_rect
     := _exclude_rect self; _text_buffer := _text_buffer self; _text_buffer_start_time
     := _text_buffer_start_time self; _text_flush_delay := _text_flush_delay self;
     _scroll_buffer_x := _scroll_buffer_x self; _scroll_buffer_y := _scroll_buffer_y
     self; _scroll_last_x := _scroll_last_x self; _scroll_last_y := _scroll_last_y
     self; _scroll_start_time := _scroll_start_time self; _scroll_timer :=
     _scroll_timer self; _sensitive_mode := v; _current_credential :=
     _current_credential self; _capture_screenshots := _capture_screenshots self |}.
Definition set_current_credential (v : option (string * string)) (self : ActionRecorder) : ActionRecorder :=
  {| on_action := on_action self; notified := notified self; _actions := _actions
     self; _recording := _recording self; _paused := _paused self; _last_action_time
     := _last_action_time self; _action_counter := _action_counter self; _exclude_rect
     := _exclude_rect self; _text_buffer := _text_buffer self; _text_buffer_start_time
     := _text_buffer_start_time self; _text_flush_delay := _text_flush_delay self;
     _scroll_buffer_x := _scroll_buffer_x self; _scroll_buffer_y := _scroll_buffer_y
     self; _scroll_last_x := _scroll_last_x self; _scroll_last_y := _scroll_last_y
     self; _scroll_start_time := _scroll_start_time self; _scroll_timer :=
     _scroll_timer self; _sensitive_mode := _sensitive_mode self; _current_credential
     := v; _capture_screenshots := _capture_screenshots self |}.
Definition set_capture_screenshots (v : option bool) (self : ActionRecorder) : ActionRecorder :=
  {| on_action := on_action self; notified := notified self; _actions := _actions
     self; _recording := _recording self; _paused := _paused self; _last_action_time
     := _last_action_time self; _action_counter := _action_counter self; _exclude_rect
     := _exclude_rect self; _text_buffer := _text_buffer self; _text_buffer_start_time
     := _text_buffer_start_time self; _text_flush_delay := _text_flush_delay self;
     _scroll_buffer_x := _scroll_buffer_x self; _scroll_buffer_y := _scroll_buffer_y
     self; _scroll_last_x := _scroll_last_x self; _scroll_last_y := _scroll_last_y
     self; _scroll_start_time := _scroll_start_time self; _scroll_timer :=
     _scroll_timer self; _sensitive_mode := _sensitive_mode self; _current_credential
     := _current_credential self; _capture_screenshots := v |}.

(** [ActionRecorder.__init__] *)
Definition ActionRecorder_new (callback : bool) : ActionRecorder :=
  {| on_action := callback; notified := []; _actions := []; _recording := false;
     _paused := false; _last_action_time := None; _action_counter := 0;
     _exclude_rect := None; _text_buffer := ""; _text_buffer_start_time := None;
     _text_flush_delay := 0.5%Q; _scroll_buffer_x := 0; _scroll_buffer_y := 0;
     _scroll_last_x := None; _scroll_last_y := None; _scroll_start_time := None;
     _scroll_timer := None; _sensitive_mode := false; _current_credential := None;
     _capture_screenshots := None |}.

(** [f"action_{n:05d}"] *)
Definition format_action_id (n : nat) : string :=
  "action_" +:+ Py.zero_pad 5 (pretty n).

Definition _generate_action_id (self : ActionRecorder) : string * ActionRecorder :=
  let n := S (_action_counter self) in
  (format_action_id n, set_action_counter n self).

Definition _get_delay (now : Q) (self : ActionRecorder) : Q * ActionRecorder :=
  let delay :=
    match _last_action_time self with
    | None => 0.0%Q
    | Some t => (now - t)%Q
    end in
  (delay, set_last_action_time (Some now) self).

Definition _record_action (action : RecordedAction) (self : ActionRecorder)
  : ActionRecorder :=
  if negb (_recording self) || _paused self then self
  else
    let self := set_actions (_actions self ++ [action]) self in
    if on_action self then set_notified (notified self ++ [action]) self else self.

(** [f"Type: {buf[:30]}{'...' if len(buf) > 30 else ''}"] *)
Definition type_description (buf : string) : string :=
  "Type: " +:+ Py.str_take 30 buf +:+
  (if (30 <? String.length buf)%nat then "..." else "").

Definition _flush_text_buffer (now : Q) (self : ActionRecorder) : ActionRecorder :=
  if bool_decide (_text_buffer self = "") then self
  else
    let '(action, self) :=
      match _sensitive_mode self, _current_credential self with
      | true, Some (cname, cfield) =>
          let '(id, self) := _generate_action_id self in
          let ts := Py.float_or (_text_buffer_start_time self) now in
          let '(delay, self) := _get_delay now self in
          let action :=
            {| ra_id := id; ra_action_type := CREDENTIAL_INPUT; ra_timestamp := ts;
               ra_x := None; ra_y := None; ra_key := None; ra_text := None;
               ra_button := None; ra_dx := None; ra_dy := None;
               ra_credential_name := Some cname; ra_credential_field := Some cfield;
               ra_screen_region := None; ra_delay_before := delay;
               ra_window_title := None; ra_window_class := None; ra_options := [];
               ra_description := Some ("Enter " +:+ cfield +:+ " for " +:+ cname) |} in
          (action, set_current_credential None (set_sensitive_mode false self))
      | _, _ =>
          let '(id, self) := _generate_action_id self in
          let ts := Py.float_or (_text_buffer_start_time self) now in
          let '(delay, self) := _get_delay now self in
          let action :=
            {| ra_id := id; ra_action_type := KEY_TYPE; ra_timestamp := ts;
               ra_x := None; ra_y := None; ra_key := None;
               ra_text := Some (_text_buffer self);
               ra_button := None; ra_dx := None; ra_dy := None;
               ra_credential_name := None; ra_credential_field := None;
               ra_screen_region := None; ra_delay_before := delay;
               ra_window_title := None; ra_window_class := None; ra_options := [];
               ra_description := Some (type_description (_text_buffer self)) |} in
          (action, self)
      end in
    let self := _record_action action self in
    set_text_buffer_start_time None (set_text_buffer "" self).

(** Listener installation is the environment's side: the handlers below are
    the callbacks it then calls. *)
Definition start_recording (now : Q) (capture_screenshots : bool)
  (self : ActionRecorder) : ActionRecorder :=
  if _recording self then self
  else
    let self := set_recording true self in
    let self := set_paused false self in
    let self := set_actions [] self in
    let self := set_last_action_time (Some now) self in
    set_capture_screenshots (Some capture_screenshots) self.

Definition pause_recording (now : Q) (self : ActionRecorder) : ActionRecorder :=
  _flush_text_buffer now (set_paused true self).

Definition resume_recording (now : Q) (self : ActionRecorder) : ActionRecorder :=
  set_last_action_time (Some now) (set_paused false self).

(** [Timer.cancel()] *)
Definition cancel (t : Timer) : Timer := {| t_deadline := t_deadline t; t_live := false |}.

(** [x or 0] for an [Optional[int]] *)
Definition int_or_zero (x : option Z) : Z := default 0%Z x.

Definition _flush_scroll_buffer (now : Q) (self : ActionRecorder) : ActionRecorder :=
  match _scroll_start_time self with
  | None => self
  | Some start =>
      let dx := _scroll_buffer_x self in
      let dy := _scroll_buffer_y self in
      let x := int_or_zero (_scroll_last_x self) in
      let y := int_or_zero (_scroll_last_y self) in
      let self := _flush_text_buffer now self in
      let '(id, self) := _generate_action_id self in
      let '(delay, self) := _get_delay now self in
      let action :=
        {| ra_id := id; ra_action_type := MOUSE_SCROLL; ra_timestamp := start;
           ra_x := Some x; ra_y := Some y; ra_key := None; ra_text := None;
           ra_button := None; ra_dx := Some dx; ra_dy := Some dy;
           ra_credential_name := None; ra_credential_field := None;
           ra_screen_region := None; ra_delay_before := delay;
           ra_window_title := None; ra_window_class := None; ra_options := [];
           ra_description :=
             Some ("Scroll (" +:+ pretty dx +:+ ", " +:+ pretty dy +:+ ") at (" +:+
                   pretty x +:+ ", " +:+ pretty y +:+ ")") |} in
      let self := _record_action action self in
      let self := set_scroll_start_time None self in
      let self := set_scroll_buffer_x 0%Z self in
      let self := set_scroll_buffer_y 0%Z self in
      set_scroll_timer None self
  end.

(** Returns the copy of the action list together with the new state. *)
Definition stop_recording (now : Q) (self : ActionRecorder)
  : list RecordedAction * ActionRecorder :=
  let self := _flush_text_buffer now self in
  let self :=
    match _scroll_timer self with
    | Some t => set_scroll_timer (Some (cancel t)) self
    | None => self
    end in
  let self := _flush_scroll_buffer now self in
  let self := set_recording false self in
  (_actions self, self).

Definition mark_sensitive_input (now : Q) (credential_name field : string)
  (self : ActionRecorder) : ActionRecorder :=
  let self := _flush_text_buffer now self in
  set_current_credential (Some (credential_name, field)) (set_sensitive_mode true self).

Definition end_sensitive_input (now : Q) (self : ActionRecorder) : ActionRecorder :=
  let self := _flush_text_buffer now self in
  set_current_credential None (set_sensitive_mode false self).

(** [ScreenCapture.capture_region(x, y, width, height)] with [save=True]: the
    region is centred on the point and clipped at the screen origin; the
    saved file's path and the hash of the pixels come from the environment. *)
Definition capture_region (x y width height : Z) (saved : string * string)
  : ScreenRegion :=
  {| sr_x := Z.max 0 (x - width / 2); sr_y := Z.max 0 (y - height / 2);
     sr_width := width; sr_height := height;
     sr_image_path := Some (fst saved); sr_image_hash := Some (snd saved) |}.

(** [filepath] is what [capture_full_screen] returned; [None] when the grab
    raised, in which case nothing else happens. *)
Definition add_screenshot_action (now : Q) (filepath : option string)
  (self : ActionRecorder) : ActionRecorder :=
  match filepath with
  | None => self
  | Some fp =>
      let '(id, self) := _generate_action_id self in
      let '(delay, self) := _get_delay now self in
      let action :=
        {| ra_id := id; ra_action_type := SCREENSHOT; ra_timestamp := now;
           ra_x := None; ra_y := None; ra_key := None; ra_text := None;
           ra_button := None; ra_dx := None; ra_dy := None;
           ra_credential_name := None; ra_credential_field := None;
           ra_screen_region := None; ra_delay_before := delay;
           ra_window_title := None; ra_window_class := None;
           ra_options := [("filepath", fp)];
           ra_description := Some "Take screenshot" |} in
      _record_action action self
  end.

Definition add_url_action (now : Q) (url : string) (self : ActionRecorder)
  : ActionRecorder :=
  let '(id, self) := _generate_action_id self in
  let '(delay, self) := _get_delay now self in
  let action :=
    {| ra_id := id; ra_action_type := OPEN_URL; ra_timestamp := now;
       ra_x := None; ra_y := None; ra_key := None; ra_text := Some url;
       ra_button := None; ra_dx := None; ra_dy := None;
       ra_credential_name := None; ra_credential_field := None;
       ra_screen_region := None; ra_delay_before := delay;
       ra_window_title := None; ra_window_class := None; ra_options := [];
       ra_description := Some ("Open URL: " +:+ url) |} in
  _record_action action self.

(** A click inside the excluded rectangle (the floating toolbar). *)
Definition in_exclude_rect (r : option (Z * Z * Z * Z)) (x y : Z) : bool :=
  match r with
  | Some (rx, ry, rw, rh) =>
      (rx <=? x)%Z && (x <=? rx + rw)%Z && (ry <=? y)%Z && (y <=? ry + rh)%Z
  | None => false
  end.

Definition click_action_type (button_name : string) : ActionType :=
  if bool_decide (button_name = "left") then MOUSE_CLICK
  else if bool_decide (button_name = "right") then MOUSE_RIGHT_CLICK
  else MOUSE_CLICK.

(** [capture] is the outcome of the screen grab the handler makes when
    screenshots are on ([None]: it raised); [window_title] is what
    [_get_window_info] found.  An exception ends the handler where it is
    raised, with the state reached so far. *)
Definition _on_mouse_click (now : Q) (x y : Z) (button_name : string) (pressed : bool)
  (capture : option (string * string)) (window_title : option string)
  (self : ActionRecorder) : ActionRecorder :=
  if negb pressed then self
  else if in_exclude_rect (_exclude_rect self) x y then self
  else
    let self := _flush_text_buffer now self in
    let action_type := click_action_type button_name in
    let region : option (option ScreenRegion) :=
      match _capture_screenshots self with
      | None => None                                   (* AttributeError *)
      | Some false => Some None
      | Some true => (fun saved => Some (capture_region x y 100 100 saved)) <$> capture
      end in
    match region with
    | None => self
    | Some screen_region =>
        let '(id, self) := _generate_action_id self in
        let '(delay, self) := _get_delay now self in
        let action :=
          {| ra_id := id; ra_action_type := action_type; ra_timestamp := now;
             ra_x := Some x; ra_y := Some y; ra_key := None; ra_text := None;
             ra_button := Some button_name; ra_dx := None; ra_dy := None;
             ra_credential_name := None; ra_credential_field := None;
             ra_screen_region := screen_region; ra_delay_before := delay;
             ra_window_title := window_title; ra_window_class := None;
             ra_options := [];
             ra_description :=
               Some (Py.str_title button_name +:+ " click at (" +:+ pretty x +:+
                     ", " +:+ pretty y +:+ ")") |} in
        _record_action action self
    end.

Definition _on_mouse_scroll (now : Q) (x y dx dy : Z) (self : ActionRecorder)
  : ActionRecorder :=
  if negb (_recording self) || _paused self then self
  else
    let self :=
      match _scroll_timer self with
      | Some t => set_scroll_timer (Some (cancel t)) self
      | None => self
      end in
    let self :=
      match _scroll_start_time self with
      | None =>
          set_scroll_buffer_y 0%Z
            (set_scroll_buffer_x 0%Z (set_scroll_start_time (Some now) self))
      | Some _ => self
      end in
    let self := set_scroll_buffer_x (_scroll_buffer_x self + dx)%Z self in
    let self := set_scroll_buffer_y (_scroll_buffer_y self + dy)%Z self in
    let self := set_scroll_last_x (Some x) self in
    let self := set_scroll_last_y (Some y) self in
    set_scroll_timer (Some {| t_deadline := (now + 0.3)%Q; t_live := true |}) self.

Definition key_press_action (id : string) (now delay : Q) (key_name : string)
  : RecordedAction :=
  {| ra_id := id; ra_action_type := KEY_PRESS; ra_timestamp := now;
     ra_x := None; ra_y := None; ra_key := Some key_name; ra_text := None;
     ra_button := None; ra_dx := None; ra_dy := None;
     ra_credential_name := None; ra_credential_field := None;
     ra_screen_region := None; ra_delay_before := delay;
     ra_window_title := None; ra_window_class := None; ra_options := [];
     ra_description := Some ("Press " +:+ key_name) |}.

Definition flushing_keys : list string := ["enter"; "return"; "tab"; "escape"].

(** The part of [_on_key_press] for a key without a usable [char]. *)
Definition on_special_key (now : Q) (key_name : string) (self : ActionRecorder)
  : ActionRecorder :=
  if bool_decide (key_name ∈ flushing_keys) then
    let self := _flush_text_buffer now self in
    let '(id, self) := _generate_action_id self in
    let '(delay, self) := _get_delay now self in
    _record_action (key_press_action id now delay key_name) self
  else if bool_decide (key_name = "backspace") then
    if bool_decide (_text_buffer self = "") then
      let '(id, self) := _generate_action_id self in
      let '(delay, self) := _get_delay now self in
      _record_action (key_press_action id now delay key_name) self
    else set_text_buffer (Py.str_drop_last (_text_buffer self)) self
  else if bool_decide (key_name = "space") then
    let self :=
      match _text_buffer_start_time self with
      | None => set_text_buffer_start_time (Some now) self
      | Some _ => self
      end in
    set_text_buffer (_text_buffer self +:+ " ") self
  else self.

Definition _on_key_press (now : Q) (key : KeyEvent) (self : ActionRecorder)
  : ActionRecorder :=
  match key with
  | KeyCode (Some (String c rest)) _ =>
      let self :=
        match _text_buffer_start_time self with
        | None => set_text_buffer_start_time (Some now) self
        | Some _ => self
        end in
      set_text_buffer (_text_buffer self +:+ String c rest) self
  | KeyCode _ str_key => on_special_key now str_key self
  | SpecialKey name => on_special_key now name self
  end.

Definition _on_key_release (key : KeyEvent) (self : ActionRecorder) : ActionRecorder :=
  self.

(** The scroll timer's thread: a timer that is due has run
    [_flush_scroll_buffer] at its deadline. *)
Definition fire_timers (now : Q) (self : ActionRecorder) : ActionRecorder :=
  match _scroll_timer self with
  | Some t =>
      if t_live t && Qle_bool (t_deadline t) now
      then _flush_scroll_buffer (t_deadline t) (set_scroll_timer (Some (cancel t)) self)
      else self
  | None => self
  end.

(** What can happen to a recorder: a call of one of its methods, a callback
    from an input listener, or time passing. *)
Inductive Event :=
| EvStart (capture_screenshots : bool)
| EvPause
| EvResume
| EvStop
| EvMarkSensitive (credential_name field : string)
| EvEndSensitive
| EvAddScreenshot (filepath : option string)
| EvAddWait (seconds : Q)
| EvAddUrl (url : string)
| EvSetExcludeRect (r : option (Z * Z * Z * Z))
| EvMouseClick (x y : Z) (button_name : string) (pressed : bool)
    (capture : option (string * string)) (window_title : option string)
| EvMouseScroll (x y dx dy : Z)
| EvKeyPress (key : KeyEvent)
| EvKeyRelease (key : KeyEvent)
| EvTick.

Section WithFloatFormat.

(** [str(x)] for a float, used in one description only. *)
Variable str_float : Q -> string.

Definition add_wait_action (now : Q) (seconds : Q) (self : ActionRecorder)
  : ActionRecorder :=
  let '(id, self) := _generate_action_id self in
  let action :=
    {| ra_id := id; ra_action_type := WAIT; ra_timestamp := now;
       ra_x := None; ra_y := None; ra_key := None; ra_text := None;
       ra_button := None; ra_dx := None; ra_dy := None;
       ra_credential_name := None; ra_credential_field := None;
       ra_screen_region := None; ra_delay_before := seconds;
       ra_window_title := None; ra_window_class := None; ra_options := [];
       ra_description := Some ("Wait " +:+ str_float seconds +:+ " seconds") |} in
  _record_action action self.

(** One event at time [now]: the timers due by then have fired first. *)
Definition step (now : Q) (ev : Event) (self : ActionRecorder) : ActionRecorder :=
  let self := fire_timers now self in
  match ev with
  | EvStart capture => start_recording now capture self
  | EvPause => pause_recording now self
  | EvResume => resume_recording now self
  | EvStop => snd (stop_recording now self)
  | EvMarkSensitive n f => mark_sensitive_input now n f self
  | EvEndSensitive => end_sensitive_input now self
  | EvAddScreenshot fp => add_screenshot_action now fp self
  | EvAddWait seconds => add_wait_action now seconds self
  | EvAddUrl url => add_url_action now url self
  | EvSetExcludeRect r => set_exclude_rect r self
  | EvMouseClick x y b pressed capture title =>
      _on_mouse_click now x y b pressed capture title self
  | EvMouseScroll x y dx dy => _on_mouse_scroll now x y dx dy self
  | EvKeyPress k => _on_key_press now k self
  | EvKeyRelease k => _on_key_release k self
  | EvTick => self
  end.

(** A timed sequence of events, oldest first. *)
Fixpoint run (evs : list (Q * Event)) (self : ActionRecorder) : ActionRecorder :=
  match evs with
  | [] => self
  | (now, ev) :: evs' => run evs' (step now ev self)
  end.

End WithFloatFormat.

(** *** Vocabulary of the recorder's properties *)

(** [k] identifiers were generated between two states, the flags did not
    change, and the actions carrying them were appended if the recorder was
    recording and not paused. *)
Definition emits (k : nat) (self self' : ActionRecorder) : Prop :=
  _recording self' = _recording self
  /\ _paused self' = _paused self
  /\ _action_counter self' = (_action_counter self + k)%nat
  /\ map ra_id (_actions self')
     = (map ra_id (_actions self)
        ++ if _recording self && negb (_paused self)
           then map format_action_id (seq (S (_action_counter self)) k)
           else [])%list.

Definition advances (self self' : ActionRecorder) : Prop := exists k, emits k self self'.

(** States that differ in attributes the identifiers do not depend on. *)
Definition same_core (self self' : ActionRecorder) : Prop :=
  _recording self' = _recording self /\ _paused self' = _paused self
  /\ _action_counter self' = _action_counter self /\ _actions self' = _actions self.

Definition ends_session (ev : Event) : bool :=
  match ev with EvStop => true | _ => false end.

Definition pauses (ev : Event) : bool :=
  match ev with EvPause => true | _ => false end.

(** The identifiers of the session's actions are those of an increasing
    list of counter values above [c]. *)
Definition increasing_from (c : nat) (self : ActionRecorder) : Prop :=
  _recording self = true
  /\ exists l, map ra_id (_actions self) = map format_action_id l
       /\ StronglySorted lt l
       /\ Forall (fun n => (c < n <= _action_counter self)%nat) l
       /\ (c <= _action_counter self)%nat.

(** The identifiers of the session's actions are those of all the counter
    values above [c]. *)
Definition gapless_from (c : nat) (self : ActionRecorder) : Prop :=
  _recording self = true /\ _paused self = false
  /\ (c <= _action_counter self)%nat
  /\ map ra_id (_actions self)
     = map format_action_id (seq (S c) (_action_counter self - c)).

(** Character keys pressed one after the other, each at its time. *)
Definition type_text (keys : list (Q * string)) (self : ActionRecorder) : ActionRecorder :=
  foldl (fun s k => _on_key_press k.1 (KeyCode (Some k.2) k.2) s) self keys.

(** The text these keys spell. *)
Definition typed (keys : list (Q * string)) : string :=
  foldl (fun t k => t +:+ k.2) "" keys.

(** A reference to a credential field, with no text and no key. *)
Definition credential_action (a : RecordedAction) (name field : string) : Prop :=
  ra_action_type a = CREDENTIAL_INPUT
  /\ ra_credential_name a = Some name
  /\ ra_credential_field a = Some field
  /\ ra_text a = None
  /\ ra_key a = None.

(** The recorder drops what it is asked to record: it is stopped or paused. *)
Definition inactive (self : ActionRecorder) : bool :=
  negb (_recording self) || _paused self.

(** The events after which a recorder records again. *)
Definition reactivates (ev : Event) : bool :=
  match ev with EvStart _ | EvResume => true | _ => false end.

(** Nothing was recorded between two states, and the flags are the same. *)
Definition quiet (self self' : ActionRecorder) : Prop :=
  _actions self' = _actions self /\ notified self' = notified self
  /\ _recording self' = _recording self /\ _paused self' = _paused self.

(** One call of the scroll callback. *)
Record Scroll := { sc_time : Q; sc_x : Z; sc_y : Z; sc_dx : Z; sc_dy : Z }.

Definition scroll_event (e : Scroll) : Q * Event :=
  (sc_time e, EvMouseScroll (sc_x e) (sc_y e) (sc_dx e) (sc_dy e)).

(** Every scroll comes less than 0.3 s after the one before. *)
Fixpoint debounced (last : Q) (burst : list Scroll) : Prop :=
  match burst with
  | [] => True
  | e :: es => (sc_time e < last + 0.3)%Q /\ debounced (sc_time e) es
  end.

Definition total (f : Scroll -> Z) (burst : list Scroll) : Z :=
  foldr (fun e acc => (f e + acc)%Z) 0%Z burst.

End Recorder.

(** ** credentials.py *)

Module Credentials.

Record Credential := {
  c_name : string;
  c_username : string;
  c_password : string;
  c_url : option string;
  c_notes : option string;
}.

(** The JSON object of one credential: string keys, values a string or
    [null]. *)
Abbreviation CredDict := (gmap string (option string)).

Definition to_dict (c : Credential) : CredDict :=
  <["name" := Some (c_name c)]>
    (<["username" := Some (c_username c)]>
       (<["password" := Some (c_password c)]>
          (<["url" := c_url c]> (<["notes" := c_notes c]> ∅)))).

(** [data[k]] for a field that must hold a string: [None] for the [KeyError]
    of a missing key (a [null] there is outside what [to_dict] writes and is
    refused as well). *)
Definition dict_item (data : CredDict) (k : string) : option string :=
  mjoin (data !! k).

(** [data.get(k)] *)
Definition dict_get (data : CredDict) (k : string) : option string :=
  mjoin (data !! k).

Definition from_dict (data : CredDict) : option Credential :=
  name ← dict_item data "name";
  username ← dict_item data "username";
  password ← dict_item data "password";
  Some {| c_name := name; c_username := username; c_password := password;
          c_url := dict_get data "url"; c_notes := dict_get data "notes" |}.

(** [Credential.clear]: the secret overwritten by as many null characters. *)
Definition clear (c : Credential) : Credential :=
  {| c_name := c_name c; c_username := c_username c;
     c_password := Py.str_repeat (String "000"%char "") (String.length (c_password c));
     c_url := c_url c; c_notes := c_notes c |}.

Section WithCrypto.

(** The cryptographic library and the JSON codec are outside the program:
    PBKDF2-HMAC-SHA256 key derivation, Fernet authenticated encryption (which
    draws a fresh nonce on every call) and [json.dumps]/[json.loads] on the
    two payload shapes the manager writes.  Byte strings are [string]. *)
Context {Key : Type}.
Variable pbkdf2 : string -> string -> Key.
Variable fernet_encrypt : Key -> string -> string -> string.
Variable fernet_decrypt : Key -> string -> option string.
Variable dumps_store : gmap string CredDict -> string.
Variable loads_store : string -> option (gmap string CredDict).
Variable dumps_cred : CredDict -> string.
Variable loads_cred : string -> option CredDict.

Record EncryptionManager := {
  salt : string;
  _fernet : Key;
}.

(** [EncryptionManager(master_password, salt)]; [fresh] is what
    [secrets.token_bytes(16)] returns when it is called. *)
Definition EncryptionManager_new (master_password : string) (salt_arg : option string)
  (fresh : string) : EncryptionManager :=
  let salt := if Py.truthy_str salt_arg then default fresh salt_arg else fresh in
  {| salt := salt; _fernet := pbkdf2 master_password salt |}.

Definition encrypt_dict (e : EncryptionManager) (nonce : string)
  (data : gmap string CredDict) : string :=
  fernet_encrypt (_fernet e) nonce (dumps_store data).

(** [None] stands for any exception of the decryption or of the parser. *)
Definition decrypt_dict (e : EncryptionManager) (data : string)
  : option (gmap string CredDict) :=
  fernet_decrypt (_fernet e) data ≫= loads_store.

(** The manager's attributes, the two files of its storage directory
    ([None]: the file does not exist) and the operating system's keyring
    under the program's service name. *)
Record CredentialManager := {
  _use_keyring : bool;
  _encryption : option EncryptionManager;
  _master_password : option string;
  _credentials_file : option string;
  _salt_file : option string;
  keyring : gmap string string;
  keyring_broken : bool;        (* the backend raises [KeyringError] *)
}.

Definition set_keyring (v : gmap string string) (self : CredentialManager) :=
  {| _use_keyring := _use_keyring self; _encryption := _encryption self;
     _master_password := _master_password self;
     _credentials_file := _credentials_file self; _salt_file := _salt_file self;
     keyring := v; keyring_broken := keyring_broken self |}.

Definition set_credentials_file (v : option string) (self : CredentialManager) :=
  {| _use_keyring := _use_keyring self; _encryption := _encryption self;
     _master_password := _master_password self;
     _credentials_file := v; _salt_file := _salt_file self;
     keyring := keyring self; keyring_broken := keyring_broken self |}.

Definition set_salt_file (v : option string) (self : CredentialManager) :=
  {| _use_keyring := _use_keyring self; _encryption := _encryption self;
     _master_password := _master_password self;
     _credentials_file := _credentials_file self; _salt_file := v;
     keyring := keyring self; keyring_broken := keyring_broken self |}.

Definition set_encryption (v : option EncryptionManager) (self : CredentialManager) :=
  {| _use_keyring := _use_keyring self; _encryption := v;
     _master_password := _master_password self;
     _credentials_file := _credentials_file self; _salt_file := _salt_file self;
     keyring := keyring self; keyring_broken := keyring_broken self |}.

Definition _init_encryption (master_password fresh : string)
  (self : CredentialManager) : CredentialManager :=
  let e := EncryptionManager_new master_password (_salt_file self) fresh in
  let self := set_encryption (Some e) self in
  match _salt_file self with
  | None => set_salt_file (Some (salt e)) self
  | Some _ => self
  end.

(** [CredentialManager(storage_dir, master_password)] on a storage
    directory with the given files; [keyring_available] is the outcome of
    [_check_keyring_available]. *)
Definition CredentialManager_new (keyring_available : bool)
  (credentials_file salt_file : option string) (os_keyring : gmap string string)
  (broken : bool) (master_password : option string) (fresh : string)
  : CredentialManager :=
  let self :=
    {| _use_keyring := keyring_available; _encryption := None;
       _master_password := master_password;
       _credentials_file := credentials_file; _salt_file := salt_file;
       keyring := os_keyring; keyring_broken := broken |} in
  if Py.truthy_str master_password
  then _init_encryption (default "" master_password) fresh self
  else self.

Definition _load_credentials_file (self : CredentialManager) : gmap string CredDict :=
  match _credentials_file self, _encryption self with
  | Some data, Some e => default ∅ (decrypt_dict e data)
  | _, _ => ∅
  end.

Definition _store_in_file (credential : Credential) (nonce : string)
  : M CredentialManager bool :=
  self ← get_state;
  match _encryption self with
  | None => raise "Master password not set. Call set_master_password first."
  | Some e =>
      let credentials := _load_credentials_file self in
      let credentials := <[c_name credential := to_dict credential]> credentials in
      let encrypted := encrypt_dict e nonce credentials in
      modify (set_credentials_file (Some encrypted));;
      mret true
  end.

(** [keyring.set_password(KEYRING_SERVICE, name, value)] *)
Definition keyring_set_password (name value : string) : M CredentialManager unit :=
  self ← get_state;
  if keyring_broken self then raise "KeyringError"
  else modify (set_keyring (<[name := value]> (keyring self))).

(** [keyring.get_password(KEYRING_SERVICE, name)] *)
Definition keyring_get_password (name : string) : M CredentialManager (option string) :=
  self ← get_state;
  if keyring_broken self then raise "KeyringError"
  else mret (keyring self !! name).

Definition store_credential (credential : Credential) (nonce : string)
  : M CredentialManager bool :=
  self ← get_state;
  stored ← try_except
    (if _use_keyring self then
       keyring_set_password (c_name credential) (dumps_cred (to_dict credential));;
       mret true
     else mret false)
    (fun _ => mret false);
  if (stored : bool) then mret true else _store_in_file credential nonce.

Definition get_credential (name : string) : M CredentialManager (option Credential) :=
  self ← get_state;
  found ← try_except
    (if _use_keyring self then
       data ← keyring_get_password name;
       if Py.truthy_str data then
         match loads_cred (default "" data) ≫= from_dict with
         | Some c => mret (Some (Some c))
         | None => mret (Some None)           (* the parser or [from_dict] raised *)
         end
       else mret None
     else mret None)
    (fun _ => mret None);
  match found with
  | Some (Some c) => mret (Some c)
  | Some None => raise "invalid keyring entry"
  | None =>
      let credentials := _load_credentials_file self in
      match credentials !! name with
      | Some d =>
          match from_dict d with
          | Some c => mret (Some c)
          | None => raise "KeyError"
          end
      | None => mret None
      end
  end.

(** [fresh] is the export's new salt, [nonce] the encryption's. *)
Definition export_credentials (export_password fresh nonce : string)
  (self : CredentialManager) : string :=
  let credentials := _load_credentials_file self in
  let export_encryption := EncryptionManager_new export_password None fresh in
  let encrypted := encrypt_dict export_encryption nonce credentials in
  salt export_encryption +:+ encrypted.

(** [data[16:]] *)
Fixpoint str_drop (n : nat) (s : string) : string :=
  match n, s with
  | S n', String _ s' => str_drop n' s'
  | _, _ => s
  end.

(** The loop of [import_credentials] over [credentials.items()]; the [i]-th
    write draws the nonce [nonces i]. *)
Fixpoint import_items (items : list (string * CredDict)) (nonces : nat -> string)
  (count : nat) : M CredentialManager nat :=
  match items with
  | [] => mret count
  | (name, cred_data) :: rest =>
      match from_dict cred_data with
      | None => raise "KeyError"
      | Some cred =>
          store_credential cred (nonces count);;
          import_items rest nonces (S count)
      end
  end.

Definition import_credentials (data import_password : string) (nonces : nat -> string)
  : M CredentialManager nat :=
  if (String.length data <? 17)%nat then raise "Invalid export data"
  else
    let salt := Py.str_take 16 data in
    let encrypted := str_drop 16 data in
    (* the prefix is not empty, so no fresh salt is drawn *)
    let import_encryption := EncryptionManager_new import_password (Some salt) "" in
    match decrypt_dict import_encryption encrypted with
    | None => raise "Invalid import password or corrupted export data"
    | Some credentials => import_items (map_to_list credentials) nonces 0
    end.

(** *** Vocabulary of the manager's properties *)

(** The credential found under a name. *)
Definition lookup (name : string) (self : CredentialManager) : Outcome (option Credential) :=
  fst (get_credential name self).

(** The manager has somewhere to write: a working keyring or a master
    password. *)
Definition can_store (self : CredentialManager) : Prop :=
  (_use_keyring self = true /\ keyring_broken self = false) \/ is_Some (_encryption self).

(** Items as [to_dict] writes them, under the credential's own name. *)
Definition well_formed (items : list (string * CredDict)) : Prop :=
  Forall (fun '(n, d) => exists c, d = to_dict c /\ c_name c = n) items.

(** *** The other operations of the manager *)

(** [verify_master_password]: every exception of the [try] block gives
    [False]; [fresh] is the salt drawn when there is no salt file. *)
Definition verify_master_password (password fresh : string) (self : CredentialManager)
  : bool :=
  let test_encryption := EncryptionManager_new password (_salt_file self) fresh in
  match _credentials_file self with
  | Some data => bool_decide (is_Some (decrypt_dict test_encryption data))
  | None => true
  end.

(** [sorted(names)]: strings are ordered character by character. *)
Definition str_le (a b : string) : Prop := Is_true (String.leb a b).

Definition list_credentials (self : CredentialManager) : list string :=
  merge_sort str_le (elements (dom (_load_credentials_file self))).

(** [keyring.delete_password(KEYRING_SERVICE, name)]; whether a backend
    raises [PasswordDeleteError] for a name it does not hold depends on the
    backend, hence [missing_raises]. *)
Definition keyring_delete_password (missing_raises : bool) (name : string)
  : M CredentialManager unit :=
  self ← get_state;
  if keyring_broken self then raise "KeyringError"
  else
    match keyring self !! name with
    | Some _ => modify (set_keyring (delete name (keyring self)))
    | None => if missing_raises then raise "PasswordDeleteError" else mret tt
    end.

Definition delete_credential (missing_raises : bool) (name nonce : string)
  : M CredentialManager bool :=
  self ← get_state;
  deleted ← try_except
    (if _use_keyring self then keyring_delete_password missing_raises name;; mret true
     else mret false)
    (fun _ => mret false);
  self ← get_state;
  let credentials := _load_credentials_file self in
  match credentials !! name with
  | Some _ =>
      let credentials := delete name credentials in
      match _encryption self with
      | Some e =>
          modify (set_credentials_file (Some (encrypt_dict e nonce credentials)))
      | None => mret tt
      end;;
      mret true
  | None => mret deleted
  end.

(** *** SecureInput *)

(** [s.split(sep, 1)]: the text before the first separator and, if there is
    one, the text after it. *)
Fixpoint str_split_once (sep : ascii) (s : string) : string * option string :=
  match s with
  | "" => ("", None)
  | String c s' =>
      if bool_decide (c = sep) then ("", Some s')
      else let '(a, b) := str_split_once sep s' in (String c a, b)
  end.

(** [mark_sensitive_field] on the dictionary of pending inputs. *)
Definition mark_sensitive_field (field_id credential_name field_type : string)
  (pending : gmap string string) : gmap string string :=
  <[field_id := credential_name +:+ ":" +:+ field_type]> pending.

Definition get_playback_value (pending : gmap string string) (field_id : string)
  : M CredentialManager (option string) :=
  match pending !! field_id with
  | None => mret None
  | Some ref =>
      match str_split_once ":" ref with
      | (cred_name, Some field_type) =>
          cred ← get_credential cred_name;
          match cred with
          | None => mret None
          | Some cred =>
              if bool_decide (field_type = "password") then mret (Some (c_password cred))
              else if bool_decide (field_type = "username")
                   then mret (Some (c_username cred))
                   else mret None
          end
      | (_, None) => raise "not enough values to unpack (expected 2, got 1)"
      end
  end.

(** The manager's file holds what the manager wrote with its own key. *)
Definition file_intact (self : CredentialManager) : Prop :=
  match _credentials_file self with
  | None => True
  | Some data =>
      exists e nonce d, _encryption self = Some e /\ data = encrypt_dict e nonce d
  end.

(** The string has no colon. *)
Fixpoint no_colon (s : string) : Prop :=
  match s with
  | "" => True
  | String c s' => c <> ":"%char /\ no_colon s'
  end.

(** The manager's encryption is the one [_init_encryption] sets up for this
    master password: its salt is in the salt file. *)
Definition keyed_by (master : string) (self : CredentialManager) : Prop :=
  exists e, _encryption self = Some e /\ _salt_file self = Some (salt e)
    /\ Py.truthy_str (Some (salt e)) = true
    /\ _fernet e = pbkdf2 master (salt e).

End WithCrypto.

End Credentials.

(** ** playback.py *)

Module Playback.
Import Recorder.

Inductive PlaybackStatus := IDLE | RUNNING | PAUSED | COMPLETED | FAILED | ABORTED.

#[global] Instance PlaybackStatus_eq_dec : EqDecision PlaybackStatus.
Proof. solve_decision. Defined.

Record PlaybackResult := {
  pr_success : bool;
  pr_action_id : string;
  pr_action_type : ActionType;
  pr_error_message : option string;
  pr_screenshot_path : option string;
  pr_retry_count : Z;
  pr_duration_ms : Z;
  pr_page_load_time_ms : option Z;
}.

Record PlaybackReport := {
  rp_recording_id : string;
  rp_recording_name : string;
  rp_status : PlaybackStatus;
  rp_started_at : Q;
  rp_completed_at : option Q;
  rp_total_actions : Z;
  rp_completed_actions : Z;
  rp_failed_actions : Z;
  rp_screenshots : list string;
  rp_results : list PlaybackResult;
  rp_error_message : option string;
}.

(** [a / b] on two ints: [None] for [ZeroDivisionError]. *)
Definition truediv (a b : Z) : option Q :=
  if (b =? 0)%Z then None else Some (inject_Z a / inject_Z b)%Q.

(** The [success_rate] property; [None] would be an exception. *)
Definition success_rate (self : PlaybackReport) : option Q :=
  if (rp_total_actions self =? 0)%Z then Some 0.0%Q
  else (fun r => r * 100)%Q <$> truediv (rp_completed_actions self) (rp_total_actions self).

(** *** The environment of a playback

    Every call that leaves the program (input injection, screen capture,
    browser launch, credential lookup, callbacks) is an entry of the trace;
    what it returns, and whether it raises, is the environment's choice,
    which may depend on how many calls were made before. *)

Inductive Call :=
| CSleep (seconds : Q)
| CLogWarning (msg : string)
| CClick (x y : option Z)
| CDoubleClick (x y : option Z)
| CRightClick (x y : option Z)
| CMoveTo (x y : option Z)
| CScroll (clicks : Z)
| CPress (key : string)
| CWrite (text : string)
| CHotkey (keys : list string)
| CLocateOnScreen (image_path : string) (confidence : Q)
| CGrab (left top width height : Z)
| CMatchTemplate (path1 path2 : string)
| CFindChrome
| CPopen (chrome_path : string) (url : option string)
| CWebbrowserOpen (url : option string)
| CMeasureLoadTime (timeout_ms : Z)
| CCaptureFullScreen
| CSaveScreenshot (out_dir : string)
| CGetCredential (name : string)
| CAbortRequested
| CPauseWait
| COnActionStart (action : RecordedAction)
| COnActionComplete (result : PlaybackResult)
| COnStatusChange (status : PlaybackStatus).

Record Reply := {
  raises : option string;             (* the call raises, with this message *)
  r_bool : bool;
  r_int : Z;
  r_str : option string;
  r_float : option Q;
  r_pos : option (Z * Z);
  r_cred : option Credentials.Credential;
  r_elapsed : Q;                      (* the time the call took *)
}.

Definition Env := nat -> Call -> Reply.

(** The attributes [execute] does not assign: the constructor's arguments
    and the playback settings. *)
Record Config := {
  storage_dir : string;
  on_action_start : bool;             (* the callback is installed *)
  on_action_complete : bool;
  on_status_change : bool;
  screenshot_output_dir : option string;
  threshold : Q;                      (* of the VisualVerifier *)
  max_retries : Z;
  retry_delay : Q;
  action_timeout : Q;
}.

(** The attributes [execute] assigns, the clock and the trace of calls. *)
Record State := {
  trace : list Call;
  clock : Q;
  speed_multiplier : Q;
  verify_visuals : bool;
  _status : PlaybackStatus;
  _current_recording : option Recording;
  _current_action_index : nat;
  _step_screenshots : gmap string string;
}.

Definition set_trace_clock (tr : list Call) (t : Q) (st : State) : State :=
  {| trace := tr; clock := t; speed_multiplier := speed_multiplier st;
     verify_visuals := verify_visuals st; _status := _status st;
     _current_recording := _current_recording st;
     _current_action_index := _current_action_index st;
     _step_screenshots := _step_screenshots st |}.

Definition set_status (v : PlaybackStatus) (st : State) : State :=
  {| trace := trace st; clock := clock st; speed_multiplier := speed_multiplier st;
     verify_visuals := verify_visuals st; _status := v;
     _current_recording := _current_recording st;
     _current_action_index := _current_action_index st;
     _step_screenshots := _step_screenshots st |}.

Definition set_current_recording (v : option Recording) (st : State) : State :=
  {| trace := trace st; clock := clock st; speed_multiplier := speed_multiplier st;
     verify_visuals := verify_visuals st; _status := _status st;
     _current_recording := v;
     _current_action_index := _current_action_index st;
     _step_screenshots := _step_screenshots st |}.

Definition set_current_action_index (v : nat) (st : State) : State :=
  {| trace := trace st; clock := clock st; speed_multiplier := speed_multiplier st;
     verify_visuals := verify_visuals st; _status := _status st;
     _current_recording := _current_recording st;
     _current_action_index := v;
     _step_screenshots := _step_screenshots st |}.

Definition set_step_screenshots (v : gmap string string) (st : State) : State :=
  {| trace := trace st; clock := clock st; speed_multiplier := speed_multiplier st;
     verify_visuals := verify_visuals st; _status := _status st;
     _current_recording := _current_recording st;
     _current_action_index := _current_action_index st;
     _step_screenshots := v |}.

Definition set_playback_options (speed : Q) (verify : bool) (st : State) : State :=
  {| trace := trace st; clock := clock st; speed_multiplier := speed;
     verify_visuals := verify; _status := _status st;
     _current_recording := _current_recording st;
     _current_action_index := _current_action_index st;
     _step_screenshots := _step_screenshots st |}.

(** [PlaybackEngine.__init__] *)
Definition PlaybackEngine_config (dir : string) (start complete status : bool) : Config :=
  {| storage_dir := dir; on_action_start := start; on_action_complete := complete;
     on_status_change := status; screenshot_output_dir := None; threshold := 0.85%Q;
     max_retries := 3; retry_delay := 1.0%Q; action_timeout := 30.0%Q |}.

Definition PlaybackEngine_state (now : Q) : State :=
  {| trace := []; clock := now; speed_multiplier := 1.0%Q; verify_visuals := true;
     _status := IDLE; _current_recording := None; _current_action_index := 0;
     _step_screenshots := ∅ |}.

Section Engine.

Variable env : Env.
Variable self : Config.

Abbreviation Eff := (M State).

(** A call to the outside: logged, timed, and answered by the environment. *)
Definition call (c : Call) : Eff Reply :=
  fun st =>
    let r := env (length (trace st)) c in
    let st' := set_trace_clock (trace st ++ [c]) (clock st + Qmax 0 (r_elapsed r))%Q st in
    match raises r with
    | Some e => (Raise e, st')
    | None => (Ok r, st')
    end.

(** The same for the calls that cannot raise: a read of the abort flag, the
    wait on the pause gate, a line of the log. *)
Definition ask (c : Call) : Eff Reply :=
  fun st =>
    let r := env (length (trace st)) c in
    (Ok r, set_trace_clock (trace st ++ [c]) (clock st + Qmax 0 (r_elapsed r))%Q st).

(** [time.time()] *)
Definition time : Eff Q := fun st => (Ok (clock st), st).

(** [time.sleep(seconds)] *)
Definition sleep (seconds : Q) : Eff unit :=
  if Py.Qlt_bool seconds 0 then raise "sleep length must be non-negative"
  else fun st =>
    (Ok tt, set_trace_clock (trace st ++ [CSleep seconds]) (clock st + seconds)%Q st).

Definition logger_warning (msg : string) : Eff unit :=
  ask (CLogWarning msg);; mret tt.

(** *** VisualVerifier *)

(** [ScreenCapture.capture_region(x, y, width, height, save=False)] *)
Definition capture_region_unsaved (x y : option Z) (width height : Z)
  : Eff ScreenRegion :=
  match x, y with
  | Some x, Some y =>
      let left := Z.max 0 (x - width / 2) in
      let top := Z.max 0 (y - height / 2) in
      call (CGrab left top width height);;
      mret {| sr_x := left; sr_y := top; sr_width := width; sr_height := height;
              sr_image_path := None; sr_image_hash := None |}
  | _, _ => raise "unsupported operand type(s) for -: 'NoneType' and 'int'"
  end.

(** [ScreenCapture.compare_regions]: the reply's [r_bool] tells that the
    image library is missing ([ImportError]), its [r_float] is the
    correlation, absent when an image could not be read. *)
Definition compare_regions (region1 region2 : ScreenRegion) (thr : Q) : Eff bool :=
  match sr_image_path region1, sr_image_path region2 with
  | Some (String c1 p1), Some (String c2 p2) =>
      r ← call (CMatchTemplate (String c1 p1) (String c2 p2));
      if r_bool r
      then mret (bool_decide (sr_image_hash region1 = sr_image_hash region2))
      else
        match r_float r with
        | Some similarity => mret (Qle_bool thr similarity)
        | None => mret false
        end
  | _, _ => mret false
  end.

(** The polling loop of [verify_location]; [polls] bounds its iterations. *)
Fixpoint verify_loop (polls : nat) (start_time : Q) (x y : option Z)
  (expected_region : ScreenRegion) (timeout : Q) : Eff bool :=
  now ← time;
  match polls with
  | S polls' =>
      if Py.Qlt_bool (now - start_time) timeout then
        current_region ← capture_region_unsaved x y (sr_width expected_region)
                           (sr_height expected_region);
        matched ← compare_regions expected_region current_region (threshold self);
        if (matched : bool) then mret true
        else sleep 0.5;; verify_loop polls' start_time x y expected_region timeout
      else
        logger_warning ("Visual verification failed at (" +:+ Py.str_opt_Z x +:+ ", " +:+
                        Py.str_opt_Z y +:+ ")");;
        mret false
  | O =>
      logger_warning ("Visual verification failed at (" +:+ Py.str_opt_Z x +:+ ", " +:+
                      Py.str_opt_Z y +:+ ")");;
      mret false
  end.

(** Every iteration that does not return sleeps half a second, so the loop
    condition fails after at most this many iterations. *)
Definition poll_bound (timeout : Q) : nat :=
  S (Z.to_nat (Qceiling (timeout / 0.5))).

Definition verify_location (x y : option Z) (expected_region : option ScreenRegion)
  (timeout : Q) : Eff bool :=
  match expected_region with
  | None => mret true
  | Some region =>
      if negb (Py.truthy_str (sr_image_path region)) then mret true
      else
        start_time ← time;
        verify_loop (poll_bound timeout) start_time x y region timeout
  end.

(** [find_on_screen]: the position in the reply is the centre of the match. *)
Definition find_on_screen (expected_region : ScreenRegion) (confidence : Q)
  : Eff (option (Z * Z)) :=
  match sr_image_path expected_region with
  | Some (String c p) =>
      try_except
        (r ← call (CLocateOnScreen (String c p) confidence); mret (r_pos r))
        (fun _ => mret None)
  | _ => mret None
  end.

(** *** PlaybackEngine *)

Definition _set_status (status : PlaybackStatus) : Eff unit :=
  modify (set_status status);;
  if on_status_change self then call (COnStatusChange status);; mret tt else mret tt.

(** [_find_chrome] searches the file system and the registry: one call, whose
    reply is the executable's path if there is one. *)
Definition _open_url (url : option string) : Eff unit :=
  r ← call CFindChrome;
  match r_str r with
  | Some (String c p) => call (CPopen (String c p) url);; mret tt
  | _ => call (CWebbrowserOpen url);; mret tt
  end;;
  sleep 2.

(** The visual check shared by the three click handlers: the coordinates at
    which the click is to be made. *)
Definition verified_position (action : RecordedAction) : Eff (option Z * option Z) :=
  let x := ra_x action in
  let y := ra_y action in
  st ← get_state;
  match ra_screen_region action with
  | Some region =>
      if verify_visuals st then
        ok ← verify_location x y (Some region) 10.0;
        if (ok : bool) then mret (x, y)
        else
          new_location ← find_on_screen region 0.8;
          match new_location with
          | Some (nx, ny) => mret (Some nx, Some ny)
          | None =>
              raise ("Visual verification failed at (" +:+ Py.str_opt_Z x +:+ ", " +:+
                     Py.str_opt_Z y +:+ ")")
          end
      else mret (x, y)
  | None => mret (x, y)
  end.

Definition _execute_click (action : RecordedAction) : Eff (option string) :=
  '(x, y) ← verified_position action;
  call (CClick x y);;
  mret None.

Definition _execute_double_click (action : RecordedAction) : Eff (option string) :=
  '(x, y) ← verified_position action;
  call (CDoubleClick x y);;
  mret None.

Definition _execute_right_click (action : RecordedAction) : Eff (option string) :=
  '(x, y) ← verified_position action;
  call (CRightClick x y);;
  mret None.

Definition _execute_scroll (action : RecordedAction) : Eff (option string) :=
  match ra_x action, ra_y action with
  | Some _, Some _ => call (CMoveTo (ra_x action) (ra_y action));; mret tt
  | _, _ => mret tt
  end;;
  let clicks := default 0%Z (ra_dy action) in
  call (CScroll clicks);;
  mret None.

Definition key_map (key : string) : string :=
  let k := Py.str_lower key in
  if bool_decide (k = "enter") then "return"
  else if bool_decide (k = "return") then "return"
  else if bool_decide (k = "esc") then "escape"
  else if bool_decide (k = "del") then "delete"
  else key.

Definition _execute_key_press (action : RecordedAction) : Eff (option string) :=
  match ra_key action with
  | None => raise "'NoneType' object has no attribute 'lower'"
  | Some key => call (CPress (key_map key));; mret None
  end.

Definition _execute_type (action : RecordedAction) : Eff (option string) :=
  match ra_text action with
  | Some (String c t) => call (CWrite (String c t));; mret None
  | _ => mret None
  end.

Definition _execute_credential_input (action : RecordedAction) : Eff (option string) :=
  match ra_credential_name action, ra_credential_field action with
  | Some (String c1 n), Some (String c2 f) =>
      let name := String c1 n in
      let field := String c2 f in
      r ← call (CGetCredential name);
      match r_cred r with
      | None => raise ("Credential not found: " +:+ name)
      | Some credential =>
          value ←
            (if bool_decide (field = "password") then mret (Credentials.c_password credential)
             else if bool_decide (field = "username")
                  then mret (Credentials.c_username credential)
                  else raise ("Unknown credential field: " +:+ field));
          call (CWrite value);;
          mret None
      end
  | _, _ => raise "Invalid credential action: missing name or field"
  end.

Definition _execute_screenshot (action : RecordedAction) : Eff (option string) :=
  let out_dir :=
    if Py.truthy_str (screenshot_output_dir self)
    then default "" (screenshot_output_dir self)
    else storage_dir self +:+ "/playback_screenshots" in
  r ← call (CSaveScreenshot out_dir);
  mret (Some (default "" (r_str r))).

Definition _execute_hotkey (action : RecordedAction) : Eff (option string) :=
  match ra_text action with
  | Some (String c t) => call (CHotkey (Py.str_split "+"%char (String c t)));; mret None
  | _ => mret None
  end.

Definition _execute_action (action : RecordedAction) : Eff (option string) :=
  match ra_action_type action with
  | MOUSE_CLICK => _execute_click action
  | MOUSE_DOUBLE_CLICK => _execute_double_click action
  | MOUSE_RIGHT_CLICK => _execute_right_click action
  | MOUSE_SCROLL => _execute_scroll action
  | KEY_PRESS => _execute_key_press action
  | KEY_TYPE => _execute_type action
  | CREDENTIAL_INPUT => _execute_credential_input action
  | SCREENSHOT => _execute_screenshot action
  | WAIT => sleep (ra_delay_before action);; mret None
  | OPEN_URL => _open_url (ra_text action);; mret None
  | HOTKEY => _execute_hotkey action
  | other =>
      logger_warning ("Unknown action type: " +:+ ActionType_value other);;
      mret None
  end.

(** The body of the [try] of one attempt. *)
Definition attempt_once (attempt : Z) (start_time : Q) (action : RecordedAction)
  : Eff PlaybackResult :=
  st ← get_state;
  (if Py.Qlt_bool 0 (ra_delay_before action) then
     if Qeq_bool (speed_multiplier st) 0 then raise "float division by zero"
     else sleep (Qmin (ra_delay_before action / speed_multiplier st) 5.0)
   else mret tt);;
  screenshot_path ← _execute_action action;
  page_load_ms ←
    (if bool_decide (ra_action_type action = OPEN_URL ∨ ra_action_type action = MOUSE_CLICK)
     then try_except (r ← call (CMeasureLoadTime 10000); mret (Some (r_int r)))
                     (fun _ => mret None)
     else mret None);
  (if bool_decide (ra_action_type action = SCREENSHOT)
   then try_except
          (r ← call CCaptureFullScreen;
           modify (fun st => set_step_screenshots
                     (<[ra_id action := default "" (r_str r)]> (_step_screenshots st)) st))
          (fun _ => mret tt)
   else mret tt);;
  now ← time;
  mret {| pr_success := true; pr_action_id := ra_id action;
          pr_action_type := ra_action_type action; pr_error_message := None;
          pr_screenshot_path := screenshot_path; pr_retry_count := attempt;
          pr_duration_ms := Py.int_of_float ((now - start_time) * 1000);
          pr_page_load_time_ms := page_load_ms |}.

(** [f"Action {id} failed (attempt {attempt + 1}): {e}"] *)
Definition retry_warning (action : RecordedAction) (attempt : Z) (e : string) : string :=
  "Action " +:+ ra_id action +:+ " failed (attempt " +:+ pretty (attempt + 1)%Z +:+
  "): " +:+ e.

(** The [for attempt in range(max_retries + 1)] loop, with [n] attempts left,
    and what follows it. *)
Fixpoint retry_loop (n : nat) (attempt : Z) (start_time : Q)
  (last_error : option string) (action : RecordedAction) : Eff PlaybackResult :=
  match n with
  | S n' =>
      outcome ← try_except (inl <$> attempt_once attempt start_time action)
                           (fun e => mret (inr e));
      match outcome with
      | inl result => mret result
      | inr e =>
          logger_warning (retry_warning action attempt e);;
          (if (attempt <? max_retries self)%Z then sleep (retry_delay self) else mret tt);;
          retry_loop n' (attempt + 1)%Z start_time (Some e) action
      end
  | O =>
      now ← time;
      mret {| pr_success := false; pr_action_id := ra_id action;
              pr_action_type := ra_action_type action; pr_error_message := last_error;
              pr_screenshot_path := None; pr_retry_count := max_retries self;
              pr_duration_ms := Py.int_of_float ((now - start_time) * 1000);
              pr_page_load_time_ms := None |}
  end.

Definition _execute_action_with_retry (action : RecordedAction) : Eff PlaybackResult :=
  start_time ← time;
  retry_loop (Z.to_nat (max_retries self + 1)) 0 start_time None action.

(** *** execute *)

Definition set_report_status (s : PlaybackStatus) (msg : option string)
  (r : PlaybackReport) : PlaybackReport :=
  {| rp_recording_id := rp_recording_id r; rp_recording_name := rp_recording_name r;
     rp_status := s; rp_started_at := rp_started_at r;
     rp_completed_at := rp_completed_at r; rp_total_actions := rp_total_actions r;
     rp_completed_actions := rp_completed_actions r;
     rp_failed_actions := rp_failed_actions r; rp_screenshots := rp_screenshots r;
     rp_results := rp_results r; rp_error_message := msg |}.

(** [report.results.append(result)] and the counter that follows it. *)
Definition add_result (result : PlaybackResult) (r : PlaybackReport) : PlaybackReport :=
  {| rp_recording_id := rp_recording_id r; rp_recording_name := rp_recording_name r;
     rp_status := rp_status r; rp_started_at := rp_started_at r;
     rp_completed_at := rp_completed_at r; rp_total_actions := rp_total_actions r;
     rp_completed_actions :=
       (if pr_success result then rp_completed_actions r + 1 else rp_completed_actions r)%Z;
     rp_failed_actions :=
       (if pr_success result then rp_failed_actions r else rp_failed_actions r + 1)%Z;
     rp_screenshots := rp_screenshots r;
     rp_results := rp_results r ++ [result]; rp_error_message := rp_error_message r |}.

Definition add_screenshot (result : PlaybackResult) (r : PlaybackReport) : PlaybackReport :=
  match pr_screenshot_path result with
  | Some (String c p) =>
      {| rp_recording_id := rp_recording_id r; rp_recording_name := rp_recording_name r;
         rp_status := rp_status r; rp_started_at := rp_started_at r;
         rp_completed_at := rp_completed_at r; rp_total_actions := rp_total_actions r;
         rp_completed_actions := rp_completed_actions r;
         rp_failed_actions := rp_failed_actions r;
         rp_screenshots := rp_screenshots r ++ [String c p];
         rp_results := rp_results r; rp_error_message := rp_error_message r |}
  | _ => r
  end.

Definition set_completed_at (t : Q) (r : PlaybackReport) : PlaybackReport :=
  {| rp_recording_id := rp_recording_id r; rp_recording_name := rp_recording_name r;
     rp_status := rp_status r; rp_started_at := rp_started_at r;
     rp_completed_at := Some t; rp_total_actions := rp_total_actions r;
     rp_completed_actions := rp_completed_actions r;
     rp_failed_actions := rp_failed_actions r; rp_screenshots := rp_screenshots r;
     rp_results := rp_results r; rp_error_message := rp_error_message r |}.

(** The report is an object the loop mutates, so an exception leaves it as
    it is at that point: inside the [try] of [execute] a piece of code either
    goes on with its value or ends with the exception and that report. *)
Definition guarded {A} (report : PlaybackReport) (m : Eff A)
  (k : A -> Eff (PlaybackReport * option string)) : Eff (PlaybackReport * option string) :=
  fun st =>
    match m st with
    | (Ok a, st') => k a st'
    | (Raise e, st') => (Ok (report, Some e), st')
    end.

Definition error_of_result (result : PlaybackResult) : string :=
  "Action failed: " +:+ default "None" (pr_error_message result).

(** The read of [_abort_requested], which [abort] sets from another thread. *)
Definition abort_requested : Eff bool :=
  r ← ask CAbortRequested;
  mret (r_bool r).

Definition notify_action_start (action : RecordedAction) : Eff unit :=
  if on_action_start self then call (COnActionStart action);; mret tt else mret tt.

Definition notify_action_complete (result : PlaybackResult) : Eff unit :=
  if on_action_complete self then call (COnActionComplete result);; mret tt else mret tt.

(** One iteration from the pause gate to the result of the action. *)
Definition begin_action (idx : nat) (action : RecordedAction) : Eff PlaybackResult :=
  ask CPauseWait;;
  modify (set_current_action_index idx);;
  notify_action_start action;;
  _execute_action_with_retry action.

(** The [for idx, action in enumerate(recording.actions)] loop: the report
    when it ends (by exhaustion or by [break]) and the exception that ended
    it, if one did. *)
Fixpoint run_actions (retry_on_failure : Z) (idx : nat) (actions : list RecordedAction)
  (report : PlaybackReport) : Eff (PlaybackReport * option string) :=
  match actions with
  | [] => mret (report, None)
  | action :: rest =>
      aborted ← abort_requested;
      if (aborted : bool)
      then mret (set_report_status ABORTED (Some "Playback aborted by user") report, None)
      else
        guarded report (begin_action idx action)
          (fun result =>
             let report := add_result result report in
             if negb (pr_success result) && (retry_on_failure <=? 0)%Z
             then mret (set_report_status FAILED (Some (error_of_result result)) report,
                        None)
             else
               let report := add_screenshot result report in
               guarded report (notify_action_complete result)
                 (fun _ => run_actions retry_on_failure (S idx) rest report))
  end.

(** The opening of the starting URL. *)
Definition open_start_url (recording : Recording) : Eff unit :=
  if Py.truthy_str (rec_url recording)
  then _open_url (rec_url recording);; sleep 2
  else mret tt.

(** The [try] block of [execute]. *)
Definition execute_body (recording : Recording) (report : PlaybackReport)
  : Eff (PlaybackReport * option string) :=
  guarded report (open_start_url recording)
    (fun _ =>
       '(report, exc) ← run_actions (rec_retry_on_failure recording) 0
                          (rec_actions recording) report;
       match exc with
       | Some e => mret (report, Some e)
       | None =>
           if bool_decide (rp_status report = RUNNING)
           then mret (set_report_status COMPLETED (rp_error_message report) report, None)
           else mret (report, None)
       end).

(** The report as [execute] creates it. *)
Definition new_report (recording : Recording) (started : Q) : PlaybackReport :=
  {| rp_recording_id := rec_id recording; rp_recording_name := rec_name recording;
     rp_status := RUNNING; rp_started_at := started; rp_completed_at := None;
     rp_total_actions := Z.of_nat (length (rec_actions recording));
     rp_completed_actions := 0; rp_failed_actions := 0; rp_screenshots := [];
     rp_results := []; rp_error_message := None |}.

Definition execute (recording : Recording) (speed : Q) (verify : bool)
  : Eff PlaybackReport :=
  modify (set_current_recording (Some recording));;
  modify (set_playback_options speed verify);;
  modify (set_current_action_index 0);;
  modify (set_step_screenshots ∅);;
  started ← time;
  let report := new_report recording started in
  _set_status RUNNING;;
  '(report, exc) ← execute_body recording report;
  let report :=
    match exc with
    | Some e => set_report_status FAILED (Some e) report
    | None => report
    end in
  finished ← time;
  let report := set_completed_at finished report in
  _set_status (rp_status report);;
  modify (set_current_recording None);;
  mret report.

(** *** Vocabulary of the engine's properties *)

(** The visual check has nothing to compare with. *)
Definition skips_verification (region : option ScreenRegion) : Prop :=
  match region with
  | None => True
  | Some r => Py.truthy_str (sr_image_path r) = false
  end.

(** The state after the warning of a failed attempt, and after the pause
    that follows it. *)
Definition warned (action : RecordedAction) (attempt : Z) (e : string) (st : State)
  : State :=
  snd (logger_warning (retry_warning action attempt e) st).

Definition paused_after (action : RecordedAction) (attempt : Z) (e : string) (st : State)
  : State :=
  snd (sleep (retry_delay self) (warned action attempt e st)).

(** The execution of the action raises whatever the state. *)
Definition always_raises (action : RecordedAction) : Prop :=
  forall st, exists e st', _execute_action action st = (Raise e, st').

Definition successes (l : list PlaybackResult) : Z :=
  Z.of_nat (length (List.filter pr_success l)).

Definition failures (l : list PlaybackResult) : Z :=
  Z.of_nat (length (List.filter (fun r => negb (pr_success r)) l)).

Definition no_abort : Prop := forall n, r_bool (env n CAbortRequested) = false.

Definition is_callback (c : Call) : bool :=
  match c with
  | COnActionStart _ | COnActionComplete _ | COnStatusChange _ => true
  | _ => false
  end.

Definition is_browser_call (c : Call) : bool :=
  match c with
  | CFindChrome | CPopen _ _ | CWebbrowserOpen _ => true
  | _ => false
  end.

(** A run nobody interferes with: no abort is requested, the callbacks
    return, the starting URL (if there is one) opens, and the retry delay is
    not negative. *)
Definition normal_run (recording : Recording) : Prop :=
  no_abort
  /\ (forall n c, is_callback c = true -> raises (env n c) = None)
  /\ (Py.truthy_str (rec_url recording) = true ->
      forall n c, is_browser_call c = true -> raises (env n c) = None)
  /\ Py.Qlt_bool (retry_delay self) 0 = false.

End Engine.

End Playback.

(** ** scheduler.py *)

Module Scheduler.
Import Recorder.

Inductive ScheduleFrequency := ONCE | HOURLY | DAILY | WEEKLY | MONTHLY | CUSTOM.

(** [datetime] values are instants on the clock. *)
Record Schedule := {
  s_id : string;
  s_name : string;
  s_recording_id : string;
  s_recording_name : string;
  s_frequency : ScheduleFrequency;
  s_cron_expression : option string;
  s_email_recipients : list string;
  s_is_active : bool;
  s_created_at : Q;
  s_updated_at : Q;
  s_last_run : option Q;
  s_next_run : option Q;
  s_run_count : Z;
  s_success_count : Z;
  s_failure_count : Z;
  s_speed_multiplier : Q;
  s_verify_visuals : bool;
  s_retry_on_failure : bool;
}.

(** The assignments [_execute_schedule] makes to the schedule object. *)
Definition record_run (now : Q) (succeeded : bool) (s : Schedule) : Schedule :=
  {| s_id := s_id s; s_name := s_name s; s_recording_id := s_recording_id s;
     s_recording_name := s_recording_name s; s_frequency := s_frequency s;
     s_cron_expression := s_cron_expression s;
     s_email_recipients := s_email_recipients s; s_is_active := s_is_active s;
     s_created_at := s_created_at s; s_updated_at := s_updated_at s;
     s_last_run := Some now; s_next_run := s_next_run s;
     s_run_count := (s_run_count s + 1)%Z;
     s_success_count := (if succeeded then s_success_count s + 1 else s_success_count s)%Z;
     s_failure_count := (if succeeded then s_failure_count s else s_failure_count s + 1)%Z;
     s_speed_multiplier := s_speed_multiplier s; s_verify_visuals := s_verify_visuals s;
     s_retry_on_failure := s_retry_on_failure s |}.

Definition set_next_run (t : option Q) (s : Schedule) : Schedule :=
  {| s_id := s_id s; s_name := s_name s; s_recording_id := s_recording_id s;
     s_recording_name := s_recording_name s; s_frequency := s_frequency s;
     s_cron_expression := s_cron_expression s;
     s_email_recipients := s_email_recipients s; s_is_active := s_is_active s;
     s_created_at := s_created_at s; s_updated_at := s_updated_at s;
     s_last_run := s_last_run s; s_next_run := t;
     s_run_count := s_run_count s; s_success_count := s_success_count s;
     s_failure_count := s_failure_count s;
     s_speed_multiplier := s_speed_multiplier s; s_verify_visuals := s_verify_visuals s;
     s_retry_on_failure := s_retry_on_failure s |}.

(** The scheduler's calls to the outside. *)
Inductive Call :=
| CPathExists (path : string)
| CLoadRecording (path : string)
| CNewEngine (playback_dir : string)
| CNow
| CGetJob (schedule_id : string)
| CSaveSchedules
| CSendReport (recipients : list string) (schedule_name : string)
    (report : Playback.PlaybackReport)
| COnRunComplete (schedule : Schedule) (report : Playback.PlaybackReport)
| CEngineClose.

Record Reply := {
  raises : option string;
  r_bool : bool;
  r_recording : option Recording;   (* what [Recording.load] returns *)
  r_now : Q;
  r_job : option (option Q);        (* the job, if any, and its next run time *)
}.

(** The environment of one execution: the answers to the scheduler's own
    calls and the environment of the playback it starts. *)
Record Env := {
  reply : nat -> Call -> Reply;
  playback_env : Playback.Env;
}.

Record Config := {
  storage_dir : string;
  recordings_dir : string;
  _notifier : bool;                 (* an email configuration was given *)
  on_run_complete : bool;           (* the callback is installed *)
}.

(** The schedule object the call works on, its calls so far and those of
    the playback. *)
Record State := {
  schedule : Schedule;
  trace : list Call;
  playback_trace : list Playback.Call;
}.

Section Execution.

Variable env : Env.
Variable self : Config.

Abbreviation Eff := (M State).

Definition call (c : Call) : Eff Reply :=
  fun st =>
    let r := reply env (length (trace st)) c in
    let st' := {| schedule := schedule st; trace := trace st ++ [c];
                  playback_trace := playback_trace st |} in
    match raises r with
    | Some e => (Raise e, st')
    | None => (Ok r, st')
    end.

(** The calls that cannot raise: a reading of the clock, and
    [EmailNotifier.send_report], which catches every exception itself. *)
Definition ask (c : Call) : Eff Reply :=
  fun st =>
    (Ok (reply env (length (trace st)) c),
     {| schedule := schedule st; trace := trace st ++ [c];
        playback_trace := playback_trace st |}).

Definition update_schedule (f : Schedule -> Schedule) : Eff unit :=
  modify (fun st => {| schedule := f (schedule st); trace := trace st;
                       playback_trace := playback_trace st |}).

(** [PlaybackEngine(credential_manager, storage_dir).execute(...)]: a fresh
    engine without callbacks, run in the playback's own environment. *)
Definition run_engine (started : Q) (playback_dir : string) (recording : Recording)
  (speed : Q) (verify : bool) : Eff Playback.PlaybackReport :=
  fun st =>
    let cfg := Playback.PlaybackEngine_config playback_dir false false false in
    match Playback.execute (playback_env env) cfg recording speed verify
            (Playback.PlaybackEngine_state started) with
    | (Ok report, pst) =>
        (Ok report, {| schedule := schedule st; trace := trace st;
                       playback_trace := Playback.trace pst |})
    | (Raise e, pst) =>
        (Raise e, {| schedule := schedule st; trace := trace st;
                     playback_trace := Playback.trace pst |})
    end.

Definition engine_execute (playback_dir : string) (recording : Recording)
  (speed : Q) (verify : bool) : Eff Playback.PlaybackReport :=
  now ← ask CNow;
  run_engine (r_now now) playback_dir recording speed verify.

Definition send_notification (report : Playback.PlaybackReport) : Eff unit :=
  st ← get_state;
  match _notifier self, s_email_recipients (schedule st) with
  | true, _ :: _ =>
      ask (CSendReport (s_email_recipients (schedule st)) (s_name (schedule st)) report);;
      mret tt
  | _, _ => mret tt
  end.

(** The first part of the [try] block: from the recording's file to the
    report of its playback. *)
Definition load_and_play : Eff Playback.PlaybackReport :=
  st ← get_state;
  let recording_path :=
    recordings_dir self +:+ "/" +:+ s_recording_id (schedule st) +:+ ".json" in
  r ← call (CPathExists recording_path);
  (if r_bool r then mret tt
   else raise ("Recording not found: " +:+ s_recording_id (schedule st)));;
  r ← call (CLoadRecording recording_path);
  recording ← match r_recording r with
              | Some recording => mret recording
              | None => raise "invalid recording file"
              end;
  let playback_dir := storage_dir self +:+ "/playback/" +:+ s_id (schedule st) in
  call (CNewEngine playback_dir);;
  engine_execute playback_dir recording
    (s_speed_multiplier (schedule st)) (s_verify_visuals (schedule st)).

(** The rest of the [try] block: the statistics, the next run time, the
    save, the email, the callback. *)
Definition record_outcome (report : Playback.PlaybackReport)
  : Eff Playback.PlaybackReport :=
  now ← ask CNow;
  update_schedule
    (record_run (r_now now)
       (bool_decide (Playback.rp_status report = Playback.COMPLETED)));;
  st ← get_state;
  r ← call (CGetJob (s_id (schedule st)));
  match r_job r with
  | Some next_run_time => update_schedule (set_next_run next_run_time)
  | None => mret tt
  end;;
  call CSaveSchedules;;
  send_notification report;;
  (if on_run_complete self
   then st ← get_state; call (COnRunComplete (schedule st) report);; mret tt
   else mret tt);;
  call CEngineClose;;
  mret report.

(** The [except Exception as e] block. *)
Definition record_failure (e : string) : Eff Playback.PlaybackReport :=
  st ← get_state;
  started ← ask CNow;
  completed ← ask CNow;
  let report :=
    {| Playback.rp_recording_id := s_recording_id (schedule st);
       Playback.rp_recording_name := s_recording_name (schedule st);
       Playback.rp_status := Playback.FAILED;
       Playback.rp_started_at := r_now started;
       Playback.rp_completed_at := Some (r_now completed);
       Playback.rp_total_actions := 0; Playback.rp_completed_actions := 0;
       Playback.rp_failed_actions := 0; Playback.rp_screenshots := [];
       Playback.rp_results := []; Playback.rp_error_message := Some e |} in
  now ← ask CNow;
  update_schedule (record_run (r_now now) false);;
  call CSaveSchedules;;
  send_notification report;;
  mret report.

Definition _execute_schedule : Eff Playback.PlaybackReport :=
  try_except (report ← load_and_play; record_outcome report) record_failure.

End Execution.

(** *** Vocabulary of the scheduler's properties *)

(** The calls made after the counters were updated. *)
Definition is_bookkeeping (c : Call) : bool :=
  match c with
  | CGetJob _ | CSaveSchedules | COnRunComplete _ _ | CEngineClose => true
  | _ => false
  end.

Definition bookkeeping_succeeds (env : Env) : Prop :=
  forall n c, is_bookkeeping c = true -> raises (reply env n c) = None.

(** One more run, counted as a success or as a failure. *)
Definition counted_once (succeeded : bool) (before after : Schedule) : Prop :=
  s_run_count after = (s_run_count before + 1)%Z
  /\ s_success_count after
     = (if succeeded then s_success_count before + 1 else s_success_count before)%Z
  /\ s_failure_count after
     = (if succeeded then s_failure_count before else s_failure_count before + 1)%Z.

(** [run_now]: the schedule found under the id is the object executed, so
    the dictionary sees what the execution did to it. *)
Definition run_now (env : Env) (self : Config) (schedules : gmap string Schedule)
  (schedule_id : string)
  : option (Outcome Playback.PlaybackReport * gmap string Schedule * State) :=
  match schedules !! schedule_id with
  | None => None
  | Some s =>
      let '(out, st) :=
        _execute_schedule env self
          {| schedule := s; trace := []; playback_trace := [] |} in
      Some (out, <[schedule_id := schedule st]> schedules, st)
  end.

End Scheduler.

(** ** recorder.py: deserialisation

    [from_dict] works on what [json.loads] returns and checks no types, so
    it is modelled on Python values: the fields of the objects it builds hold
    whatever the dictionary held. *)

Module Serial.

Inductive value :=
| VNone
| VBool (b : bool)
| VInt (z : Z)
| VFloat (q : Q)
| VStr (s : string)
| VList (l : list value)
| VDict (d : gmap string value)
| VActionType (t : Recorder.ActionType)        (* a member of the enum *)
| VDatetime (t : Z)                            (* a [datetime], in microseconds *)
| VObject (cls : string) (fields : gmap string value).   (* a dataclass instance *)

(** A dataclass: its fields in order, each with its default if it has one. *)
Definition dataclass := list (string * option value).

Definition field_names (spec : dataclass) : gset string := list_to_set spec.*1.

(** The constructor call with keyword arguments: [None] is the [TypeError] of an unexpected keyword or
    of a missing required argument. *)
Definition dataclass_init (cls : string) (spec : dataclass) (kwargs : gmap string value)
  : option value :=
  if bool_decide (dom kwargs ⊆ field_names spec) then
    fields ← mapM (fun '(f, dflt) =>
                     match kwargs !! f with
                     | Some v => Some (f, v)
                     | None => (fun v => (f, v)) <$> dflt
                     end) spec;
    Some (VObject cls (list_to_map fields))
  else None.

Definition ScreenRegion_fields : dataclass :=
  [("x", None); ("y", None); ("width", None); ("height", None);
   ("image_path", Some VNone); ("image_hash", Some VNone)].

Definition RecordedAction_fields : dataclass :=
  [("id", None); ("action_type", None); ("timestamp", None);
   ("x", Some VNone); ("y", Some VNone); ("key", Some VNone); ("text", Some VNone);
   ("button", Some VNone); ("dx", Some VNone); ("dy", Some VNone);
   ("credential_name", Some VNone); ("credential_field", Some VNone);
   ("screen_region", Some VNone); ("delay_before", Some (VFloat 0.0));
   ("window_title", Some VNone); ("window_class", Some VNone);
   ("options", Some (VDict ∅)); ("description", Some VNone)].

Definition Recording_fields : dataclass :=
  [("id", None); ("name", None); ("description", None); ("created_at", None);
   ("updated_at", None); ("url", None); ("actions", None);
   ("capture_screenshots", Some (VBool true)); ("screenshot_region_size", Some (VInt 100));
   ("speed_multiplier", Some (VFloat 1.0)); ("verify_screenshots", Some (VBool true));
   ("retry_on_failure", Some (VInt 3)); ("audit_purpose", Some VNone);
   ("audit_verification_goal", Some VNone); ("step_screenshot_paths", Some (VDict ∅));
   ("email_recipients", Some (VList []))].

(** [ActionType(v)] *)
Definition ActionType_call (v : value) : option value :=
  match v with
  | VStr s => VActionType <$> Recorder.ActionType_of_value s
  | VActionType t => Some (VActionType t)
  | _ => None
  end.

(** The constructor of [ScreenRegion] on the entries of [v] as keywords *)
Definition ScreenRegion_call (v : value) : option value :=
  match v with
  | VDict d => dataclass_init "ScreenRegion" ScreenRegion_fields d
  | _ => None
  end.

(** [{k: v for k, v in data.items() if k in valid_fields}] *)
Definition keep_fields (valid_fields : gset string) (data : gmap string value)
  : gmap string value :=
  filter (fun kv => kv.1 ∈ valid_fields) data.

Definition RecordedAction_from_dict (data : value) : option value :=
  match data with
  | VDict data =>
      screen_region ←
        match data !! "screen_region" with
        | Some v => ScreenRegion_call v
        | None => Some VNone
        end;
      let data := delete "screen_region" data in
      tag ← data !! "action_type";
      action_type ← ActionType_call tag;
      let data := <["action_type" := action_type]> data in
      let valid_fields := field_names RecordedAction_fields ∖ {["screen_region"]} in
      let filtered := keep_fields valid_fields data in
      dataclass_init "RecordedAction" RecordedAction_fields
        (<["screen_region" := screen_region]> filtered)
  | _ => None
  end.

(** [data.setdefault(k, v)] *)
Definition setdefault (k : string) (v : value) (data : gmap string value)
  : gmap string value :=
  match data !! k with
  | Some _ => data
  | None => <[k := v]> data
  end.

Section WithDatetime.

(** [datetime.fromisoformat] on a string; [None] is its [ValueError]. *)
Variable fromisoformat : string -> option Z.

Definition fromisoformat_call (v : value) : option value :=
  match v with
  | VStr s => VDatetime <$> fromisoformat s
  | _ => None
  end.

(** [[RecordedAction.from_dict(a) for a in v]]: iterating a dictionary
    yields its keys and iterating a string its characters, on which
    [from_dict] raises. *)
Definition actions_from (v : value) : option value :=
  match v with
  | VList l => VList <$> mapM RecordedAction_from_dict l
  | VDict d => if bool_decide (d = ∅) then Some (VList []) else None
  | VStr s => if bool_decide (s = "") then Some (VList []) else None
  | _ => None
  end.

Definition Recording_from_dict (data : value) : option value :=
  match data with
  | VDict data =>
      created ← data !! "created_at" ≫= fromisoformat_call;
      let data := <["created_at" := created]> data in
      updated ← data !! "updated_at" ≫= fromisoformat_call;
      let data := <["updated_at" := updated]> data in
      actions ← data !! "actions" ≫= actions_from;
      let data := <["actions" := actions]> data in
      let data := setdefault "audit_purpose" VNone data in
      let data := setdefault "audit_verification_goal" VNone data in
      let data := setdefault "step_screenshot_paths" (VDict ∅) data in
      let data := setdefault "email_recipients" (VList []) data in
      let data := keep_fields (field_names Recording_fields) data in
      dataclass_init "Recording" Recording_fields data
  | _ => None
  end.

(** The dictionary without the keys that are not fields of the class. *)
Definition strip_action (a : value) : value :=
  match a with
  | VDict d => VDict (keep_fields (field_names RecordedAction_fields) d)
  | _ => a
  end.

Definition strip_recording (data : gmap string value) : gmap string value :=
  let data := keep_fields (field_names Recording_fields) data in
  match data !! "actions" with
  | Some (VList l) => <["actions" := VList (strip_action <$> l)]> data
  | _ => data
  end.

End WithDatetime.

(** *** Serialisation *)

(** Truthiness of a value; an enum member of a [str] enum is its (non-empty)
    value, and an instance of a dataclass without [__bool__] is true. *)
Definition truthy (v : value) : bool :=
  match v with
  | VNone => false
  | VBool b => b
  | VInt z => negb (z =? 0)%Z
  | VFloat q => negb (Qeq_bool q 0)
  | VStr s => negb (bool_decide (s = ""))
  | VList l => match l with [] => false | _ => true end
  | VDict d => negb (bool_decide (d = ∅))
  | VActionType _ | VDatetime _ | VObject _ _ => true
  end.

Definition is_none (v : value) : bool :=
  match v with VNone => true | _ => false end.

(** [dataclasses.asdict] below the top level: instances become dictionaries,
    lists and dictionaries are converted element by element, anything else is
    copied. *)
Fixpoint asdict_inner (v : value) : value :=
  match v with
  | VObject _ fields => VDict (asdict_inner <$> fields)
  | VList l => VList (asdict_inner <$> l)
  | VDict d => VDict (asdict_inner <$> d)
  | _ => v
  end.

(** [asdict(v)]: a [TypeError] on anything but an instance. *)
Definition asdict (v : value) : option value :=
  match v with
  | VObject _ _ => Some (asdict_inner v)
  | _ => None
  end.

(** [v.value] for an enum member. *)
Definition enum_value (v : value) : option value :=
  match v with
  | VActionType t => Some (VStr (Recorder.ActionType_value t))
  | _ => None
  end.

(** The keys of the dictionary literal of [RecordedAction.to_dict], in
    order. *)
Definition RecordedAction_keys : list string :=
  ["id"; "action_type"; "timestamp"; "x"; "y"; "key"; "text"; "button"; "dx"; "dy";
   "credential_name"; "credential_field"; "delay_before"; "window_title";
   "window_class"; "options"; "description"].

(** [RecordedAction.to_dict] on an instance; [None] is an exception
    ([AttributeError], or the [TypeError] of [asdict]). *)
Definition RecordedAction_to_dict (self : value) : option value :=
  match self with
  | VObject _ fields =>
      data ← mapM (fun k =>
                     v ← fields !! k;
                     v ← (if bool_decide (k = "action_type") then enum_value v else Some v);
                     Some (k, v)) RecordedAction_keys;
      let data : gmap string value := list_to_map data in
      screen_region ← fields !! "screen_region";
      data ← (if truthy screen_region
              then (fun d => <["screen_region" := d]> data) <$> asdict screen_region
              else Some data);
      Some (VDict (filter (fun kv => is_none kv.2 = false) data))
  | _ => None
  end.

Section WithIsoformat.

(** [datetime.isoformat] *)
Variable isoformat : Z -> string.

Definition isoformat_call (v : value) : option value :=
  match v with
  | VDatetime t => Some (VStr (isoformat t))
  | _ => None
  end.

(** [[a.to_dict() for a in v]] *)
Definition actions_to (v : value) : option value :=
  match v with
  | VList l => VList <$> mapM RecordedAction_to_dict l
  | VDict d => if bool_decide (d = ∅) then Some (VList []) else None
  | VStr s => if bool_decide (s = "") then Some (VList []) else None
  | _ => None
  end.

(** The keys that [Recording.to_dict] copies as they are. *)
Definition Recording_plain_keys : list string :=
  ["id"; "name"; "description"; "url"; "capture_screenshots"; "screenshot_region_size";
   "speed_multiplier"; "verify_screenshots"; "retry_on_failure"; "audit_purpose";
   "audit_verification_goal"; "step_screenshot_paths"; "email_recipients"].

Definition Recording_to_dict (self : value) : option value :=
  match self with
  | VObject _ fields =>
      created ← fields !! "created_at" ≫= isoformat_call;
      updated ← fields !! "updated_at" ≫= isoformat_call;
      actions ← fields !! "actions" ≫= actions_to;
      plain ← mapM (fun k => v ← fields !! k; Some (k, v)) Recording_plain_keys;
      Some (VDict (<["created_at" := created]>
                     (<["updated_at" := updated]>
                        (<["actions" := actions]> (list_to_map plain)))))
  | _ => None
  end.

End WithIsoformat.

(** *** Vocabulary of the serialisation's properties *)

(** A value without structure. *)
Definition scalar (v : value) : Prop :=
  match v with
  | VList _ | VDict _ | VObject _ _ => False
  | _ => True
  end.

(** An instance of [ScreenRegion] with scalar attributes. *)
Definition region_object (v : value) : Prop :=
  exists fields, v = VObject "ScreenRegion" fields
    /\ dom fields = field_names ScreenRegion_fields
    /\ map_Forall (fun _ x => scalar x) fields.

(** An instance of [RecordedAction] as the recorder builds them: every
    attribute is there, the type is a member of the enum, the region is
    [None] or an instance, and the attributes that are not optional are not
    [None]. *)
Definition action_object (v : value) : Prop :=
  exists fields t sr, v = VObject "RecordedAction" fields
    /\ dom fields = field_names RecordedAction_fields
    /\ fields !! "action_type" = Some (VActionType t)
    /\ fields !! "screen_region" = Some sr /\ (sr = VNone \/ region_object sr)
    /\ (forall k, k ∈ ["id"; "timestamp"; "delay_before"; "options"] ->
        fields !! k <> Some VNone).

(** An instance of [Recording]: every attribute is there, the two dates are
    [datetime]s and the actions are a list of instances. *)
Definition recording_object (v : value) : Prop :=
  exists fields created updated actions, v = VObject "Recording" fields
    /\ dom fields = field_names Recording_fields
    /\ fields !! "created_at" = Some (VDatetime created)
    /\ fields !! "updated_at" = Some (VDatetime updated)
    /\ fields !! "actions" = Some (VList actions)
    /\ Forall action_object actions.

End Serial.

(** ** Concrete instances

    Recordings, environments and a model of the cryptographic interface on
    which the programs above can be run. *)

Module Examples.
Import Recorder.

(** *** A model of the cryptographic and JSON interfaces

    Keys are the pair of password and salt, and tokens and JSON texts are
    the binary numerals of the encoded values: enough for the laws the
    manager relies on. *)

Definition Key : Type := string * string.

Definition pbkdf2 (password salt : string) : Key := (password, salt).

Fixpoint bits (p : positive) : string :=
  match p with
  | xH => "1"
  | xO p' => String "0" (bits p')
  | xI p' => String "1" (bits p')
  end.

Fixpoint unbits (s : string) : option positive :=
  match s with
  | "" => None
  | String c "" => if bool_decide (c = "1"%char) then Some xH else None
  | String c s' =>
      if bool_decide (c = "0"%char) then xO <$> unbits s'
      else if bool_decide (c = "1"%char) then xI <$> unbits s'
      else None
  end.

Definition pack `{Countable A} (a : A) : string := bits (encode a).
Definition unpack `{Countable A} (s : string) : option A := unbits s ≫= decode.

Definition fernet_encrypt (k : Key) (nonce m : string) : string := pack (k, nonce, m).

Definition fernet_decrypt (k : Key) (token : string) : option string :=
  '(k', _, m) ← unpack (A := Key * string * string) token;
  if bool_decide (k' = k) then Some m else None.

Definition dumps_store (d : gmap string Credentials.CredDict) : string := pack d.
Definition loads_store (s : string) : option (gmap string Credentials.CredDict) := unpack s.
Definition dumps_cred (d : Credentials.CredDict) : string := pack d.
Definition loads_cred (s : string) : option Credentials.CredDict := unpack s.

Definition store_credential :=
  Credentials.store_credential fernet_encrypt fernet_decrypt dumps_store loads_store
    dumps_cred.
Definition lookup := Credentials.lookup fernet_decrypt loads_store loads_cred.
Definition export_credentials :=
  Credentials.export_credentials pbkdf2 fernet_encrypt fernet_decrypt dumps_store
    loads_store.
Definition import_credentials :=
  Credentials.import_credentials pbkdf2 fernet_encrypt fernet_decrypt dumps_store
    loads_store dumps_cred.

Definition portal : Credentials.Credential :=
  {| Credentials.c_name := "Portal"; Credentials.c_username := "alice";
     Credentials.c_password := "s3cret";
     Credentials.c_url := Some "https://portal.example"; Credentials.c_notes := None |}.

(** A manager without a keyring, with a master password, on an empty
    storage directory; and one with a working keyring and no master
    password. *)
Definition file_manager : Credentials.CredentialManager (Key := Key) :=
  Credentials.CredentialManager_new pbkdf2 false None None ∅ false (Some "master")
    "0123456789abcdef".

Definition keyring_manager : Credentials.CredentialManager (Key := Key) :=
  Credentials.CredentialManager_new pbkdf2 true None None ∅ false None
    "0123456789abcdef".

(** *** Recordings and playback environments *)

Definition quiet : Playback.Reply :=
  {| Playback.raises := None; Playback.r_bool := false; Playback.r_int := 0;
     Playback.r_str := None; Playback.r_float := None; Playback.r_pos := None;
     Playback.r_cred := None; Playback.r_elapsed := 0.01%Q |}.

Definition failing (msg : string) : Playback.Reply :=
  {| Playback.raises := Some msg; Playback.r_bool := false; Playback.r_int := 0;
     Playback.r_str := None; Playback.r_float := None; Playback.r_pos := None;
     Playback.r_cred := None; Playback.r_elapsed := 0.01%Q |}.

(** Every call succeeds, except pressing the key [f24]. *)
Definition env_without_f24 : Playback.Env :=
  fun _ c =>
    match c with
    | Playback.CPress key =>
        if bool_decide (key = "f24") then failing "key not supported" else quiet
    | _ => quiet
    end.

Definition key_press (n : nat) (key : option string) : RecordedAction :=
  {| ra_id := format_action_id n; ra_action_type := KEY_PRESS;
     ra_timestamp := inject_Z (Z.of_nat n); ra_x := None; ra_y := None; ra_key := key;
     ra_text := None; ra_button := None; ra_dx := None; ra_dy := None;
     ra_credential_name := None; ra_credential_field := None;
     ra_screen_region := None; ra_delay_before := 0.5%Q; ra_window_title := None;
     ra_window_class := None; ra_options := []; ra_description := None |}.

(** Five key presses, the second of a key that cannot be pressed. *)
Definition five_keys (retry_on_failure : Z) : Recording :=
  {| rec_id := "rec-1"; rec_name := "five keys"; rec_description := "";
     rec_created_at := 0; rec_updated_at := 0; rec_url := None;
     rec_actions := [key_press 1 (Some "a"); key_press 2 (Some "f24");
                     key_press 3 (Some "b"); key_press 4 (Some "c");
                     key_press 5 (Some "d")];
     rec_capture_screenshots := true; rec_screenshot_region_size := 100;
     rec_speed_multiplier := 1.0%Q; rec_verify_screenshots := true;
     rec_retry_on_failure := retry_on_failure; rec_audit_purpose := None;
     rec_audit_verification_goal := None; rec_step_screenshot_paths := [];
     rec_email_recipients := [] |}.

Definition engine : Playback.Config := Playback.PlaybackEngine_config "store" false false false.

(** A click recorded with a region whose image was not saved. *)
Definition click_without_image : RecordedAction :=
  {| ra_id := format_action_id 1; ra_action_type := MOUSE_CLICK; ra_timestamp := 1;
     ra_x := Some 120%Z; ra_y := Some 80%Z; ra_key := None; ra_text := None;
     ra_button := Some "left"; ra_dx := None; ra_dy := None;
     ra_credential_name := None; ra_credential_field := None;
     ra_screen_region :=
       Some {| sr_x := 70; sr_y := 30; sr_width := 100; sr_height := 100;
               sr_image_path := None; sr_image_hash := None |};
     ra_delay_before := 0.0%Q; ra_window_title := None; ra_window_class := None;
     ra_options := []; ra_description := None |}.

(** A finished report with the given counts. *)
Definition report_with (total completed : Z) : Playback.PlaybackReport :=
  {| Playback.rp_recording_id := "rec-1"; Playback.rp_recording_name := "five keys";
     Playback.rp_status := Playback.COMPLETED; Playback.rp_started_at := 0;
     Playback.rp_completed_at := Some 1%Q; Playback.rp_total_actions := total;
     Playback.rp_completed_actions := completed;
     Playback.rp_failed_actions := (total - completed)%Z;
     Playback.rp_screenshots := []; Playback.rp_results := [];
     Playback.rp_error_message := None |}.

(** *** A schedule and an environment whose completion callback raises *)

Definition schedule : Scheduler.Schedule :=
  {| Scheduler.s_id := "sched-1"; Scheduler.s_name := "nightly";
     Scheduler.s_recording_id := "rec-1"; Scheduler.s_recording_name := "five keys";
     Scheduler.s_frequency := Scheduler.DAILY; Scheduler.s_cron_expression := None;
     Scheduler.s_email_recipients := ["ops@example.com"]; Scheduler.s_is_active := true;
     Scheduler.s_created_at := 0; Scheduler.s_updated_at := 0;
     Scheduler.s_last_run := None; Scheduler.s_next_run := None;
     Scheduler.s_run_count := 0; Scheduler.s_success_count := 0;
     Scheduler.s_failure_count := 0; Scheduler.s_speed_multiplier := 1.0%Q;
     Scheduler.s_verify_visuals := false; Scheduler.s_retry_on_failure := true |}.

Definition scheduler_reply (raises : option string) : Scheduler.Reply :=
  {| Scheduler.raises := raises; Scheduler.r_bool := true;
     Scheduler.r_recording := Some (five_keys 3); Scheduler.r_now := 1000;
     Scheduler.r_job := Some (Some 87400%Q) |}.

(** The recording is found and plays back; the callback installed for the
    end of a run raises. *)
Definition env_with_failing_callback : Scheduler.Env :=
  {| Scheduler.reply := fun _ c =>
       match c with
       | Scheduler.COnRunComplete _ _ => scheduler_reply (Some "callback failed")
       | _ => scheduler_reply None
       end;
     Scheduler.playback_env := fun _ _ => quiet |}.

Definition scheduler_with_callback : Scheduler.Config :=
  {| Scheduler.storage_dir := "data/scheduler"; Scheduler.recordings_dir := "recordings";
     Scheduler._notifier := true; Scheduler.on_run_complete := true |}.

(** The statuses of the reports that were emailed, in order. *)
Definition emailed (calls : list Scheduler.Call) : list Playback.PlaybackStatus :=
  omap (fun c => match c with
                 | Scheduler.CSendReport _ _ report => Some (Playback.rp_status report)
                 | _ => None
                 end) calls.

(** *** Serialised actions *)

(** A click as [to_dict] writes it, and the same with a key that a later
    version of the format might add. *)
Definition click_dict : gmap string Serial.value :=
  list_to_map [("id", Serial.VStr "action_00001"); ("action_type", Serial.VStr "mouse_click");
               ("timestamp", Serial.VFloat 12.5); ("x", Serial.VInt 120);
               ("y", Serial.VInt 80); ("button", Serial.VStr "left");
               ("delay_before", Serial.VFloat 0.4); ("options", Serial.VDict ∅)].

Definition click_dict_v2 : gmap string Serial.value :=
  <["confidence" := Serial.VFloat 0.9]> click_dict.

(** *** Input events *)

Definition char_key (c : string) : Event := EvKeyPress (KeyCode (Some c) c).

(** The keys of "hello", a tenth of a second apart, then nothing until 600 ms
    after the last of them. *)
Definition hello_then_idle : list (Q * Event) :=
  [(10.0%Q, char_key "h"); (10.1%Q, char_key "e"); (10.2%Q, char_key "l");
   (10.3%Q, char_key "l"); (10.4%Q, char_key "o"); (11.0%Q, EvTick)].

(** Three scroll events a tenth of a second apart, then nothing for 400 ms. *)
Definition scroll_then_idle : list (Q * Event) :=
  [(10.0%Q, EvMouseScroll 5 5 0 (-1)); (10.1%Q, EvMouseScroll 5 5 0 (-1));
   (10.2%Q, EvMouseScroll 5 5 0 (-1)); (10.6%Q, EvTick)].

(** The part of an action a test looks at. *)
Definition summary (a : RecordedAction) : string * ActionType * option string :=
  (ra_id a, ra_action_type a, ra_text a).

(** *** Instances of the dataclasses *)

(** The [RecordedAction] of a click without a screenshot, and a [Recording]
    made of it. *)
Definition click_object : Serial.value :=
  Serial.VObject "RecordedAction"
    (list_to_map
       [("id", Serial.VStr "action_00001");
        ("action_type", Serial.VActionType MOUSE_CLICK);
        ("timestamp", Serial.VFloat 12.5); ("x", Serial.VInt 120); ("y", Serial.VInt 80);
        ("key", Serial.VNone); ("text", Serial.VNone); ("button", Serial.VStr "left");
        ("dx", Serial.VNone); ("dy", Serial.VNone); ("credential_name", Serial.VNone);
        ("credential_field", Serial.VNone); ("screen_region", Serial.VNone);
        ("delay_before", Serial.VFloat 0.4); ("window_title", Serial.VNone);
        ("window_class", Serial.VNone); ("options", Serial.VDict ∅);
        ("description", Serial.VStr "Left click at (120, 80)")]).

Definition recording_object : Serial.value :=
  Serial.VObject "Recording"
    (list_to_map
       [("id", Serial.VStr "rec-1"); ("name", Serial.VStr "Login");
        ("description", Serial.VStr ""); ("created_at", Serial.VDatetime 1700000000000000);
        ("updated_at", Serial.VDatetime 1700000000500000); ("url", Serial.VNone);
        ("actions", Serial.VList [click_object]);
        ("capture_screenshots", Serial.VBool true);
        ("screenshot_region_size", Serial.VInt 100);
        ("speed_multiplier", Serial.VFloat 1.0); ("verify_screenshots", Serial.VBool true);
        ("retry_on_failure", Serial.VInt 3); ("audit_purpose", Serial.VNone);
        ("audit_verification_goal", Serial.VNone);
        ("step_screenshot_paths", Serial.VDict ∅);
        ("email_recipients", Serial.VList [])]).

(** A model of [isoformat] and [fromisoformat]. *)
Definition isoformat (t : Z) : string := pack t.
Definition fromisoformat (s : string) : option Z := unpack s.

End Examples.

(** * Properties *)

(** Exposes the state threaded by effectful code. *)
Ltac monad_unfold :=
  unfold mbind, M_bind, mret, M_ret, fmap, M_fmap, try_except, raise, modify,
    get_state in *.

(** ** The playback engine *)

Module PlaybackFacts.
Import Recorder Playback.

Ltac playback_unfold :=
  unfold mbind, M_bind, mret, M_ret, fmap, M_fmap, try_except, raise, modify,
    get_state, guarded in *.

(** C8: the success rate of a report is always defined: it is 0.0 when the
    report has no actions, so that nothing is divided by zero, and the
    quotient of the completed actions by the total, times 100, otherwise. *)
Theorem success_rate_total (r : PlaybackReport) :
  success_rate r =
    Some (if (rp_total_actions r =? 0)%Z then 0.0%Q
          else (inject_Z (rp_completed_actions r) / inject_Z (rp_total_actions r) * 100)%Q).
Proof.
  unfold success_rate, truediv.
  destruct (rp_total_actions r =? 0)%Z; reflexivity.
Qed.

Example success_rate_no_actions :
  success_rate (Examples.report_with 0 0) = Some 0.0%Q.
Proof. reflexivity. Qed.

Example success_rate_three_of_four :
  Qeq_bool (default 0%Q (success_rate (Examples.report_with 4 3))) 75 = true.
Proof. reflexivity. Qed.

(** *** Visual verification *)

Lemma verify_location_skips env self x y region timeout st :
  skips_verification region ->
  verify_location env self x y region timeout st = (Ok true, st).
Proof.
  destruct region as [r|]; simpl; [|reflexivity].
  intros ->. reflexivity.
Qed.

Lemma verified_position_skips env self action st :
  skips_verification (ra_screen_region action) ->
  verified_position env self action st = (Ok (ra_x action, ra_y action), st).
Proof.
  intros H. unfold verified_position. playback_unfold.
  destruct (ra_screen_region action) as [r|] eqn:E; [|reflexivity].
  destruct (verify_visuals st); [|reflexivity].
  rewrite verify_location_skips; [reflexivity | exact H].
Qed.

Lemma call_trace env c st :
  trace (snd ((call env c ;; mret (@None string)) st)) = (trace st ++ [c])%list.
Proof. unfold call. playback_unfold. destruct (raises _); reflexivity. Qed.

(** C10: when the action has no screen region, or a region without a saved
    image, [verify_location] returns true at once, without capturing or
    comparing anything, and the click, double click or right click is the
    only call made, at the recorded coordinates. *)
Theorem verification_skipped env self action st :
  skips_verification (ra_screen_region action) ->
  verify_location env self (ra_x action) (ra_y action) (ra_screen_region action) 10.0 st
    = (Ok true, st)
  /\ _execute_click env self action st
       = (call env (CClick (ra_x action) (ra_y action));; mret None) st
  /\ _execute_double_click env self action st
       = (call env (CDoubleClick (ra_x action) (ra_y action));; mret None) st
  /\ _execute_right_click env self action st
       = (call env (CRightClick (ra_x action) (ra_y action));; mret None) st
  /\ trace (snd (_execute_click env self action st))
       = (trace st ++ [CClick (ra_x action) (ra_y action)])%list.
Proof.
  intros H. split; [by apply verify_location_skips|].
  assert (Hc : _execute_click env self action st
               = (call env (CClick (ra_x action) (ra_y action));; mret None) st).
  { unfold _execute_click. playback_unfold.
    rewrite (verified_position_skips _ _ _ _ H). done. }
  split; [exact Hc|].
  split; [|split].
  - unfold _execute_double_click. playback_unfold.
    rewrite (verified_position_skips _ _ _ _ H). done.
  - unfold _execute_right_click. playback_unfold.
    rewrite (verified_position_skips _ _ _ _ H). done.
  - rewrite Hc. apply call_trace.
Qed.

Lemma verification_skipped_witness :
  skips_verification (ra_screen_region Examples.click_without_image)
  /\ trace (snd (_execute_click Examples.env_without_f24 Examples.engine
                   Examples.click_without_image (PlaybackEngine_state 0)))
     = [CClick (Some 120%Z) (Some 80%Z)].
Proof.
  split; [reflexivity|].
  destruct (verification_skipped Examples.env_without_f24 Examples.engine
              Examples.click_without_image (PlaybackEngine_state 0) eq_refl)
    as (_ & _ & _ & _ & Ht).
  exact Ht.
Defined.

(** *** Retries *)

Section Retry.
Variable env : Env.
Variable self : Config.

Lemma attempt_raises action attempt start st :
  always_raises env self action ->
  exists e st', attempt_once env self attempt start action st = (Raise e, st').
Proof.
  intros H. unfold attempt_once. playback_unfold.
  destruct (Py.Qlt_bool 0 (ra_delay_before action)).
  - destruct (Qeq_bool (speed_multiplier st) 0); [eauto|].
    unfold sleep. destruct (Py.Qlt_bool _ 0); playback_unfold; [eauto|].
    match goal with |- context [_execute_action env self action ?s] =>
      destruct (H s) as (e & st' & ->) end. eauto.
  - destruct (H st) as (e & st' & ->). eauto.
Qed.

Lemma retry_loop_step n attempt start last action st e st' :
  attempt_once env self attempt start action st = (Raise e, st') ->
  Py.Qlt_bool (retry_delay self) 0 = false ->
  retry_loop env self (S n) attempt start last action st =
    retry_loop env self n (attempt + 1) start (Some e) action
      (if (attempt <? max_retries self)%Z then paused_after env self action attempt e st'
       else warned env action attempt e st').
Proof.
  intros Ha Hd. simpl. playback_unfold. rewrite Ha.
  unfold paused_after, warned, logger_warning, ask, sleep. playback_unfold. rewrite Hd.
  destruct (attempt <? max_retries self)%Z; reflexivity.
Qed.

(** C4: an action whose execution always raises is attempted exactly
    [max_retries + 1 = 4] times; after each of the first three failures the
    engine logs a warning and sleeps [retry_delay = 1.0] seconds, after the
    fourth it only logs; the call returns (nothing is propagated) a result
    with [success = false], [retry_count = 3] and the error text of the last
    attempt. *)
Theorem retry_exhaustion action st :
  max_retries self = 3%Z ->
  retry_delay self = 1.0%Q ->
  always_raises env self action ->
  exists e0 e1 e2 e3 s0 s1 s2 s3 result,
    attempt_once env self 0 (clock st) action st = (Raise e0, s0)
    /\ attempt_once env self 1 (clock st) action (paused_after env self action 0 e0 s0) = (Raise e1, s1)
    /\ attempt_once env self 2 (clock st) action (paused_after env self action 1 e1 s1) = (Raise e2, s2)
    /\ attempt_once env self 3 (clock st) action (paused_after env self action 2 e2 s2) = (Raise e3, s3)
    /\ _execute_action_with_retry env self action st = (Ok result, warned env action 3 e3 s3)
    /\ pr_success result = false
    /\ pr_retry_count result = 3%Z
    /\ pr_error_message result = Some e3
    /\ (forall k e s, trace (paused_after env self action k e s)
          = (trace s ++ [CLogWarning (retry_warning action k e); CSleep 1.0])%list)
    /\ (forall k e s, trace (warned env action k e s)
          = (trace s ++ [CLogWarning (retry_warning action k e)])%list).
Proof.
  intros Hm Hd Hr.
  assert (Hd' : Py.Qlt_bool (retry_delay self) 0 = false) by (rewrite Hd; reflexivity).
  destruct (attempt_raises action 0 (clock st) st Hr) as (e0 & s0 & H0).
  destruct (attempt_raises action 1 (clock st) (paused_after env self action 0 e0 s0) Hr) as (e1 & s1 & H1).
  destruct (attempt_raises action 2 (clock st) (paused_after env self action 1 e1 s1) Hr) as (e2 & s2 & H2).
  destruct (attempt_raises action 3 (clock st) (paused_after env self action 2 e2 s2) Hr) as (e3 & s3 & H3).
  eexists e0, e1, e2, e3, s0, s1, s2, s3, _.
  split; [exact H0|]. split; [exact H1|]. split; [exact H2|]. split; [exact H3|].
  split.
  { unfold _execute_action_with_retry. unfold time at 1. playback_unfold. rewrite Hm.
    change (Z.to_nat (3 + 1)) with 4%nat.
    rewrite (retry_loop_step _ _ _ _ _ _ _ _ H0 Hd'), Hm. simpl (0 <? 3)%Z. cbv iota.
    rewrite (retry_loop_step _ _ _ _ _ _ _ _ H1 Hd'), Hm. simpl (0 + 1 <? 3)%Z. cbv iota.
    rewrite (retry_loop_step _ _ _ _ _ _ _ _ H2 Hd'), Hm. simpl (0 + 1 + 1 <? 3)%Z. cbv iota.
    rewrite (retry_loop_step _ _ _ _ _ _ _ _ H3 Hd'), Hm. simpl (0 + 1 + 1 + 1 <? 3)%Z. cbv iota.
    simpl. unfold time. playback_unfold. reflexivity. }
  split; [reflexivity|]. split; [exact Hm|]. split; [reflexivity|]. split.
  - intros k e s. unfold paused_after, warned, sleep, logger_warning, ask. rewrite Hd.
    playback_unfold. simpl. rewrite <- app_assoc. reflexivity.
  - intros k e s. reflexivity.
Qed.

End Retry.

Lemma retry_exhaustion_witness :
  exists result st',
    _execute_action_with_retry Examples.env_without_f24 Examples.engine
      (Examples.key_press 1 None) (PlaybackEngine_state 0) = (Ok result, st')
    /\ pr_success result = false
    /\ pr_retry_count result = 3%Z
    /\ is_Some (pr_error_message result).
Proof.
  destruct (retry_exhaustion Examples.env_without_f24 Examples.engine
              (Examples.key_press 1 None) (PlaybackEngine_state 0) eq_refl eq_refl)
    as (e0 & e1 & e2 & e3 & s0 & s1 & s2 & s3 & result & _ & _ & _ & _ & Hr & Hs & Hc & He & _).
  - intros st. eexists _, _. reflexivity.
  - exists result. eexists. split; [exact Hr|]. split; [exact Hs|]. split; [exact Hc|].
    rewrite He. eauto.
Defined.

(** *** The execution loop *)

Section Execute.
Variable env : Env.
Variable self : Config.

Lemma successes_cons r l :
  successes (r :: l) = ((if pr_success r then 1 else 0) + successes l)%Z.
Proof. unfold successes. simpl. destruct (pr_success r); simpl length; lia. Qed.

Lemma failures_cons r l :
  failures (r :: l) = ((if pr_success r then 0 else 1) + failures l)%Z.
Proof. unfold failures. simpl. destruct (pr_success r); simpl length; lia. Qed.

Lemma add_screenshot_results result r :
  rp_results (add_screenshot result r) = rp_results r
  /\ rp_completed_actions (add_screenshot result r) = rp_completed_actions r
  /\ rp_failed_actions (add_screenshot result r) = rp_failed_actions r
  /\ rp_status (add_screenshot result r) = rp_status r.
Proof. unfold add_screenshot. destruct (pr_screenshot_path result) as [[|]|]; done. Qed.

(** The loop with the gate closed: what it appends to the results is a run
    of successes, ended by at most one failure, at which the run stops with
    status [FAILED]. *)
Lemma run_actions_gate rof actions : (rof <= 0)%Z ->
  forall idx report st, exists report' exc st' new,
    run_actions env self rof idx actions report st = (Ok (report', exc), st')
    /\ rp_results report' = (rp_results report ++ new)%list
    /\ rp_completed_actions report' = (rp_completed_actions report + successes new)%Z
    /\ (forall i r, new !! i = Some r -> pr_success r = false ->
          S i = length new /\ rp_status report' = FAILED /\ exc = None).
Proof.
  intros Hrof. induction actions as [|action rest IH]; intros idx report st.
  - exists report, None, st, []. simpl. rewrite app_nil_r.
    repeat split; try done. unfold successes; simpl; lia.
  - cbn [run_actions]. unfold abort_requested, ask. playback_unfold.
    destruct (r_bool _).
    { eexists _, _, _, []. split; [reflexivity|]. simpl. rewrite app_nil_r.
      repeat split; try done. unfold successes; simpl; lia. }
    destruct (begin_action env self idx action _) as [[result|e] s1].
    2:{ eexists _, _, _, []. split; [reflexivity|]. simpl. rewrite app_nil_r.
        repeat split; try done. unfold successes; simpl; lia. }
    destruct (pr_success result) eqn:Es; cbn [negb andb].
    + destruct (add_screenshot_results result (add_result result report))
        as (Hs1 & Hs2 & Hs3 & Hs4).
      destruct (notify_action_complete env self result s1) as [[[]|e] s2].
      * destruct (IH (S idx) (add_screenshot result (add_result result report)) s2)
          as (report' & exc & st' & new & Hrun & Hres & Hcomp & Hfail).
        exists report', exc, st', (result :: new). split; [exact Hrun|].
        split. { rewrite Hres, Hs1. simpl. rewrite <- app_assoc. reflexivity. }
        split. { rewrite Hcomp, Hs2, successes_cons, Es. simpl. rewrite Es. lia. }
        intros [|i] r Hi Hr; simpl in Hi.
        -- congruence.
        -- destruct (Hfail i r Hi Hr) as (? & ? & ?). simpl. auto.
      * eexists _, _, _, [result]. split; [reflexivity|].
        split. { rewrite Hs1. reflexivity. }
        split. { rewrite Hs2, successes_cons, Es. simpl. rewrite Es.
                 unfold successes; simpl; lia. }
        intros [|i] r Hi Hr; simpl in Hi; [congruence|done].
    + assert (Hle : (rof <=? 0)%Z = true) by (apply Z.leb_le; exact Hrof).
      rewrite Hle. eexists _, _, _, [result]. split; [reflexivity|].
      split; [reflexivity|].
      split. { simpl. rewrite Es, successes_cons, Es. unfold successes; simpl; lia. }
      intros [|i] r Hi Hr; simpl in Hi; [|done]. done.
Qed.


Lemma retry_loop_returns n :
  Py.Qlt_bool (retry_delay self) 0 = false ->
  forall attempt start last action st,
    exists result st', retry_loop env self n attempt start last action st = (Ok result, st').
Proof.
  intros Hd. induction n as [|n IH]; intros attempt start last action st.
  - simpl. unfold time. playback_unfold. eauto.
  - cbn [retry_loop]. playback_unfold.
    destruct (attempt_once env self attempt start action st) as [[r|e] s]; [eauto|].
    unfold logger_warning, ask, sleep. rewrite Hd. playback_unfold.
    destruct (attempt <? max_retries self)%Z; apply IH.
Qed.

Lemma retry_returns action st :
  Py.Qlt_bool (retry_delay self) 0 = false ->
  exists result st', _execute_action_with_retry env self action st = (Ok result, st').
Proof.
  intros Hd. unfold _execute_action_with_retry, time. playback_unfold.
  apply retry_loop_returns, Hd.
Qed.

Lemma call_returns c st :
  raises (env (length (trace st)) c) = None ->
  exists r st', call env c st = (Ok r, st').
Proof. intros H. unfold call. rewrite H. eauto. Qed.

Lemma begin_action_returns recording idx action st :
  normal_run env self recording ->
  exists result st', begin_action env self idx action st = (Ok result, st').
Proof.
  intros (_ & Hcb & _ & Hd). unfold begin_action, notify_action_start, ask.
  playback_unfold. destruct (on_action_start self).
  - playback_unfold.
    match goal with |- context [call env ?c ?s] =>
      destruct (call_returns c s) as (r & s' & ->); [by apply Hcb|] end.
    apply retry_returns, Hd.
  - apply retry_returns, Hd.
Qed.

Lemma notify_complete_returns recording result st :
  normal_run env self recording ->
  exists st', notify_action_complete env self result st = (Ok tt, st').
Proof.
  intros (_ & Hcb & _). unfold notify_action_complete.
  destruct (on_action_complete self); playback_unfold; [|eauto].
  destruct (call_returns (COnActionComplete result) st) as (r & s' & ->);
    [by apply Hcb|eauto].
Qed.

Lemma set_status_returns recording status st :
  normal_run env self recording ->
  exists st', _set_status env self status st = (Ok tt, st').
Proof.
  intros (_ & Hcb & _). unfold _set_status. playback_unfold.
  destruct (on_status_change self); playback_unfold; [|eauto].
  match goal with |- context [call env ?c ?s] =>
    destruct (call_returns c s) as (r & s' & ->); [by apply Hcb|eauto] end.
Qed.

Lemma open_start_url_returns recording st :
  normal_run env self recording ->
  exists st', open_start_url env recording st = (Ok tt, st').
Proof.
  intros (_ & _ & Hbr & _). unfold open_start_url.
  destruct (Py.truthy_str (rec_url recording)) eqn:E; [|playback_unfold; eauto].
  specialize (Hbr eq_refl). unfold _open_url. playback_unfold.
  destruct (call_returns CFindChrome st) as (r & s' & ->); [by apply Hbr|].
  assert (Hs : forall s, exists s'', sleep 2 s = (Ok tt, s'')) by (intros; unfold sleep; simpl; eauto).
  destruct (r_str r) as [[|c p]|].
  - destruct (call_returns (CWebbrowserOpen (rec_url recording)) s') as (r' & s'' & ->);
      [by apply Hbr|].
    destruct (Hs s'') as (s3 & ->). destruct (Hs s3) as (s4 & ->). eauto.
  - destruct (call_returns (CPopen (String c p) (rec_url recording)) s') as (r' & s'' & ->);
      [by apply Hbr|].
    destruct (Hs s'') as (s3 & ->). destruct (Hs s3) as (s4 & ->). eauto.
  - destruct (call_returns (CWebbrowserOpen (rec_url recording)) s') as (r' & s'' & ->);
      [by apply Hbr|].
    destruct (Hs s'') as (s3 & ->). destruct (Hs s3) as (s4 & ->). eauto.
Qed.

(** The loop with the gate open: every action is attempted. *)
Lemma run_actions_open recording rof actions :
  (0 < rof)%Z -> normal_run env self recording ->
  forall idx report st, exists report' st' new,
    run_actions env self rof idx actions report st = (Ok (report', None), st')
    /\ rp_results report' = (rp_results report ++ new)%list
    /\ length new = length actions
    /\ rp_status report' = rp_status report
    /\ rp_completed_actions report' = (rp_completed_actions report + successes new)%Z
    /\ rp_failed_actions report' = (rp_failed_actions report + failures new)%Z.
Proof.
  intros Hrof Hn. induction actions as [|action rest IH]; intros idx report st.
  - exists report, st, []. simpl. rewrite app_nil_r.
    repeat split; try done; unfold successes, failures; simpl; lia.
  - cbn [run_actions]. unfold abort_requested, ask. playback_unfold.
    destruct Hn as (Hab & Hrest). rewrite Hab.
    match goal with |- context [begin_action env self idx action ?s] =>
      destruct (begin_action_returns recording idx action s (conj Hab Hrest))
        as (result & s1 & ->) end.
    assert (Hle : (rof <=? 0)%Z = false) by (apply Z.leb_gt; exact Hrof).
    rewrite Hle, andb_false_r.
    destruct (notify_complete_returns recording result s1 (conj Hab Hrest)) as (s2 & ->).
    destruct (add_screenshot_results result (add_result result report))
      as (Hs1 & Hs2 & Hs3 & Hs4).
    destruct (IH (S idx) (add_screenshot result (add_result result report)) s2)
      as (report' & st' & new & Hrun & Hres & Hlen & Hst & Hcomp & Hfail).
    exists report', st', (result :: new). split; [exact Hrun|].
    split. { rewrite Hres, Hs1. simpl. rewrite <- app_assoc. reflexivity. }
    split. { simpl. lia. }
    split. { rewrite Hst, Hs4. reflexivity. }
    split.
    + rewrite Hcomp, Hs2, successes_cons. simpl. destruct (pr_success result); lia.
    + rewrite Hfail, Hs3, failures_cons. simpl. destruct (pr_success result); lia.
Qed.


Lemma set_completed_at_fields t r :
  rp_results (set_completed_at t r) = rp_results r
  /\ rp_status (set_completed_at t r) = rp_status r
  /\ rp_completed_actions (set_completed_at t r) = rp_completed_actions r
  /\ rp_failed_actions (set_completed_at t r) = rp_failed_actions r.
Proof. done. Qed.

(** What [execute] returns in terms of its [try] block. *)
Lemma execute_inv recording speed verify st report st' :
  execute env self recording speed verify st = (Ok report, st') ->
  exists st1 body exc st2 t,
    execute_body env self recording (new_report recording (clock st)) st1
      = (Ok (body, exc), st2)
    /\ report = set_completed_at t
                  match exc with
                  | Some e => set_report_status FAILED (Some e) body
                  | None => body
                  end.
Proof.
  unfold execute, time. playback_unfold. cbn [clock set_current_recording
    set_playback_options set_current_action_index set_step_screenshots].
  destruct (_set_status env self RUNNING _) as [[[]|e] s1]; [|done].
  destruct (execute_body env self recording _ s1) as [[[body exc]|e] s2] eqn:Eb; [|done].
  destruct (_set_status env self _ s2) as [[[]|e] s3]; [|done].
  intros [= <- <-]. eauto 10.
Qed.

Lemma execute_body_gate recording started st body exc st' :
  (rec_retry_on_failure recording <= 0)%Z ->
  execute_body env self recording (new_report recording started) st = (Ok (body, exc), st') ->
  exists new,
    rp_results body = new
    /\ rp_completed_actions body = successes new
    /\ (forall i r, new !! i = Some r -> pr_success r = false ->
          S i = length new /\ rp_status body = FAILED /\ exc = None).
Proof.
  intros Hrof. unfold execute_body. playback_unfold.
  destruct (open_start_url env recording st) as [[[]|e] s1].
  2:{ intros [= <- <- <-]. exists []. repeat split; try done. }
  destruct (run_actions_gate _ (rec_actions recording) Hrof 0 (new_report recording started) s1)
    as (report' & exc' & s2 & new & -> & Hres & Hcomp & Hfail).
  simpl in Hres, Hcomp. destruct exc' as [e|].
  - intros [= <- <- <-]. exists new. split; [done|]. split; [lia|]. exact Hfail.
  - destruct (bool_decide (rp_status report' = RUNNING)) eqn:Er.
    + apply bool_decide_eq_true in Er. intros [= <- <- <-]. exists new.
      split; [done|]. split; [simpl; lia|].
      intros i r Hi Hr. destruct (Hfail i r Hi Hr) as (_ & Hf & _). congruence.
    + intros [= <- <- <-]. exists new. split; [done|]. split; [lia|]. exact Hfail.
Qed.

Lemma execute_body_open recording started st :
  (0 < rec_retry_on_failure recording)%Z ->
  normal_run env self recording ->
  exists body st',
    execute_body env self recording (new_report recording started) st = (Ok (body, None), st')
    /\ length (rp_results body) = length (rec_actions recording)
    /\ rp_status body = COMPLETED
    /\ rp_completed_actions body = successes (rp_results body)
    /\ rp_failed_actions body = failures (rp_results body).
Proof.
  intros Hrof Hn. unfold execute_body. playback_unfold.
  destruct (open_start_url_returns recording st Hn) as (s1 & ->).
  destruct (run_actions_open recording _ (rec_actions recording) Hrof Hn 0
              (new_report recording started) s1)
    as (report' & s2 & new & -> & Hres & Hlen & Hst & Hcomp & Hfail).
  simpl in Hres, Hst, Hcomp, Hfail. rewrite Hst. simpl.
  eexists _, _. split; [reflexivity|]. simpl. rewrite Hres. repeat split; try done; lia.
Qed.

(** The [try] block never lets an exception out, so [execute] returns a
    report as soon as the status callback does. *)
Lemma run_actions_returns rof actions :
  forall idx report st, exists report' exc st',
    run_actions env self rof idx actions report st = (Ok (report', exc), st').
Proof.
  induction actions as [|action rest IH]; intros idx report st.
  - simpl. playback_unfold. eauto.
  - cbn [run_actions]. unfold abort_requested, ask. playback_unfold.
    destruct (r_bool _); [eauto|].
    destruct (begin_action env self idx action _) as [[result|e] s1]; [|eauto].
    destruct (negb (pr_success result) && (rof <=? 0)%Z); [eauto|].
    destruct (notify_action_complete env self result s1) as [[[]|e] s2]; [|eauto].
    apply IH.
Qed.

Lemma execute_body_returns recording report st :
  exists body exc st', execute_body env self recording report st = (Ok (body, exc), st').
Proof.
  unfold execute_body. playback_unfold.
  destruct (open_start_url env recording st) as [[[]|e] s1]; [|eauto].
  destruct (run_actions_returns (rec_retry_on_failure recording) (rec_actions recording)
              0 report s1) as (report' & exc & s2 & ->).
  destruct exc as [e|]; [eauto|].
  destruct (bool_decide (rp_status report' = RUNNING)); eauto.
Qed.

Lemma status_callback_returns status st :
  (forall n s, raises (env n (COnStatusChange s)) = None) ->
  exists st', _set_status env self status st = (Ok tt, st').
Proof.
  intros Hcb. unfold _set_status. playback_unfold.
  destruct (on_status_change self); playback_unfold; [|eauto].
  match goal with |- context [call env ?c ?s] =>
    destruct (call_returns c s) as (r & s' & ->); [by apply Hcb|eauto] end.
Qed.

Lemma execute_returns recording speed verify st :
  (forall n s, raises (env n (COnStatusChange s)) = None) ->
  exists report st', execute env self recording speed verify st = (Ok report, st').
Proof.
  intros Hcb. unfold execute, time. playback_unfold.
  cbn [clock set_current_recording set_playback_options set_current_action_index
         set_step_screenshots].
  match goal with |- context [_set_status env self RUNNING ?s] =>
    destruct (status_callback_returns RUNNING s Hcb) as (s1 & ->) end.
  match goal with |- context [execute_body env self recording ?r s1] =>
    destruct (execute_body_returns recording r s1) as (body & exc & s2 & ->) end.
  match goal with |- context [_set_status env self ?x s2] =>
    destruct (status_callback_returns x s2 Hcb) as (s3 & ->) end.
  eauto.
Qed.

(** C1: on a recording of five actions, [execute] returns a report whenever
    the status callback returns, and (a) with [retry_on_failure <= 0], if the
    second action fails after its retries the report has status [FAILED],
    [completed_actions = 1] and two results only, none for actions 3 to 5;
    (b) with [retry_on_failure = 3], in a run nobody aborts and in which
    nothing but the actions fails, all five actions are attempted and the
    status is [COMPLETED] however many of them failed, the failures showing
    in [failed_actions] only. *)
Theorem abort_on_failure_gate recording speed verify st :
  length (rec_actions recording) = 5%nat ->
  ((forall n s, raises (env n (COnStatusChange s)) = None) ->
   exists report st', execute env self recording speed verify st = (Ok report, st'))
  /\ ((rec_retry_on_failure recording <= 0)%Z ->
      forall report st',
        execute env self recording speed verify st = (Ok report, st') ->
        (exists r, rp_results report !! 1%nat = Some r /\ pr_success r = false) ->
        rp_status report = FAILED
        /\ rp_completed_actions report = 1%Z
        /\ length (rp_results report) = 2%nat)
  /\ (rec_retry_on_failure recording = 3%Z ->
      normal_run env self recording ->
      exists report st',
        execute env self recording speed verify st = (Ok report, st')
        /\ length (rp_results report) = 5%nat
        /\ rp_status report = COMPLETED
        /\ rp_completed_actions report = successes (rp_results report)
        /\ rp_failed_actions report = failures (rp_results report)).
Proof.
  intros Hlen. split; [apply execute_returns|]. split.
  - intros Hrof report st' He (r & Hr & Hs).
    apply execute_inv in He as (s1 & body & exc & s2 & t & Hb & ->).
    apply (execute_body_gate recording (clock st)) in Hb as (new & Hres & Hcomp & Hfail);
      [|exact Hrof].
    assert (Hr' : new !! 1%nat = Some r).
    { rewrite <- Hres. destruct exc; exact Hr. }
    destruct (Hfail 1%nat r Hr' Hs) as (Hl & Hf & ->).
    simpl. rewrite Hres, Hcomp. split; [exact Hf|]. split; [|lia].
    destruct new as [|r0 [|r1 [|? ?]]]; simpl in Hl; try lia.
    simpl in Hr'. injection Hr' as ->.
    destruct (pr_success r0) eqn:E0.
    + unfold successes. simpl. rewrite E0, Hs. reflexivity.
    + destruct (Hfail 0%nat r0 eq_refl E0) as (Hl0 & _). simpl in Hl0. lia.
  - intros Hrof Hn. unfold execute, time. playback_unfold.
    cbn [clock set_current_recording set_playback_options set_current_action_index
           set_step_screenshots].
    match goal with |- context [_set_status env self RUNNING ?s] =>
      destruct (set_status_returns recording RUNNING s Hn) as (s1 & ->) end.
    destruct (execute_body_open recording (clock st) s1) as (body & s2 & -> & Hl & Hst & Hc & Hf);
      [lia|exact Hn|].
    match goal with |- context [_set_status env self ?x s2] =>
      destruct (set_status_returns recording x s2 Hn) as (s3 & ->) end.
    eexists _, _. split; [reflexivity|]. simpl. rewrite Hl, Hlen. done.
Qed.

End Execute.

Lemma abort_on_failure_gate_witness :
  (exists report st',
     execute Examples.env_without_f24 Examples.engine (Examples.five_keys 0) 1.0 false
       (PlaybackEngine_state 0) = (Ok report, st')
     /\ rp_status report = FAILED
     /\ rp_completed_actions report = 1%Z
     /\ length (rp_results report) = 2%nat)
  /\ (exists report st',
        execute Examples.env_without_f24 Examples.engine (Examples.five_keys 3) 1.0 false
          (PlaybackEngine_state 0) = (Ok report, st')
        /\ length (rp_results report) = 5%nat
        /\ rp_status report = COMPLETED).
Proof.
  split.
  - destruct (abort_on_failure_gate Examples.env_without_f24 Examples.engine
                (Examples.five_keys 0) 1.0 false (PlaybackEngine_state 0) eq_refl)
      as (Ht & Ha & _).
    destruct Ht as (report & st' & He); [intros n s; reflexivity|].
    exists report, st'. split; [exact He|].
    apply (Ha ltac:(simpl; lia) report st' He).
    revert He. vm_compute. intros [= <- _]. eexists. split; reflexivity.
  - destruct (abort_on_failure_gate Examples.env_without_f24 Examples.engine
                (Examples.five_keys 3) 1.0 false (PlaybackEngine_state 0) eq_refl)
      as (_ & _ & Hb).
    destruct (Hb eq_refl) as (report & st' & He & Hl & Hs & _).
    + split; [intros n; reflexivity|].
      split; [intros n c Hc; destruct c; try discriminate Hc; reflexivity|].
      split; [discriminate|reflexivity].
    + exists report, st'. split; [exact He|]. split; [exact Hl|exact Hs].
Defined.

End PlaybackFacts.

(** ** Deserialisation *)

Module SerialFacts.
Import Serial.

Lemma keep_fields_lookup (K : gset string) (d : gmap string value) k :
  keep_fields K d !! k = if decide (k ∈ K) then d !! k else None.
Proof.
  unfold keep_fields. rewrite map_lookup_filter.
  destruct (d !! k) as [v|]; simpl; [|by case_decide].
  case_decide; simpl.
  - rewrite option_guard_True; done.
  - rewrite option_guard_False; done.
Qed.


Lemma sr_known : "screen_region" ∈ field_names RecordedAction_fields.
Proof. unfold field_names. simpl. set_solver. Qed.
Lemma at_known : "action_type" ∈ field_names RecordedAction_fields.
Proof. unfold field_names. simpl. set_solver. Qed.

Lemma action_unknown_keys_dropped (d : gmap string value) :
  RecordedAction_from_dict (VDict d)
  = RecordedAction_from_dict (VDict (keep_fields (field_names RecordedAction_fields) d)).
Proof.
  unfold RecordedAction_from_dict.
  set (K := field_names RecordedAction_fields).
  rewrite (keep_fields_lookup K d "screen_region"), decide_True by apply sr_known.
  destruct (match d !! "screen_region" with Some v => ScreenRegion_call v | None => Some VNone end)
    as [sr|]; [simpl|done].
  rewrite !lookup_delete_ne by done.
  rewrite (keep_fields_lookup K d "action_type"), decide_True by apply at_known.
  destruct (d !! "action_type") as [tag|]; [simpl|done].
  destruct (ActionType_call tag) as [t|]; [simpl|done].
  f_equal. f_equal. apply map_eq. intros k.
  rewrite !keep_fields_lookup. case_decide as Hk; [|done].
  destruct (decide (k = "action_type")) as [->|Hne].
  - by rewrite !lookup_insert_eq.
  - rewrite !lookup_insert_ne by done.
    assert (k ≠ "screen_region") by set_solver.
    rewrite !lookup_delete_ne by done.
    rewrite keep_fields_lookup, decide_True; [done|]. set_solver.
Qed.


Lemma strip_action_from_dict (a : value) :
  RecordedAction_from_dict (strip_action a) = RecordedAction_from_dict a.
Proof.
  destruct a; try reflexivity. simpl. symmetry. apply action_unknown_keys_dropped.
Qed.

Lemma mapM_strip (l : list value) :
  mapM RecordedAction_from_dict (strip_action <$> l) = mapM RecordedAction_from_dict l.
Proof.
  induction l as [|a l IH]; [reflexivity|].
  cbn. rewrite strip_action_from_dict, IH. reflexivity.
Qed.

Lemma lookup_setdefault k' v (m : gmap string value) k :
  setdefault k' v m !! k
  = match m !! k with
    | Some x => Some x
    | None => if decide (k = k') then Some v else None
    end.
Proof.
  unfold setdefault. destruct (m !! k') as [x|] eqn:E.
  - destruct (m !! k) eqn:E'; [done|]. case_decide; [congruence|done].
  - destruct (decide (k = k')) as [->|Hne].
    + by rewrite lookup_insert_eq, E.
    + rewrite lookup_insert_ne by done. by destruct (m !! k).
Qed.

Section WithDatetime.
Variable fromisoformat : string -> option Z.

Lemma strip_recording_lookup (d : gmap string value) k :
  k ∈ field_names Recording_fields -> k ≠ "actions" ->
  strip_recording d !! k = d !! k.
Proof.
  intros Hk Hne. unfold strip_recording.
  assert (H : keep_fields (field_names Recording_fields) d !! k = d !! k)
    by (rewrite keep_fields_lookup, decide_True; done).
  destruct (keep_fields _ d !! "actions") as [[]|]; try exact H.
  rewrite lookup_insert_ne by done. exact H.
Qed.

Lemma strip_recording_actions (d : gmap string value) :
  strip_recording d !! "actions" ≫= actions_from = d !! "actions" ≫= actions_from.
Proof.
  unfold strip_recording. rewrite keep_fields_lookup, decide_True
    by (unfold field_names; simpl; set_solver).
  destruct (d !! "actions") as [v|] eqn:E.
  - destruct v; try (rewrite keep_fields_lookup, decide_True, E
      by (unfold field_names; simpl; set_solver); reflexivity).
    rewrite lookup_insert_eq. simpl. rewrite mapM_strip. reflexivity.
  - rewrite keep_fields_lookup, decide_True, E
      by (unfold field_names; simpl; set_solver). reflexivity.
Qed.

Lemma recording_unknown_keys_dropped (d : gmap string value) :
  Recording_from_dict fromisoformat (VDict d)
  = Recording_from_dict fromisoformat (VDict (strip_recording d)).
Proof.
  unfold Recording_from_dict.
  rewrite (strip_recording_lookup d "created_at")
    by (try done; unfold field_names; simpl; set_solver).
  destruct (d !! "created_at" ≫= fromisoformat_call fromisoformat) as [created|];
    [simpl|done].
  rewrite !lookup_insert_ne by done.
  rewrite (strip_recording_lookup d "updated_at")
    by (try done; unfold field_names; simpl; set_solver).
  destruct (d !! "updated_at" ≫= fromisoformat_call fromisoformat) as [updated|];
    [simpl|done].
  rewrite !lookup_insert_ne by done.
  rewrite strip_recording_actions.
  destruct (d !! "actions" ≫= actions_from) as [actions|]; [simpl|done].
  f_equal. apply map_eq. intros k.
  rewrite !keep_fields_lookup. case_decide as Hk; [|done].
  rewrite !lookup_setdefault.
  destruct (decide (k = "actions")) as [->|Ha]; [by rewrite !lookup_insert_eq|].
  rewrite !(lookup_insert_ne _ "actions") by done.
  destruct (decide (k = "updated_at")) as [->|Hu]; [by rewrite !lookup_insert_eq|].
  rewrite !(lookup_insert_ne _ "updated_at") by done.
  destruct (decide (k = "created_at")) as [->|Hc]; [by rewrite !lookup_insert_eq|].
  rewrite !(lookup_insert_ne _ "created_at") by done.
  rewrite strip_recording_lookup by done. reflexivity.
Qed.


End WithDatetime.

Example click_with_unknown_key :
  ("confidence" ∉ field_names RecordedAction_fields)
  /\ is_Some (RecordedAction_from_dict (VDict Examples.click_dict_v2))
  /\ RecordedAction_from_dict (VDict Examples.click_dict_v2)
     = RecordedAction_from_dict (VDict Examples.click_dict).
Proof.
  split; [vm_compute; intros H; discriminate H|].
  split; [vm_compute; eauto|].
  vm_compute. reflexivity.
Qed.

End SerialFacts.

(** ** The credential manager *)

Module CredentialsFacts.
Import Credentials.

Lemma from_dict_to_dict c : from_dict (to_dict c) = Some c.
Proof. destruct c. reflexivity. Qed.

Lemma str_length_app (a b : string) :
  String.length (a +:+ b) = (String.length a + String.length b)%nat.
Proof.
  induction a as [|c a IH]; [reflexivity|].
  change (S (String.length (a +:+ b)) = S (String.length a + String.length b)).
  by rewrite IH.
Qed.

Lemma str_take_app (a b : string) : Py.str_take (String.length a) (a +:+ b) = a.
Proof.
  induction a as [|c a IH]; [by destruct b|].
  change (String c (Py.str_take (String.length a) (a +:+ b)) = String c a).
  by rewrite IH.
Qed.

Lemma str_drop_app (a b : string) : str_drop (String.length a) (a +:+ b) = b.
Proof. induction a as [|c a IH]; [by destruct b|exact IH]. Qed.

Lemma truthy_length (s : string) : (0 < String.length s)%nat -> Py.truthy_str (Some s) = true.
Proof. destruct s; simpl; [lia|done]. Qed.

Section WithCrypto.
Context {Key : Type}.
Variable pbkdf2 : string -> string -> Key.
Variable fernet_encrypt : Key -> string -> string -> string.
Variable fernet_decrypt : Key -> string -> option string.
Variable dumps_store : gmap string CredDict -> string.
Variable loads_store : string -> option (gmap string CredDict).
Variable dumps_cred : CredDict -> string.
Variable loads_cred : string -> option CredDict.

(** What the libraries guarantee. *)
Hypothesis decrypt_encrypt : forall k n m, fernet_decrypt k (fernet_encrypt k n m) = Some m.
Hypothesis decrypt_wrong_key :
  forall k k' n m, k <> k' -> fernet_decrypt k' (fernet_encrypt k n m) = None.
Hypothesis token_not_empty : forall k n m, fernet_encrypt k n m <> "".
Hypothesis pbkdf2_inj : forall p p' s, pbkdf2 p s = pbkdf2 p' s -> p = p'.
Hypothesis loads_dumps_store : forall d, loads_store (dumps_store d) = Some d.
Hypothesis loads_dumps_cred : forall d, loads_cred (dumps_cred d) = Some d.
Hypothesis dumps_cred_not_empty : forall d, dumps_cred d <> "".

Abbreviation Manager := (@CredentialManager Key).
Abbreviation get_credential := (get_credential fernet_decrypt loads_store loads_cred).
Abbreviation store_credential :=
  (store_credential fernet_encrypt fernet_decrypt dumps_store loads_store dumps_cred).
Abbreviation load_file := (_load_credentials_file fernet_decrypt loads_store).
Abbreviation lookup := (lookup fernet_decrypt loads_store loads_cred).

Lemma truthy_dumps d : Py.truthy_str (Some (dumps_cred d)) = true.
Proof.
  destruct (dumps_cred d) eqn:E; [by apply dumps_cred_not_empty in E|done].
Qed.

(** [get_credential] reads only. *)
Lemma get_credential_state name (self : Manager) : snd (get_credential name self) = self.
Proof.
  unfold Credentials.get_credential, keyring_get_password. monad_unfold.
  destruct (_use_keyring self); [destruct (keyring_broken self)|]; simpl.
  - destruct (load_file self !! name) as [d|]; [destruct (from_dict d)|]; done.
  - destruct (Py.truthy_str (keyring self !! name)).
    + match goal with |- context [match ?x with Some _ => _ | None => _ end] => destruct x end; done.
    + destruct (load_file self !! name) as [d|]; [destruct (from_dict d)|]; done.
  - destruct (load_file self !! name) as [d|]; [destruct (from_dict d)|]; done.
Qed.

Lemma store_credential_spec c nonce (self : Manager) :
  can_store self ->
  exists self',
    store_credential c nonce self = (Ok true, self')
    /\ can_store self'
    /\ forall n, lookup n self' = if decide (n = c_name c) then Ok (Some c) else lookup n self.
Proof.
  intros Hcan.
  assert (Hfile : forall e, _encryption self = Some e ->
    (_use_keyring self = false \/ keyring_broken self = true) ->
    let self' := set_credentials_file
      (Some (encrypt_dict fernet_encrypt dumps_store e nonce
               (<[c_name c := to_dict c]> (load_file self)))) self in
    forall n, lookup n self' = if decide (n = c_name c) then Ok (Some c) else lookup n self).
  { intros e He Hk self' n. unfold Credentials.lookup, Credentials.get_credential, keyring_get_password.
    monad_unfold.
    assert (Hl : load_file self' = <[c_name c := to_dict c]> (load_file self)).
    { unfold Credentials._load_credentials_file at 1. simpl. rewrite He.
      unfold decrypt_dict, encrypt_dict. rewrite decrypt_encrypt. simpl.
      rewrite loads_dumps_store. reflexivity. }
    rewrite Hl. subst self'. simpl.
    destruct (_use_keyring self) eqn:Hu; simpl.
    - destruct Hk as [Hk|Hk]; [congruence|]. rewrite Hk. simpl.
      case_decide as Hn.
      + subst n. rewrite lookup_insert_eq, from_dict_to_dict. done.
      + rewrite lookup_insert_ne by done.
        destruct (load_file self !! n) as [d|]; [destruct (from_dict d)|]; done.
    - case_decide as Hn.
      + subst n. rewrite lookup_insert_eq, from_dict_to_dict. done.
      + rewrite lookup_insert_ne by done.
        destruct (load_file self !! n) as [d|]; [destruct (from_dict d)|]; done. }
  unfold Credentials.store_credential, keyring_set_password, _store_in_file.
  monad_unfold.
  destruct (_use_keyring self) eqn:Hu; [destruct (keyring_broken self) eqn:Hb|]; simpl.
  - destruct Hcan as [[_ ?]|[e He]]; [congruence|]. rewrite He. simpl.
    eexists. split; [reflexivity|]. split; [right; simpl; rewrite He; eauto|].
    apply Hfile; auto.
  - eexists. split; [reflexivity|]. split; [left; simpl; auto|].
    intros n. unfold Credentials.lookup, Credentials.get_credential, keyring_get_password.
    monad_unfold. simpl. rewrite Hu, Hb. simpl.
    case_decide as Hn.
    + subst n. rewrite lookup_insert_eq.
      rewrite ?Hb. cbv beta iota. rewrite truthy_dumps. cbv beta iota.
      change (default "" (Some (dumps_cred (to_dict c)))) with (dumps_cred (to_dict c)).
      rewrite loads_dumps_cred. simpl.
      rewrite from_dict_to_dict. done.
    + rewrite lookup_insert_ne by done. rewrite ?Hb. simpl.
      destruct (Py.truthy_str (keyring self !! n)).
      * match goal with |- context [match ?x with Some _ => _ | None => _ end] => destruct x end; done.
      * change (Credentials._load_credentials_file fernet_decrypt loads_store
                  (set_keyring _ self)) with (load_file self).
        destruct (load_file self !! n) as [d|]; [destruct (from_dict d)|]; done.
  - destruct Hcan as [[? _]|[e He]]; [congruence|]. rewrite He. simpl.
    eexists. split; [reflexivity|]. split; [right; simpl; rewrite He; eauto|].
    apply Hfile; auto.
Qed.


Abbreviation import_items :=
  (import_items fernet_encrypt fernet_decrypt dumps_store loads_store dumps_cred).
Abbreviation import_credentials :=
  (import_credentials pbkdf2 fernet_encrypt fernet_decrypt dumps_store loads_store
     dumps_cred).
Abbreviation export_credentials :=
  (export_credentials pbkdf2 fernet_encrypt fernet_decrypt dumps_store loads_store).

Lemma import_items_spec items nonces :
  NoDup items.*1 -> well_formed items ->
  forall count (self : Manager), can_store self ->
  exists self',
    import_items items nonces count self = (Ok (count + length items)%nat, self')
    /\ can_store self'
    /\ forall n, lookup n self' =
         match (list_to_map items : gmap string CredDict) !! n with
         | Some d => Ok (from_dict d)
         | None => lookup n self
         end.
Proof.
  induction items as [|[name d] rest IH]; intros Hnd Hwf count self Hcan.
  - exists self. simpl. monad_unfold. rewrite Nat.add_0_r. repeat split; try done.
  - apply list.NoDup_cons in Hnd as [Hnotin Hnd]. apply list.Forall_cons in Hwf as [(c & -> & Hc) Hwf].
    cbn [Credentials.import_items]. rewrite from_dict_to_dict. monad_unfold.
    destruct (store_credential_spec c (nonces count) self Hcan) as (s1 & -> & Hcan1 & Hl1).
    destruct (IH Hnd Hwf (S count) s1 Hcan1) as (s2 & -> & Hcan2 & Hl2).
    exists s2. split; [f_equal; f_equal; simpl; lia|]. split; [exact Hcan2|].
    intros n. rewrite Hl2. cbn [list_to_map foldr]. simpl fst. simpl snd.
    destruct (decide (n = name)) as [->|Hne].
    + rewrite lookup_insert_eq.
      rewrite (not_elem_of_list_to_map_1 (M:=gmap string)) by exact Hnotin.
      rewrite Hl1, Hc, decide_True by done. by rewrite from_dict_to_dict.
    + rewrite lookup_insert_ne by done.
      destruct (list_to_map rest !! n); [done|].
      rewrite Hl1, Hc, decide_False by done. done.
Qed.

Lemma export_layout pw salt nonce (src : Manager) :
  String.length salt = 16%nat ->
  let data := export_credentials pw salt nonce src in
  (String.length data <? 17)%nat = false
  /\ Py.str_take 16 data = salt
  /\ str_drop 16 data
     = fernet_encrypt (pbkdf2 pw salt) nonce (dumps_store (load_file src)).
Proof.
  intros Hs. unfold Credentials.export_credentials, EncryptionManager_new, encrypt_dict.
  cbn [Py.truthy_str Credentials.salt Credentials._fernet]. split.
  - apply Nat.ltb_ge. rewrite str_length_app, Hs.
    pose proof (token_not_empty (pbkdf2 pw salt) nonce (dumps_store (load_file src))) as Hne.
    destruct (fernet_encrypt _ _ _); [done|simpl; lia].
  - rewrite <- Hs. split; [apply str_take_app|apply str_drop_app].
Qed.


End WithCrypto.

(** *** The laws on the model of the libraries *)

Lemma unbits_bits p : Examples.unbits (Examples.bits p) = Some p.
Proof.
  induction p as [p IH|p IH|]; [| |reflexivity].
  - change (Examples.bits p~1) with (String "1" (Examples.bits p)).
    destruct (Examples.bits p) eqn:E; [by destruct p|].
    cbn [Examples.unbits]. rewrite bool_decide_eq_false_2 by done.
    rewrite bool_decide_eq_true_2 by done. cbn [Examples.unbits] in IH. by rewrite IH.
  - change (Examples.bits p~0) with (String "0" (Examples.bits p)).
    destruct (Examples.bits p) eqn:E; [by destruct p|].
    cbn [Examples.unbits]. rewrite bool_decide_eq_true_2 by done.
    cbn [Examples.unbits] in IH. by rewrite IH.
Qed.

Lemma unpack_pack `{Countable A} (a : A) : Examples.unpack (Examples.pack a) = Some a.
Proof.
  unfold Examples.unpack, Examples.pack. rewrite unbits_bits. simpl. apply decode_encode.
Qed.

Lemma bits_not_empty p : Examples.bits p <> "".
Proof. by destruct p. Qed.

Lemma model_decrypt_encrypt k n m :
  Examples.fernet_decrypt k (Examples.fernet_encrypt k n m) = Some m.
Proof.
  unfold Examples.fernet_decrypt, Examples.fernet_encrypt. rewrite unpack_pack. simpl.
  by rewrite bool_decide_eq_true_2.
Qed.

Lemma model_decrypt_wrong_key k k' n m :
  k <> k' -> Examples.fernet_decrypt k' (Examples.fernet_encrypt k n m) = None.
Proof.
  intros Hk. unfold Examples.fernet_decrypt, Examples.fernet_encrypt.
  rewrite unpack_pack. simpl. by rewrite bool_decide_eq_false_2.
Qed.



End CredentialsFacts.

(** ** The recorder *)

Module RecorderFacts.
Import Recorder.

Lemma emits_refl self : emits 0 self self.
Proof.
  unfold emits. rewrite Nat.add_0_r. repeat split.
  destruct (_ && _); simpl; by rewrite app_nil_r.
Qed.

Lemma advances_refl self : advances self self.
Proof. exists 0%nat. apply emits_refl. Qed.

Lemma advances_trans a b c : advances a b -> advances b c -> advances a c.
Proof.
  intros (k1 & Hr1 & Hp1 & Hc1 & Hi1) (k2 & Hr2 & Hp2 & Hc2 & Hi2).
  exists (k1 + k2)%nat. unfold emits.
  rewrite Hr2, Hr1, Hp2, Hp1, Hc2, Hc1, Hi2, Hi1, Hr1, Hp1, Hc1.
  repeat split; [lia|].
  rewrite <- app_assoc. f_equal.
  destruct (_ && _); [|reflexivity].
  rewrite <- map_app. f_equal.
  replace (S (_action_counter a + k1)) with (S (_action_counter a) + k1)%nat by lia.
  symmetry. apply seq_app.
Qed.

Lemma same_core_advances self self' : same_core self self' -> advances self self'.
Proof.
  intros (Hr & Hp & Hc & Ha). exists 0%nat. unfold emits.
  rewrite Hr, Hp, Hc, Ha, Nat.add_0_r. repeat split.
  destruct (_ && _); simpl; by rewrite app_nil_r.
Qed.

(** The pattern of every handler: an identifier, a delay, an action that
    carries the identifier. *)
Lemma advances_emit self self' now (mk : string -> Q -> RecordedAction) :
  (forall i d, ra_id (mk i d) = i) ->
  same_core self self' ->
  advances self
    (let '(id, s) := _generate_action_id self' in
     let '(delay, s) := _get_delay now s in
     _record_action (mk id delay) s).
Proof.
  intros Hid (Hr & Hp & Hc & Ha). exists 1%nat.
  unfold emits, _generate_action_id, _get_delay, _record_action. simpl.
  rewrite Hr, Hp.
  destruct (_recording self), (_paused self); simpl;
    try (rewrite ?Hr, ?Hp, ?Hc, ?Ha, ?app_nil_r; repeat split; lia).
  destruct (on_action self'); simpl; rewrite ?Hr, ?Hp, ?Hc, ?Ha;
    (repeat split; [lia|]); rewrite map_app; simpl; by rewrite Hid.
Qed.

(** Unfolds a handler down to the attribute updates and settles the four
    components of [emits] by cases on the flags. *)
Ltac crush_emits k :=
  exists k; unfold emits, _generate_action_id, _get_delay, _record_action; simpl;
  repeat match goal with
         | |- context [_recording ?s] => is_var s; destruct (_recording s) eqn:?
         | |- context [_paused ?s] => is_var s; destruct (_paused s) eqn:?
         | |- context [on_action ?s] => is_var s; destruct (on_action s) eqn:?
         end; simpl;
  rewrite ?app_nil_r, ?map_app; simpl; repeat split; try done; try lia;
  try (repeat f_equal; lia).

Lemma flush_text_advances now self : advances self (_flush_text_buffer now self).
Proof.
  unfold _flush_text_buffer. case_bool_decide; [apply advances_refl|].
  destruct (_sensitive_mode self); [destruct (_current_credential self) as [[cn cf]|]|];
    crush_emits 1%nat.
Qed.

Lemma flush_scroll_advances now self : advances self (_flush_scroll_buffer now self).
Proof.
  unfold _flush_scroll_buffer. destruct (_scroll_start_time self); [|apply advances_refl].
  eapply advances_trans; [apply (flush_text_advances now)|].
  generalize (_flush_text_buffer now self). intros s. crush_emits 1%nat.
Qed.


Lemma mark_sensitive_advances now n f self :
  advances self (mark_sensitive_input now n f self).
Proof.
  unfold mark_sensitive_input.
  eapply advances_trans; [apply (flush_text_advances now)|].
  apply same_core_advances. repeat split.
Qed.

Lemma end_sensitive_advances now self : advances self (end_sensitive_input now self).
Proof.
  unfold end_sensitive_input.
  eapply advances_trans; [apply (flush_text_advances now)|].
  apply same_core_advances. repeat split.
Qed.

Lemma add_screenshot_advances now fp self :
  advances self (add_screenshot_action now fp self).
Proof.
  unfold add_screenshot_action. destruct fp; [crush_emits 1%nat|apply advances_refl].
Qed.

Lemma add_url_advances now url self : advances self (add_url_action now url self).
Proof. unfold add_url_action. crush_emits 1%nat. Qed.

Lemma add_wait_advances str_float now seconds self :
  advances self (add_wait_action str_float now seconds self).
Proof. unfold add_wait_action. crush_emits 1%nat. Qed.

Lemma mouse_click_advances now x y b pressed capture title self :
  advances self (_on_mouse_click now x y b pressed capture title self).
Proof.
  unfold _on_mouse_click.
  destruct pressed; [|apply advances_refl]. simpl.
  destruct (in_exclude_rect _ x y); [apply advances_refl|].
  assert (Hcore : _capture_screenshots (_flush_text_buffer now self)
                  = _capture_screenshots self).
  { unfold _flush_text_buffer. case_bool_decide; [done|].
    destruct (_sensitive_mode self); [destruct (_current_credential self) as [[]|]|];
      unfold _generate_action_id, _get_delay, _record_action; simpl;
      destruct (negb _ || _); simpl; try done; destruct (on_action self); done. }
  eapply advances_trans; [apply (flush_text_advances now)|].
  revert Hcore. generalize (_flush_text_buffer now self). intros s _.
  destruct (_capture_screenshots s) as [[]|]; simpl;
    [destruct capture; simpl| |]; try apply advances_refl; crush_emits 1%nat.
Qed.

Lemma mouse_scroll_advances now x y dx dy self :
  advances self (_on_mouse_scroll now x y dx dy self).
Proof.
  unfold _on_mouse_scroll. destruct (negb _ || _); [apply advances_refl|].
  apply same_core_advances.
  destruct (_scroll_timer self); simpl; destruct (_scroll_start_time self); repeat split.
Qed.

Lemma special_key_advances now name self : advances self (on_special_key now name self).
Proof.
  unfold on_special_key. case_bool_decide.
  - eapply advances_trans; [apply (flush_text_advances now)|].
    generalize (_flush_text_buffer now self). intros s. crush_emits 1%nat.
  - case_bool_decide.
    + case_bool_decide; [crush_emits 1%nat|]. apply same_core_advances. repeat split.
    + case_bool_decide; [|apply advances_refl].
      apply same_core_advances. destruct (_text_buffer_start_time self); repeat split.
Qed.

Lemma key_press_advances now key self : advances self (_on_key_press now key self).
Proof.
  unfold _on_key_press. destruct key as [[[|c rest]|] k|name];
    try apply special_key_advances.
  apply same_core_advances. destruct (_text_buffer_start_time self); repeat split.
Qed.

Lemma fire_timers_advances now self : advances self (fire_timers now self).
Proof.
  unfold fire_timers. destruct (_scroll_timer self) as [t|]; [|apply advances_refl].
  destruct (_ && _); [|apply advances_refl].
  eapply advances_trans; [|apply flush_scroll_advances].
  apply same_core_advances. repeat split.
Qed.

(** *** Strictly increasing identifiers *)

Lemma sorted_app_seq l c hi k :
  StronglySorted lt l -> Forall (fun n => (c < n <= hi)%nat) l -> (c <= hi)%nat ->
  StronglySorted lt (l ++ seq (S hi) k)
  /\ Forall (fun n => (c < n <= hi + k)%nat) (l ++ seq (S hi) k).
Proof.
  intros Hs Hf Hc. split.
  - induction Hs as [|a l Hs IH Ha]; simpl.
    + clear. generalize (S hi). induction k; intros s; simpl; constructor; [apply IHk|].
      apply Forall_forall. intros x Hx%in_seq. lia.
    + apply list.Forall_cons in Hf as [Ha' Hf]. constructor; [by apply IH|].
      apply Forall_app. split; [exact Ha|].
      apply Forall_forall. intros x Hx%in_seq. lia.
  - apply Forall_app. split.
    + revert Hf. apply List.Forall_impl. intros; lia.
    + apply Forall_forall. intros x Hx%in_seq. lia.
Qed.

Lemma increasing_advances c self self' :
  advances self self' -> increasing_from c self -> increasing_from c self'.
Proof.
  intros (k & Hr & Hp & Hc & Hi) (Hrec & l & Hl & Hs & Hf & Hle).
  split; [congruence|]. rewrite Hi, Hc, Hrec, Hl. simpl.
  destruct (_paused self); simpl.
  - exists l. rewrite app_nil_r. repeat split; try done; [|lia].
    revert Hf. apply List.Forall_impl. intros; lia.
  - exists (l ++ seq (S (_action_counter self)) k)%list.
    rewrite map_app. split; [done|].
    destruct (sorted_app_seq l c (_action_counter self) k Hs Hf Hle). repeat split; try done; lia.
Qed.


(** *** Gapless identifiers *)

Lemma gapless_advances c self self' :
  advances self self' -> gapless_from c self -> gapless_from c self'.
Proof.
  intros (k & Hr & Hp & Hc & Hi) (Hrec & Hpau & Hle & Hl).
  repeat split; try congruence; [lia|].
  rewrite Hi, Hc, Hrec, Hpau, Hl. simpl. rewrite <- map_app. f_equal.
  replace (_action_counter self + k - c)%nat with ((_action_counter self - c) + k)%nat by lia.
  rewrite seq_app. do 2 f_equal. lia.
Qed.

Section Sessions.
Variable str_float : Q -> string.

Lemma handler_advances now ev self :
  match ev with
  | EvStart _ | EvPause | EvResume | EvStop => True
  | _ => advances self (step str_float now ev self)
  end.
Proof.
  destruct ev; try exact I; unfold step;
    (eapply advances_trans; [apply (fire_timers_advances now)|]).
  - apply mark_sensitive_advances.
  - apply end_sensitive_advances.
  - apply add_screenshot_advances.
  - apply add_wait_advances.
  - apply add_url_advances.
  - apply same_core_advances. repeat split.
  - apply mouse_click_advances.
  - apply mouse_scroll_advances.
  - apply key_press_advances.
  - apply advances_refl.
  - apply advances_refl.
Qed.

Lemma step_increasing c now ev self :
  ends_session ev = false ->
  increasing_from c self -> increasing_from c (step str_float now ev self).
Proof.
  intros Hev Hinv.
  pose proof (handler_advances now ev self) as Hh.
  destruct ev; try discriminate; try (by eapply increasing_advances).
  - (* start_recording while recording *)
    unfold step.
    apply (increasing_advances c _ _ (fire_timers_advances now self)) in Hinv.
    unfold start_recording. destruct Hinv as (Hr & Hrest). rewrite Hr.
    split; [exact Hr|exact Hrest].
  - (* pause_recording *)
    unfold step, pause_recording.
    apply (increasing_advances c _ _ (fire_timers_advances now self)) in Hinv.
    eapply increasing_advances; [apply flush_text_advances|].
    destruct Hinv as (Hr & l & Hl). split; [exact Hr|]. exists l. exact Hl.
  - (* resume_recording *)
    unfold step, resume_recording.
    apply (increasing_advances c _ _ (fire_timers_advances now self)) in Hinv.
    destruct Hinv as (Hr & l & Hl). split; [exact Hr|]. exists l. exact Hl.
Qed.

Lemma step_gapless c now ev self :
  ends_session ev = false -> pauses ev = false ->
  gapless_from c self -> gapless_from c (step str_float now ev self).
Proof.
  intros Hev Hpa Hinv.
  pose proof (handler_advances now ev self) as Hh.
  destruct ev; try discriminate; try (by eapply gapless_advances).
  - unfold step.
    apply (gapless_advances c _ _ (fire_timers_advances now self)) in Hinv.
    unfold start_recording. destruct Hinv as (Hr & Hrest). rewrite Hr.
    split; [exact Hr|exact Hrest].
  - unfold step, resume_recording.
    apply (gapless_advances c _ _ (fire_timers_advances now self)) in Hinv.
    destruct Hinv as (Hr & Hp & Hle & Hl). split; [exact Hr|]. split; [reflexivity|].
    split; [exact Hle|exact Hl].
Qed.

Lemma run_increasing c evs :
  Forall (fun e => ends_session e.2 = false) evs ->
  forall self, increasing_from c self -> increasing_from c (run str_float evs self).
Proof.
  induction 1 as [|[now ev] evs Hev _ IH]; intros self Hinv; [exact Hinv|].
  simpl. apply IH. by apply step_increasing.
Qed.

Lemma run_gapless c evs :
  Forall (fun e => ends_session e.2 = false) evs ->
  Forall (fun e => pauses e.2 = false) evs ->
  forall self, gapless_from c self -> gapless_from c (run str_float evs self).
Proof.
  induction 1 as [|[now ev] evs Hev _ IH]; intros Hp self Hinv; [exact Hinv|].
  apply list.Forall_cons in Hp as [Hp1 Hp]. simpl. apply IH; [exact Hp|].
  by apply step_gapless.
Qed.

Lemma stop_advances now self :
  exists s, advances self s /\ fst (stop_recording now self) = _actions s.
Proof.
  unfold stop_recording. cbn [fst].
  set (s := _flush_scroll_buffer now _). exists s. split; [|reflexivity]. subst s.
  eapply advances_trans; [apply (flush_text_advances now)|].
  eapply advances_trans; [|apply flush_scroll_advances].
  apply same_core_advances. destruct (_scroll_timer _); repeat split.
Qed.

(** C5, as amended: in a session (from [start_recording] on a recorder that
    is not recording, to [stop_recording]) the identifiers of the recorded
    actions are strictly increasing values of the recorder's counter, which
    [start_recording] does not reset: if the counter is [c] when the session
    starts and the session is never paused, its [N] actions carry the
    identifiers of [c+1], ..., [c+N] without a gap; these are
    [action_00001], ..., for the first session of a new recorder, where
    [c = 0]. *)
Theorem session_ids (self : ActionRecorder) (now now' : Q) (capture : bool)
    (evs : list (Q * Event)) :
  _recording self = false ->
  Forall (fun e => ends_session e.2 = false) evs ->
  let c := _action_counter self in
  let actions :=
    fst (stop_recording now' (run str_float evs (start_recording now capture self))) in
  (exists l, map ra_id actions = map format_action_id l
             /\ StronglySorted lt l /\ Forall (fun n => (c < n)%nat) l)
  /\ (Forall (fun e => pauses e.2 = false) evs ->
      map ra_id actions = map format_action_id (seq (S c) (length actions)))
  /\ (Forall (fun e => pauses e.2 = false) evs -> c = 0%nat ->
      map ra_id actions = map format_action_id (seq 1 (length actions))).
Proof.
  intros Hrec Hev c actions. subst actions.
  set (s0 := start_recording now capture self).
  assert (Hs0 : _recording s0 = true /\ _paused s0 = false
                /\ _action_counter s0 = c /\ _actions s0 = []).
  { unfold s0, start_recording. rewrite Hrec. done. }
  destruct Hs0 as (Hr0 & Hp0 & Hc0 & Ha0).
  destruct (stop_advances now' (run str_float evs s0)) as (s & Hadv & Hacts).
  rewrite Hacts. clear Hacts.
  assert (Hg : Forall (fun e => pauses e.2 = false) evs ->
               map ra_id (_actions s)
               = map format_action_id (seq (S c) (length (_actions s)))).
  { intros Hp.
    assert (Hinv : gapless_from c s).
    { eapply gapless_advances; [exact Hadv|]. apply run_gapless; try done.
      repeat split; try done; [lia|]. rewrite Ha0, Hc0, Nat.sub_diag. done. }
    destruct Hinv as (_ & _ & Hle & Hids). rewrite Hids.
    assert (Hlen : length (_actions s) = (_action_counter s - c)%nat).
    { apply (f_equal length) in Hids. by rewrite !length_map, length_seq in Hids. }
    by rewrite Hlen. }
  split; [|split; [exact Hg|]].
  - assert (Hinv : increasing_from c s).
    { eapply increasing_advances; [exact Hadv|]. apply run_increasing; [done|].
      split; [done|]. exists []. rewrite Ha0, Hc0. repeat split; try done; constructor. }
    destruct Hinv as (_ & l & Hids & Hs & Hf & _). exists l.
    repeat split; try done. revert Hf. apply List.Forall_impl. intros; lia.
  - intros Hp Hz. rewrite (Hg Hp), Hz. done.
Qed.

End Sessions.

(** *** Sensitive input *)

Lemma flush_text_state now self :
  let s := _flush_text_buffer now self in
  _text_buffer s = "" /\ _recording s = _recording self /\ _paused s = _paused self.
Proof.
  unfold _flush_text_buffer. case_bool_decide as Hb; [done|].
  destruct (_sensitive_mode self); [destruct (_current_credential self) as [[]|]|];
    unfold _generate_action_id, _get_delay, _record_action; simpl;
    destruct (negb _ || _); simpl; try done; destruct (on_action self); done.
Qed.

Lemma type_text_state keys : Forall (fun k => k.2 <> "") keys ->
  forall self,
    let s := type_text keys self in
    _actions s = _actions self
    /\ _text_buffer s = foldl (fun t k => t +:+ k.2) (_text_buffer self) keys
    /\ _sensitive_mode s = _sensitive_mode self
    /\ _current_credential s = _current_credential self
    /\ _recording s = _recording self /\ _paused s = _paused self
    /\ on_action s = on_action self /\ _action_counter s = _action_counter self.
Proof.
  induction 1 as [|[now k] keys Hk _ IH]; intros self; [done|].
  simpl in Hk. cbn [type_text foldl]. cbn [fst snd].
  destruct k as [|c rest]; [done|].
  specialize (IH (_on_key_press now (KeyCode (Some (String c rest)) (String c rest)) self)).
  cbn zeta in IH. unfold type_text in IH.
  destruct IH as (-> & -> & -> & -> & -> & -> & -> & ->).
  unfold _on_key_press. destruct (_text_buffer_start_time self); done.
Qed.

Lemma append_not_empty (a b : string) : b <> "" -> a +:+ b <> "".
Proof. destruct a, b; done. Qed.

Lemma typed_not_empty keys t :
  keys <> [] -> Forall (fun k : Q * string => k.2 <> "") keys ->
  foldl (fun t k => t +:+ k.2) t keys <> "".
Proof.
  intros Hne Hf. revert t. induction Hf as [|k keys Hk Hf IH]; [done|]. intros t. simpl.
  destruct keys as [|k' keys']; [by apply append_not_empty|].
  apply IH. done.
Qed.





(** C5: the second session of a recorder continues the numbering of the
    first: its only action is [action_00002], not [action_00001]. *)
Lemma second_session_continues_numbering :
  let first := snd (stop_recording 2.0 (add_url_action 1.0 "https://a.example"
                      (start_recording 0.5 true (ActionRecorder_new false)))) in
  let second := fst (stop_recording 5.0 (add_url_action 4.0 "https://b.example"
                       (start_recording 3.0 true first))) in
  map ra_id second = ["action_00002"]
  /\ map ra_id second <> map format_action_id (seq 1 (length second)).
Proof. vm_compute. split; [reflexivity|discriminate]. Qed.

Lemma session_ids_witness :
  map ra_id
    (fst (stop_recording 12.0
            (run (fun _ => "2.0")
               [(10.0%Q, Examples.char_key "h"); (10.1%Q, EvKeyPress (SpecialKey "enter"));
                (10.5%Q, EvAddWait 2.0)]
               (start_recording 9.0 true (ActionRecorder_new false)))))
  = ["action_00001"; "action_00002"; "action_00003"].
Proof.
  destruct (session_ids (fun _ => "2.0") (ActionRecorder_new false) 9.0 12.0 true
              [(10.0%Q, Examples.char_key "h"); (10.1%Q, EvKeyPress (SpecialKey "enter"));
               (10.5%Q, EvAddWait 2.0)])
    as (_ & _ & H).
  - reflexivity.
  - repeat constructor.
  - rewrite H; [reflexivity|repeat constructor|reflexivity].
Defined.

(** C6: the keys of "hello" followed by 600 ms without any event leave the
    recorder with no action and with "hello" still in the buffer: nothing
    measures the 0.5 s of [_text_flush_delay]; the text is recorded, as one
    [KEY_TYPE] action, only when a later event flushes it (here the stop). *)
Theorem idle_text_is_not_flushed (str_float : Q -> string) :
  let st := run str_float Examples.hello_then_idle
              (start_recording 9.0 true (ActionRecorder_new false)) in
  _actions st = []
  /\ _text_buffer st = "hello"
  /\ Qeq_bool (_text_flush_delay st) 0.5 = true
  /\ map Examples.summary (fst (stop_recording 11.0 st))
     = [("action_00001", KEY_TYPE, Some "hello")].
Proof. vm_compute. done. Qed.

(** The scroll buffer, in contrast, is flushed by its timer after 0.3 s
    without a scroll event. *)
Example idle_scroll_is_flushed (str_float : Q -> string) :
  let st := run str_float Examples.scroll_then_idle
              (start_recording 9.0 true (ActionRecorder_new false)) in
  map (fun a => (ra_action_type a, ra_dy a)) (_actions st) = [(MOUSE_SCROLL, Some (-3)%Z)].
Proof. vm_compute. done. Qed.

End RecorderFacts.

(** ** The scheduler *)

Module SchedulerFacts.
Import Recorder Scheduler.

Lemma call_ok env c st :
  raises (reply env (length (trace st)) c) = None ->
  call env c st = (Ok (reply env (length (trace st)) c),
                   {| schedule := schedule st; trace := trace st ++ [c];
                      playback_trace := playback_trace st |}).
Proof. intros H. unfold call. by rewrite H. Qed.

Lemma send_notification_ok env self report st :
  exists st', send_notification env self report st = (Ok tt, st')
              /\ schedule st' = schedule st.
Proof.
  unfold send_notification, ask. monad_unfold.
  destruct (_notifier self), (s_email_recipients (schedule st)); simpl; eauto.
Qed.

Lemma load_and_play_schedule env self st :
  schedule (snd (load_and_play env self st)) = schedule st.
Proof.
  unfold load_and_play, call, engine_execute, run_engine, ask. monad_unfold. simpl.
  repeat match goal with
         | |- context [match raises ?r with _ => _ end] => destruct (raises r)
         | |- context [if r_bool ?r then _ else _] => destruct (r_bool r)
         | |- context [match r_recording ?r with _ => _ end] => destruct (r_recording r)
         | |- context [match Playback.execute ?a ?b ?c ?d ?e ?f with _ => _ end] =>
             destruct (Playback.execute a b c d e f) as [[?|?] ?]
         end; simpl; try reflexivity.
Qed.

Lemma record_outcome_ok env self report st :
  bookkeeping_succeeds env ->
  exists st',
    record_outcome env self report st = (Ok report, st')
    /\ counted_once (bool_decide (Playback.rp_status report = Playback.COMPLETED))
         (schedule st) (schedule st').
Proof.
  intros Hbk. unfold record_outcome, ask, update_schedule. monad_unfold. simpl.
  rewrite call_ok by (by apply Hbk). simpl.
  match goal with |- context [r_job ?r] => destruct (r_job r) end; simpl;
    (rewrite call_ok by (by apply Hbk)); simpl;
    match goal with |- context [send_notification env self ?r ?s'] =>
      destruct (send_notification_ok env self r s') as (s3 & -> & Hs3) end;
    destruct (on_run_complete self); monad_unfold;
    repeat (rewrite call_ok by (by apply Hbk); simpl);
    eexists; (split; [reflexivity|]); simpl; rewrite Hs3; simpl;
    destruct (bool_decide _); done.
Qed.

Lemma record_failure_ok env self e st :
  bookkeeping_succeeds env ->
  exists report st',
    record_failure env self e st = (Ok report, st')
    /\ Playback.rp_status report = Playback.FAILED
    /\ Playback.rp_error_message report = Some e
    /\ counted_once false (schedule st) (schedule st').
Proof.
  intros Hbk. unfold record_failure, ask, update_schedule. monad_unfold. simpl.
  rewrite call_ok by (by apply Hbk). simpl.
  match goal with |- context [send_notification env self ?r ?s'] =>
    destruct (send_notification_ok env self r s') as (s2 & -> & Hs2) end.
  eexists _, _. split; [reflexivity|]. rewrite Hs2. done.
Qed.

(** When the bookkeeping that follows a run succeeds, the run is counted
    once: as a success exactly when the playback completed, and as a failure
    when the recording could not be loaded or played. *)
Lemma run_accounting env self st :
  bookkeeping_succeeds env ->
  exists report st',
    _execute_schedule env self st = (Ok report, st')
    /\ counted_once (bool_decide (Playback.rp_status report = Playback.COMPLETED))
         (schedule st) (schedule st').
Proof.
  intros Hbk. unfold _execute_schedule. monad_unfold.
  pose proof (load_and_play_schedule env self st) as Hs.
  destruct (load_and_play env self st) as [[report|e] s1]; simpl in Hs.
  - destruct (record_outcome_ok env self report s1 Hbk) as (s2 & -> & Hc).
    eexists _, _. split; [reflexivity|]. by rewrite <- Hs.
  - destruct (record_failure_ok env self e s1 Hbk) as (report & s2 & -> & Hst & _ & Hc).
    eexists _, _. split; [reflexivity|]. rewrite Hst. simpl. by rewrite <- Hs.
Qed.

(** C7: a run whose playback completed and whose completion callback then
    raises is counted twice: once as a success, by the statistics of the
    [try] block, and once as a failure, by the handler that catches the
    callback's exception; the report returned is the handler's, and two
    reports are emailed. *)
Theorem late_failure_counted_twice :
  let '(out, st) :=
    _execute_schedule Examples.env_with_failing_callback Examples.scheduler_with_callback
      {| schedule := Examples.schedule; trace := []; playback_trace := [] |} in
  match out with
  | Ok report =>
      Playback.rp_status report = Playback.FAILED
      /\ Playback.rp_error_message report = Some "callback failed"
  | Raise _ => False
  end
  /\ s_run_count (schedule st) = (s_run_count Examples.schedule + 2)%Z
  /\ s_success_count (schedule st) = (s_success_count Examples.schedule + 1)%Z
  /\ s_failure_count (schedule st) = (s_failure_count Examples.schedule + 1)%Z
  /\ Examples.emailed (trace st) = [Playback.COMPLETED; Playback.FAILED].
Proof. vm_compute. done. Qed.

End SchedulerFacts.

(** ** More on the recorder *)

Module RecorderLaws.
Import Recorder RecorderFacts.

(** *** Identifiers are unique *)

Lemma pretty_go_leading x : (0 < x)%N ->
  forall s, exists c rest, pretty_N_go x s = String c rest /\ c <> "0"%char.
Proof.
  induction (N.lt_wf_0 x) as [x _ IH]. intros Hx s.
  rewrite pretty_N_go_step by done.
  destruct (decide (x `div` 10 = 0)%N) as [Hz|Hnz].
  - rewrite Hz, pretty_N_go_0. eexists _, _. split; [reflexivity|].
    apply N.div_small_iff in Hz; [|done].
    rewrite N.mod_small by done.
    assert (x = 1 ∨ x = 2 ∨ x = 3 ∨ x = 4 ∨ x = 5 ∨ x = 6
            ∨ x = 7 ∨ x = 8 ∨ x = 9)%N as Hc by lia.
    destruct Hc as [->|[->|[->|[->|[->|[->|[->|[->| ->]]]]]]]]; done.
  - apply IH; [apply N.div_lt; lia|by apply N.neq_0_lt_0].
Qed.

Lemma pretty_nat_leading (n : nat) :
  pretty n = "0" \/ exists c rest, pretty n = String c rest /\ c <> "0"%char.
Proof.
  unfold pretty, pretty_nat, pretty, pretty_N. case_decide; [by left|right].
  apply pretty_go_leading. lia.
Qed.

Lemma str_repeat_S s n : Py.str_repeat s (S n) = s +:+ Py.str_repeat s n.
Proof. reflexivity. Qed.

Lemma padded_inj k1 k2 (n m : nat) :
  Py.str_repeat "0" k1 +:+ pretty n = Py.str_repeat "0" k2 +:+ pretty m -> n = m.
Proof.
  revert k2. induction k1 as [|k1 IH]; intros [|k2] H.
  - by apply (inj pretty).
  - change (pretty n = String "0" (Py.str_repeat "0" k2 +:+ pretty m)) in H.
    destruct (pretty_nat_leading n) as [Hn|(c & rest & Hn & Hc)]; rewrite Hn in H.
    + injection H as H. destruct k2; simpl in H.
      * destruct (pretty_nat_leading m) as [Hm|(? & ? & Hm & _)]; rewrite Hm in H; done.
      * done.
    + injection H as -> _. done.
  - change (String "0" (Py.str_repeat "0" k1 +:+ pretty n) = pretty m) in H.
    destruct (pretty_nat_leading m) as [Hm|(c & rest & Hm & Hc)]; rewrite Hm in H.
    + injection H as H. destruct k1; simpl in H.
      * destruct (pretty_nat_leading n) as [Hn|(? & ? & Hn & _)]; rewrite Hn in H; done.
      * done.
    + injection H as <- _. done.
  - change (String "0" (Py.str_repeat "0" k1 +:+ pretty n)
            = String "0" (Py.str_repeat "0" k2 +:+ pretty m)) in H.
    injection H as H. by eapply IH.
Qed.

Lemma format_action_id_inj n m : format_action_id n = format_action_id m -> n = m.
Proof.
  unfold format_action_id, Py.zero_pad. intros H.
  change ("action_" +:+ ?s) with (String "a" (String "c" (String "t" (String "i"
    (String "o" (String "n" (String "_" s))))))) in H.
  injection H as H. by eapply padded_inj.
Qed.

Section Sessions.
Variable str_float : Q -> string.

(** The identifiers [_generate_action_id] hands out are pairwise different,
    whatever the counter, and no two actions of a session (from
    [start_recording] on a recorder that is not recording, to
    [stop_recording]) carry the same one, whatever the events of the session,
    pauses included. *)
Theorem action_ids_unique (self : ActionRecorder) (now now' : Q) (capture : bool)
    (evs : list (Q * Event)) :
  _recording self = false ->
  Forall (fun e => ends_session e.2 = false) evs ->
  (forall n m, format_action_id n = format_action_id m -> n = m)
  /\ NoDup (map ra_id
              (fst (stop_recording now'
                      (run str_float evs (start_recording now capture self))))).
Proof.
  intros Hrec Hev. split; [apply format_action_id_inj|].
  set (s0 := start_recording now capture self).
  assert (Hs0 : increasing_from (_action_counter self) s0).
  { unfold s0, start_recording. rewrite Hrec. split; [done|]. exists [].
    repeat split; try done; constructor. }
  destruct (stop_advances now' (run str_float evs s0)) as (s & Hadv & ->).
  assert (Hinv : increasing_from (_action_counter self) s).
  { eapply increasing_advances; [exact Hadv|]. by apply run_increasing. }
  destruct Hinv as (_ & l & -> & Hs & _).
  apply NoDup_fmap_2; [intros n m; apply format_action_id_inj|].
  clear -Hs. induction Hs as [|a l Hs IH Ha]; constructor; [|exact IH].
  intros Hin. rewrite list.Forall_forall in Ha. specialize (Ha a Hin). lia.
Qed.

End Sessions.

Lemma action_ids_unique_witness :
  NoDup (map ra_id
           (fst (stop_recording 12.0
                   (run (fun _ => "2.0")
                      [(10.0%Q, EvAddUrl "https://a.example"); (10.5%Q, EvAddWait 2.0)]
                      (start_recording 9.0 true (ActionRecorder_new false)))))).
Proof.
  apply (action_ids_unique (fun _ => "2.0") (ActionRecorder_new false) 9.0 12.0 true
           [(10.0%Q, EvAddUrl "https://a.example"); (10.5%Q, EvAddWait 2.0)]).
  - reflexivity.
  - repeat constructor.
Defined.

(** *** A stopped or paused recorder *)

Lemma quiet_refl self : quiet self self.
Proof. done. Qed.

Lemma quiet_trans a b c : quiet a b -> quiet b c -> quiet a c.
Proof. unfold quiet. intros (-> & -> & -> & ->) (-> & -> & -> & ->). done. Qed.

Lemma quiet_inactive a b : quiet a b -> inactive a = true -> inactive b = true.
Proof. unfold quiet, inactive. intros (_ & _ & -> & ->). done. Qed.

Ltac quiet_record :=
  unfold quiet, _generate_action_id, _get_delay, _record_action; simpl;
  match goal with H : inactive _ = true |- _ => unfold inactive in H; rewrite ?H end;
  done.

Lemma flush_text_quiet now self :
  inactive self = true -> quiet self (_flush_text_buffer now self).
Proof.
  intros H. unfold _flush_text_buffer. case_bool_decide; [done|].
  destruct (_sensitive_mode self); [destruct (_current_credential self) as [[cn cf]|]|];
    quiet_record.
Qed.

Lemma flush_scroll_quiet now self :
  inactive self = true -> quiet self (_flush_scroll_buffer now self).
Proof.
  intros H. unfold _flush_scroll_buffer. destruct (_scroll_start_time self); [|done].
  pose proof (flush_text_quiet now self H) as Hq.
  pose proof (quiet_inactive _ _ Hq H) as H'.
  eapply quiet_trans; [exact Hq|].
  revert H'. generalize (_flush_text_buffer now self). intros s H'. quiet_record.
Qed.

Lemma fire_timers_quiet now self :
  inactive self = true -> quiet self (fire_timers now self).
Proof.
  intros H. unfold fire_timers. destruct (_scroll_timer self) as [t|]; [|done].
  destruct (_ && _); [|done].
  eapply quiet_trans; [|apply flush_scroll_quiet; exact H]. done.
Qed.

Section Idle.
Variable str_float : Q -> string.

Lemma step_quiet now ev self :
  inactive self = true -> reactivates ev = false ->
  _actions (step str_float now ev self) = _actions self
  /\ notified (step str_float now ev self) = notified self
  /\ inactive (step str_float now ev self) = true.
Proof.
  intros H Hev. unfold step.
  pose proof (fire_timers_quiet now self H) as Hq.
  pose proof (quiet_inactive _ _ Hq H) as H'.
  destruct Hq as (Ha & Hn & _). rewrite <- Ha, <- Hn.
  revert H'. generalize (fire_timers now self). clear H Ha Hn self. intros s H.
  assert (Hgo : forall s', quiet s s' ->
            _actions s' = _actions s /\ notified s' = notified s /\ inactive s' = true).
  { intros s' Hq. pose proof (quiet_inactive _ _ Hq H). by destruct Hq as (? & ? & _). }
  destruct ev; try discriminate; [| |apply Hgo..].
  - (* pause_recording *)
    unfold pause_recording.
    assert (Hp : inactive (set_paused true s) = true) by (unfold inactive; simpl; apply orb_true_r).
    destruct (flush_text_quiet now _ Hp) as (Ha & Hn & Hr & Hpa).
    rewrite Ha, Hn. unfold inactive. rewrite Hpa. simpl. repeat split. apply orb_true_r.
  - (* stop_recording *)
    unfold stop_recording. cbn [snd].
    pose proof (flush_text_quiet now s H) as Hq1.
    pose proof (quiet_inactive _ _ Hq1 H) as H1.
    set (s1 := _flush_text_buffer now s) in *.
    set (s2 := match _scroll_timer s1 with
               | Some t => set_scroll_timer (Some (cancel t)) s1
               | None => s1
               end).
    assert (Hq2 : quiet s1 s2) by (subst s2; destruct (_scroll_timer s1); done).
    pose proof (quiet_inactive _ _ Hq2 H1) as H2.
    pose proof (flush_scroll_quiet now s2 H2) as Hq3.
    destruct (quiet_trans _ _ _ Hq1 (quiet_trans _ _ _ Hq2 Hq3)) as (Ha & Hn & _).
    simpl. rewrite Ha, Hn. done.
  - unfold mark_sensitive_input.
    eapply quiet_trans; [apply (flush_text_quiet now); exact H|]. done.
  - unfold end_sensitive_input.
    eapply quiet_trans; [apply (flush_text_quiet now); exact H|]. done.
  - unfold add_screenshot_action. destruct filepath; [quiet_record|done].
  - unfold add_wait_action. quiet_record.
  - unfold add_url_action. quiet_record.
  - done.
  - unfold _on_mouse_click. destruct pressed; [|done]. simpl.
    destruct (in_exclude_rect _ x y); [done|].
    pose proof (flush_text_quiet now s H) as Hq1.
    pose proof (quiet_inactive _ _ Hq1 H) as H1.
    eapply quiet_trans; [exact Hq1|].
    revert H1. generalize (_flush_text_buffer now s). clear. intros s H.
    destruct (_capture_screenshots s) as [[]|]; simpl;
      [destruct capture; simpl| |]; try done; quiet_record.
  - unfold _on_mouse_scroll. fold (inactive s). rewrite H. done.
  - unfold _on_key_press.
    assert (Hsp : forall name, quiet s (on_special_key now name s)).
    { intros name. unfold on_special_key. case_bool_decide.
      - pose proof (flush_text_quiet now s H) as Hq1.
        pose proof (quiet_inactive _ _ Hq1 H) as H1.
        eapply quiet_trans; [exact Hq1|].
        revert H1. generalize (_flush_text_buffer now s). clear. intros s H. quiet_record.
      - case_bool_decide.
        + case_bool_decide; [quiet_record|done].
        + case_bool_decide; [|done]. destruct (_text_buffer_start_time s); done. }
    destruct key as [[[|c rest]|] k|name]; try apply Hsp.
    destruct (_text_buffer_start_time s); done.
  - done.
  - done.
Qed.

(** A recorder that is stopped or paused records nothing: whatever is typed,
    clicked, scrolled or added until it is started or resumed, the list of
    actions is the same and the callback is not called. *)
Theorem inactive_recorder_records_nothing (self : ActionRecorder) (evs : list (Q * Event)) :
  inactive self = true ->
  Forall (fun e => reactivates e.2 = false) evs ->
  _actions (run str_float evs self) = _actions self
  /\ notified (run str_float evs self) = notified self
  /\ inactive (run str_float evs self) = true.
Proof.
  intros H Hev. revert self H. induction Hev as [|[now ev] evs Hr _ IH]; intros self H.
  - done.
  - simpl. destruct (step_quiet now ev self H Hr) as (Ha & Hn & Hi).
    destruct (IH _ Hi) as (-> & -> & ->). done.
Qed.

End Idle.

Lemma inactive_recorder_records_nothing_witness :
  let self := pause_recording 2.0 (add_url_action 1.0 "https://a.example"
                (start_recording 0.5 true (ActionRecorder_new true))) in
  map ra_id
    (_actions (run (fun _ => "2.0")
                 [(3.0%Q, EvMouseClick 10 20 "left" true None None);
                  (3.5%Q, EvKeyPress (SpecialKey "enter")); (4.0%Q, EvAddWait 2.0)] self))
  = ["action_00001"].
Proof.
  intros self.
  destruct (inactive_recorder_records_nothing (fun _ => "2.0") self
              [(3.0%Q, EvMouseClick 10 20 "left" true None None);
               (3.5%Q, EvKeyPress (SpecialKey "enter")); (4.0%Q, EvAddWait 2.0)])
    as (-> & _).
  - reflexivity.
  - repeat constructor.
  - reflexivity.
Defined.

(** *** Scrolling *)

Section Scrolling.
Variable str_float : Q -> string.

Lemma last_cons {A} (l : list A) (a d : A) : List.last (a :: l) d = List.last l a.
Proof.
  revert a d. induction l as [|b l IH]; intros a d; [reflexivity|].
  change (List.last (b :: l) d = List.last (b :: l) a). by rewrite !IH.
Qed.

Lemma last_fmap {A B} (f : A -> B) (l : list A) (d : A) :
  List.last (f <$> l) (f d) = f (List.last l d).
Proof.
  revert d. induction l as [|a l IH]; intros d; [reflexivity|].
  change (List.last (f a :: (f <$> l)) (f d) = f (List.last (a :: l) d)).
  by rewrite !last_cons, IH.
Qed.

Lemma last_fmap_cons {A B} (f : A -> B) (l : list A) (a : A) (d : B) :
  List.last (f <$> (a :: l)) d = f (List.last l a).
Proof.
  change (List.last (f a :: (f <$> l)) d = f (List.last l a)).
  by rewrite last_cons, last_fmap.
Qed.

(** While scroll events keep coming within the delay, they only add up. *)
Lemma scroll_burst_accumulates burst :
  forall (self : ActionRecorder) (start last : Q),
    _recording self = true -> _paused self = false ->
    _scroll_start_time self = Some start ->
    _scroll_timer self = Some {| t_deadline := (last + 0.3)%Q; t_live := true |} ->
    debounced last burst ->
    let s := run str_float (scroll_event <$> burst) self in
    _recording s = true /\ _paused s = false
    /\ _actions s = _actions self /\ _text_buffer s = _text_buffer self
    /\ _action_counter s = _action_counter self
    /\ _scroll_start_time s = Some start
    /\ _scroll_timer s
       = Some {| t_deadline := (List.last (sc_time <$> burst) last + 0.3)%Q; t_live := true |}
    /\ _scroll_buffer_x s = (_scroll_buffer_x self + total sc_dx burst)%Z
    /\ _scroll_buffer_y s = (_scroll_buffer_y self + total sc_dy burst)%Z
    /\ int_or_zero (_scroll_last_x s)
       = List.last (sc_x <$> burst) (int_or_zero (_scroll_last_x self))
    /\ int_or_zero (_scroll_last_y s)
       = List.last (sc_y <$> burst) (int_or_zero (_scroll_last_y self)).
Proof.
  induction burst as [|e es IH]; intros self start last Hr Hp Hst Ht Hd.
  - simpl. rewrite !Z.add_0_r. done.
  - destruct Hd as [Hlt Hd]. rewrite !last_fmap_cons.
    change (scroll_event <$> e :: es) with (scroll_event e :: (scroll_event <$> es)).
    cbn [run scroll_event].
    set (s1 := step str_float (sc_time e) _ self).
    assert (Hs1 : s1 = _on_mouse_scroll (sc_time e) (sc_x e) (sc_y e) (sc_dx e) (sc_dy e) self).
    { subst s1. unfold step, fire_timers. rewrite Ht. cbn [t_live t_deadline andb].
      destruct (Qle_bool (last + 0.3) (sc_time e)) eqn:E; [|reflexivity].
      apply Qle_bool_iff in E. exfalso. revert E. by apply Qlt_not_le. }
    assert (H1 : _recording s1 = true /\ _paused s1 = false
                 /\ _actions s1 = _actions self /\ _text_buffer s1 = _text_buffer self
                 /\ _action_counter s1 = _action_counter self
                 /\ _scroll_start_time s1 = Some start
                 /\ _scroll_timer s1 = Some {| t_deadline := (sc_time e + 0.3)%Q; t_live := true |}
                 /\ _scroll_buffer_x s1 = (_scroll_buffer_x self + sc_dx e)%Z
                 /\ _scroll_buffer_y s1 = (_scroll_buffer_y self + sc_dy e)%Z
                 /\ _scroll_last_x s1 = Some (sc_x e) /\ _scroll_last_y s1 = Some (sc_y e)).
    { rewrite Hs1. unfold _on_mouse_scroll. rewrite Hr, Hp, Ht. simpl. rewrite Hst. simpl.
      done. }
    destruct H1 as (Hr1 & Hp1 & Ha1 & Hb1 & Hc1 & Hst1 & Ht1 & Hx1 & Hy1 & Hlx & Hly).
    destruct (IH s1 start (sc_time e) Hr1 Hp1 Hst1 Ht1 Hd)
      as (Hr2 & Hp2 & Ha2 & Hb2 & Hc2 & Hst2 & Ht2 & Hx2 & Hy2 & Hlx2 & Hly2).
    rewrite Hlx in Hlx2. rewrite Hly in Hly2.
    change (int_or_zero (Some ?z)) with z in Hlx2, Hly2.
    rewrite last_fmap in Ht2. rewrite last_fmap in Hlx2. rewrite last_fmap in Hly2.
    cbn zeta. repeat split; try congruence.
    + rewrite Hx2, Hx1. unfold total. simpl. lia.
    + rewrite Hy2, Hy1. unfold total. simpl. lia.
Qed.

(** A burst of scroll events, each less than 0.3 s after the one before,
    followed by 0.3 s without one, is recorded as one [MOUSE_SCROLL] action:
    its deltas are the sums of the events' deltas, its position is that of the
    last event and its timestamp the time of the first. *)
Theorem scroll_burst_is_one_action (self : ActionRecorder) (first : Scroll)
    (rest : list Scroll) (idle : Q) :
  _recording self = true -> _paused self = false ->
  _scroll_start_time self = None -> _scroll_timer self = None ->
  _text_buffer self = "" ->
  debounced (sc_time first) rest ->
  (sc_time (List.last rest first) + 0.3 <= idle)%Q ->
  let burst := first :: rest in
  let s := run str_float ((scroll_event <$> burst) ++ [(idle, EvTick)]) self in
  exists a,
    _actions s = (_actions self ++ [a])%list
    /\ ra_action_type a = MOUSE_SCROLL
    /\ ra_id a = format_action_id (S (_action_counter self))
    /\ ra_dx a = Some (total sc_dx burst) /\ ra_dy a = Some (total sc_dy burst)
    /\ ra_x a = Some (sc_x (List.last rest first))
    /\ ra_y a = Some (sc_y (List.last rest first))
    /\ ra_timestamp a = sc_time first
    /\ _scroll_start_time s = None /\ _scroll_timer s = None.
Proof.
  intros Hr Hp Hst Ht Hb Hd Hidle burst s. subst s burst.
  assert (Hrun : forall l1 l2 st, run str_float (l1 ++ l2) st
                                  = run str_float l2 (run str_float l1 st)).
  { induction l1 as [|[t ev] l1 IH]; intros l2 st; [reflexivity|]. simpl. apply IH. }
  rewrite Hrun. cbn [fmap list_fmap app]. cbn [run scroll_event].
  set (s1 := step str_float (sc_time first) _ self).
  assert (H1 : _recording s1 = true /\ _paused s1 = false
               /\ _actions s1 = _actions self /\ _text_buffer s1 = ""
               /\ _action_counter s1 = _action_counter self
               /\ _scroll_start_time s1 = Some (sc_time first)
               /\ _scroll_timer s1 = Some {| t_deadline := (sc_time first + 0.3)%Q; t_live := true |}
               /\ _scroll_buffer_x s1 = sc_dx first /\ _scroll_buffer_y s1 = sc_dy first
               /\ _scroll_last_x s1 = Some (sc_x first) /\ _scroll_last_y s1 = Some (sc_y first)).
  { subst s1. unfold step, fire_timers. rewrite Ht. unfold _on_mouse_scroll.
    rewrite Hr, Hp, Ht. simpl. rewrite Hst. simpl. done. }
  destruct H1 as (Hr1 & Hp1 & Ha1 & Hb1 & Hc1 & Hst1 & Ht1 & Hx1 & Hy1 & Hlx & Hly).
  destruct (scroll_burst_accumulates rest s1 (sc_time first) (sc_time first)
              Hr1 Hp1 Hst1 Ht1 Hd)
    as (Hr2 & Hp2 & Ha2 & Hb2 & Hc2 & Hst2 & Ht2 & Hx2 & Hy2 & Hlx2 & Hly2).
  rewrite Hlx in Hlx2. rewrite Hly in Hly2.
    change (int_or_zero (Some ?z)) with z in Hlx2, Hly2.
  rewrite last_fmap in Ht2. rewrite last_fmap in Hlx2. rewrite last_fmap in Hly2.
  revert Hr2 Hp2 Ha2 Hb2 Hc2 Hst2 Ht2 Hx2 Hy2 Hlx2 Hly2.
  generalize (run str_float (scroll_event <$> rest) s1). intros s2.
  intros Hr2 Hp2 Ha2 Hb2 Hc2 Hst2 Ht2 Hx2 Hy2 Hlx2 Hly2.
  unfold step, fire_timers. rewrite Ht2. cbn [t_live t_deadline andb].
  assert (Hle : Qle_bool (sc_time (List.last rest first) + 0.3) idle = true)
    by (by apply Qle_bool_iff).
  rewrite Hle. unfold _flush_scroll_buffer. simpl. rewrite Hst2.
  unfold _flush_text_buffer. simpl. rewrite Hb2, Hb1. simpl.
  unfold _generate_action_id, _get_delay, _record_action. simpl.
  rewrite Hr2, Hp2. simpl.
  destruct (on_action s2); simpl; eexists; (split; [rewrite Ha2, Ha1; reflexivity|]); simpl;
    rewrite Hc2, Hc1, Hx2, Hy2, Hx1, Hy1, Hlx2, Hly2; unfold total; simpl; done.
Qed.

End Scrolling.

Lemma scroll_burst_is_one_action_witness :
  let s := run (fun _ => "")
             [(10.0%Q, EvMouseScroll 5 6 0 (-1)); (10.2%Q, EvMouseScroll 7 8 0 (-2));
              (11.0%Q, EvTick)]
             (start_recording 9.0 true (ActionRecorder_new false)) in
  map (fun a => (ra_action_type a, ra_x a, ra_y a, ra_dy a)) (_actions s)
  = [(MOUSE_SCROLL, Some 7%Z, Some 8%Z, Some (-3)%Z)].
Proof.
  destruct (scroll_burst_is_one_action (fun _ => "")
              (start_recording 9.0 true (ActionRecorder_new false))
              {| sc_time := 10.0; sc_x := 5; sc_y := 6; sc_dx := 0; sc_dy := -1 |}
              [{| sc_time := 10.2; sc_x := 7; sc_y := 8; sc_dx := 0; sc_dy := -2 |}]
              11.0)
    as (a & Ha & Hty & _ & _ & Hdy & Hx & Hy & _);
    [reflexivity..|split; [reflexivity|exact I]|discriminate|].
  intros s. subst s. change (run _ _ _) with
      (run (fun _ : Q => "")
         ((scroll_event <$>
             [{| sc_time := 10.0; sc_x := 5; sc_y := 6; sc_dx := 0; sc_dy := -1 |};
              {| sc_time := 10.2; sc_x := 7; sc_y := 8; sc_dx := 0; sc_dy := -2 |}])
          ++ [(11.0%Q, EvTick)])
         (start_recording 9.0 true (ActionRecorder_new false))).
  rewrite Ha. simpl. rewrite Hty, Hx, Hy, Hdy. reflexivity.
Defined.

(** *** Text and the events that flush it *)

Lemma str_drop_last_app (s : string) (c : ascii) :
  Py.str_drop_last (s +:+ String c "") = s.
Proof.
  induction s as [|a s IH]; [reflexivity|].
  change (Py.str_drop_last (String a (s +:+ String c "")) = String a s).
  destruct s as [|b s]; [reflexivity|].
  change (String a (Py.str_drop_last (String b s +:+ String c "")) = String a (String b s)).
  by rewrite IH.
Qed.

(** A character key followed by backspace leaves the text buffer as it was
    and records nothing; backspace on an empty buffer is recorded, when the
    recorder is recording, as a [KEY_PRESS] of backspace. *)
Theorem backspace_edits_buffer (self : ActionRecorder) (now now' : Q) (c : ascii)
    (str_key : string) :
  (let s := _on_key_press now' (SpecialKey "backspace")
              (_on_key_press now (KeyCode (Some (String c "")) str_key) self) in
   _text_buffer s = _text_buffer self /\ _actions s = _actions self
   /\ _action_counter s = _action_counter self)
  /\ (_text_buffer self = "" -> inactive self = false ->
      let s := _on_key_press now' (SpecialKey "backspace") self in
      exists a, _actions s = (_actions self ++ [a])%list
                /\ ra_action_type a = KEY_PRESS /\ ra_key a = Some "backspace"
                /\ ra_id a = format_action_id (S (_action_counter self))
                /\ _text_buffer s = "").
Proof.
  split.
  - cbn zeta.
    set (s1 := _on_key_press now (KeyCode (Some (String c "")) str_key) self).
    assert (H1 : _text_buffer s1 = _text_buffer self +:+ String c ""
                 /\ _actions s1 = _actions self /\ _action_counter s1 = _action_counter self).
    { subst s1. unfold _on_key_press. destruct (_text_buffer_start_time self); done. }
    destruct H1 as (Hb & Ha & Hc). clearbody s1.
    unfold _on_key_press, on_special_key. simpl.
    rewrite bool_decide_eq_false_2.
    2:{ rewrite Hb. destruct (_text_buffer self); done. }
    simpl. rewrite Hb, str_drop_last_app. done.
  - intros Hb Hi. unfold inactive in Hi. cbn zeta.
    unfold _on_key_press, on_special_key. simpl.
    rewrite bool_decide_eq_true_2 by exact Hb.
    unfold _generate_action_id, _get_delay, _record_action. simpl. rewrite Hi.
    destruct (on_action self); simpl; eexists; (split; [reflexivity|]); done.
Qed.

Lemma backspace_edits_buffer_witness :
  let self := start_recording 0.5 true (ActionRecorder_new false) in
  map (fun a => (ra_id a, ra_key a)) (_actions (_on_key_press 1.0 (SpecialKey "backspace") self))
  = [("action_00001", Some "backspace")].
Proof.
  intros self.
  destruct (backspace_edits_buffer self 1.0 1.0 "a"%char "a") as (_ & H).
  destruct H as (a & Ha & _ & Hk & Hid & _); [reflexivity..|].
  rewrite Ha. simpl. rewrite Hk, Hid. reflexivity.
Defined.



End RecorderLaws.

(** ** Serialisation round trips *)

Module SerialLaws.
Import Serial.

(** A literal key is in a literal list of keys. *)
Ltac in_keys := solve [repeat constructor].

(** A literal key is not in a literal list of keys; [H] is the membership. *)
Ltac not_in_keys H :=
  repeat (apply elem_of_cons in H as [H|H]; [discriminate H|]);
  by apply elem_of_nil in H.

Lemma mapM_keys (f : string -> option (string * value)) (g : string -> value) keys :
  (forall k, k ∈ keys -> f k = Some (k, g k)) ->
  mapM f keys = Some ((fun k => (k, g k)) <$> keys).
Proof.
  induction keys as [|k keys IH]; intros H; [reflexivity|].
  cbn. rewrite (H k) by constructor. cbn.
  rewrite IH by (intros k' Hk'; apply H; by constructor). reflexivity.
Qed.

Lemma lookup_keys (g : string -> value) keys k :
  (list_to_map ((fun k => (k, g k)) <$> keys) : gmap string value) !! k
  = if decide (k ∈ keys) then Some (g k) else None.
Proof.
  induction keys as [|k' keys IH].
  { cbn. rewrite lookup_empty. case_decide as H; [by apply elem_of_nil in H|done]. }
  cbn. destruct (decide (k = k')) as [->|Hne].
  - rewrite lookup_insert_eq. rewrite decide_True by constructor. done.
  - rewrite lookup_insert_ne by done. rewrite IH.
    destruct (decide (k ∈ keys)) as [Hin|Hnin].
    + rewrite decide_True by (by constructor). done.
    + rewrite decide_False; [done|]. intros [?|?]%elem_of_cons; done.
Qed.

(** What the constructor of a dataclass builds from keyword arguments. *)
Lemma dataclass_init_spec cls (spec : dataclass) (kwargs : gmap string value) :
  dom kwargs ⊆ field_names spec ->
  (forall f, (f, None) ∈ spec -> is_Some (kwargs !! f)) ->
  exists m, dataclass_init cls spec kwargs = Some (VObject cls m)
    /\ forall k, m !! k
         = (fun dflt => default (default VNone dflt) (kwargs !! k))
             <$> ((list_to_map spec : gmap string (option value)) !! k).
Proof.
  intros Hdom Hreq. unfold dataclass_init. rewrite bool_decide_eq_true_2 by exact Hdom.
  clear Hdom.
  assert (H : mapM (fun '(f, dflt) =>
                      match kwargs !! f with
                      | Some v => Some (f, v)
                      | None => (fun v => (f, v)) <$> dflt
                      end) spec
              = Some ((fun '(f, dflt) => (f, default (default VNone dflt) (kwargs !! f)))
                        <$> spec)).
  { induction spec as [|[f dflt] spec IH]; [reflexivity|].
    cbn. destruct (kwargs !! f) as [v|] eqn:E; cbn.
    - rewrite IH by (intros f' Hf'; apply Hreq; by constructor). reflexivity.
    - destruct dflt as [d|].
      + cbn. rewrite IH by (intros f' Hf'; apply Hreq; by constructor). reflexivity.
      + destruct (Hreq f) as [v Hv]; [constructor|congruence]. }
  rewrite H. cbn. eexists. split; [reflexivity|].
  intros k. clear. induction spec as [|[f dflt] spec IH]; [reflexivity|].
  cbn. destruct (decide (k = f)) as [->|Hne].
  - by rewrite !lookup_insert_eq.
  - by rewrite !lookup_insert_ne.
Qed.

Lemma ActionType_of_value_value t :
  Recorder.ActionType_of_value (Recorder.ActionType_value t) = Some t.
Proof. by destruct t. Qed.

Lemma asdict_inner_scalar (fields : gmap string value) :
  map_Forall (fun _ x => scalar x) fields -> asdict_inner <$> fields = fields.
Proof.
  intros H. apply map_eq. intros k. rewrite lookup_fmap.
  destruct (fields !! k) as [v|] eqn:E; [|done]. simpl.
  specialize (H k v E). by destruct v.
Qed.

(** A region written by [asdict] is read back by the constructor. *)
Lemma region_round_trip sr :
  region_object sr -> asdict sr ≫= ScreenRegion_call = Some sr.
Proof.
  intros (fields & -> & Hdom & Hsc). cbn. rewrite (asdict_inner_scalar _ Hsc).
  destruct (dataclass_init_spec "ScreenRegion" ScreenRegion_fields fields)
    as (m & -> & Hm).
  - by rewrite Hdom.
  - intros f Hf. apply elem_of_dom. rewrite Hdom. unfold field_names.
    apply elem_of_list_to_set, list_elem_of_fmap. by exists (f, None).
  - do 2 f_equal. apply map_eq. intros k. rewrite Hm.
    destruct (decide (k ∈ field_names ScreenRegion_fields)) as [Hin|Hnin].
    + assert (Hk : is_Some (fields !! k)) by (apply elem_of_dom; by rewrite Hdom).
      destruct Hk as [v Hv]. rewrite Hv.
      unfold field_names in Hin. apply elem_of_list_to_set in Hin. simpl in Hin.
      repeat (apply elem_of_cons in Hin as [->|Hin]; [reflexivity|]).
      by apply elem_of_nil in Hin.
    + assert (Hk : fields !! k = None) by (apply not_elem_of_dom; by rewrite Hdom).
      rewrite Hk. rewrite (not_elem_of_list_to_map_1 (M:=gmap string)); [done|].
      intros Hin. apply Hnin. unfold field_names. by apply elem_of_list_to_set.
Qed.


Lemma action_keys_fields k :
  k ∈ field_names RecordedAction_fields <-> k ∈ RecordedAction_keys \/ k = "screen_region".
Proof.
  unfold field_names. rewrite elem_of_list_to_set. simpl.
  unfold RecordedAction_keys. split.
  - intros H.
    repeat (apply elem_of_cons in H as [->|H]; [first [left; in_keys|by right]|]).
    by apply elem_of_nil in H.
  - intros [H| ->]; [|in_keys].
    repeat (apply elem_of_cons in H as [->|H]; [in_keys|]).
    by apply elem_of_nil in H.
Qed.

Lemma bind_Some {A B} (x : A) (f : A -> option B) : Some x ≫= f = f x.
Proof. reflexivity. Qed.

(** What [from_dict] builds from a dictionary that has the required keys. *)
Lemma action_from_dict_spec (d : gmap string value) screen_region t :
  match d !! "screen_region" with
  | Some v => ScreenRegion_call v
  | None => Some VNone
  end = Some screen_region ->
  d !! "action_type" = Some (VStr (Recorder.ActionType_value t)) ->
  is_Some (d !! "id") -> is_Some (d !! "timestamp") ->
  exists m, RecordedAction_from_dict (VDict d) = Some (VObject "RecordedAction" m)
    /\ forall k, m !! k
         = if decide (k = "screen_region") then Some screen_region
           else if decide (k = "action_type") then Some (VActionType t)
           else (fun dflt => default (default VNone dflt) (d !! k))
                  <$> ((list_to_map RecordedAction_fields : gmap string (option value)) !! k).
Proof.
  intros Hsr Hat Hid Hts. unfold RecordedAction_from_dict. rewrite Hsr, bind_Some.
  rewrite lookup_delete_ne by done. rewrite Hat, bind_Some.
  unfold ActionType_call. rewrite ActionType_of_value_value. cbn [fmap option_fmap option_map].
  rewrite bind_Some.
  set (kwargs := <["screen_region" := screen_region]> _).
  assert (Hk : forall k, kwargs !! k
                 = if decide (k = "screen_region") then Some screen_region
                   else if decide (k = "action_type") then Some (VActionType t)
                   else if decide (k ∈ field_names RecordedAction_fields) then d !! k
                   else None).
  { intros k. subst kwargs. case_decide as E1.
    - subst k. by rewrite lookup_insert_eq.
    - rewrite lookup_insert_ne by done. unfold keep_fields. rewrite map_lookup_filter.
      case_decide as E2.
      + subst k. rewrite lookup_insert_eq. simpl. rewrite option_guard_True; [done|].
        unfold field_names. simpl. set_solver.
      + rewrite lookup_insert_ne by done. rewrite lookup_delete_ne by done.
        destruct (d !! k) as [v|]; simpl; [|by destruct (decide _)].
        case_decide as E3.
        * rewrite option_guard_True; [done|]. simpl.
          apply elem_of_difference. split; [done|by rewrite elem_of_singleton].
        * rewrite option_guard_False; [done|]. simpl.
          intros [H _]%elem_of_difference. exact (E3 H). }
  destruct (dataclass_init_spec "RecordedAction" RecordedAction_fields kwargs)
    as (m & -> & Hm).
  - intros k Hin. apply elem_of_dom in Hin as [v Hv]. rewrite Hk in Hv.
    case_decide as E1; [subst k; apply action_keys_fields; by right|].
    case_decide as E2; [subst k; apply action_keys_fields; left; in_keys|].
    case_decide as E3; [exact E3|discriminate Hv].
  - intros f Hf. rewrite Hk.
    assert (Hreq : f = "id" \/ f = "action_type" \/ f = "timestamp").
    { unfold RecordedAction_fields in Hf.
      repeat (apply elem_of_cons in Hf as [Hf|Hf]; [simplify_eq; auto|]).
      by apply elem_of_nil in Hf. }
    assert (Hn : forall k, k ∈ ["id"; "timestamp"] -> k ∈ field_names RecordedAction_fields).
    { intros k Hin. apply action_keys_fields. left.
      repeat (apply elem_of_cons in Hin as [->|Hin]; [in_keys|]).
      by apply elem_of_nil in Hin. }
    destruct Hreq as [->|[->| ->]].
    + rewrite decide_False, decide_False, decide_True by (done || apply Hn; repeat constructor).
      done.
    + rewrite decide_False, decide_True by done. eauto.
    + rewrite decide_False, decide_False, decide_True by (done || apply Hn; repeat constructor).
      done.
  - exists m. split; [reflexivity|]. intros k. rewrite Hm, Hk.
    case_decide as E1; [subst k; reflexivity|].
    case_decide as E2; [subst k; reflexivity|].
    case_decide as E3; [reflexivity|].
    rewrite (not_elem_of_list_to_map_1 (M:=gmap string)); [done|].
    intros Hin. apply E3. unfold field_names. by apply elem_of_list_to_set.
Qed.

Lemma is_none_false v : v <> VNone -> is_none v = false.
Proof. by destruct v. Qed.

Lemma action_defaults k :
  k ∈ RecordedAction_keys ->
  (list_to_map RecordedAction_fields : gmap string (option value)) !! k
  = Some (if decide (k ∈ ["id"; "action_type"; "timestamp"]) then None
          else if decide (k = "delay_before") then Some (VFloat 0.0)
          else if decide (k = "options") then Some (VDict ∅)
          else Some VNone).
Proof.
  unfold RecordedAction_keys. intros Hk.
  assert (Hnd : NoDup RecordedAction_fields.*1).
  { simpl. repeat (apply NoDup_cons_2; [intros H; not_in_keys H|]). apply NoDup_nil_2. }
  repeat (apply elem_of_cons in Hk as [->|Hk];
          [apply (elem_of_list_to_map_1 _ _ _ Hnd); in_keys|]).
  by apply elem_of_nil in Hk.
Qed.

Lemma action_object_round_trip (a : value) :
  action_object a ->
  exists d, RecordedAction_to_dict a = Some d /\ RecordedAction_from_dict d = Some a.
Proof.
  intros (fields & t & sr & -> & Hdom & Hat & Hsr & Hcase & Hreq).
  assert (Hin : forall k, k ∈ field_names RecordedAction_fields -> is_Some (fields !! k)).
  { intros k Hk. apply elem_of_dom. by rewrite Hdom. }
  assert (Hout : forall k, k ∉ field_names RecordedAction_fields -> fields !! k = None).
  { intros k Hk. apply not_elem_of_dom. by rewrite Hdom. }
  set (g := fun k => if decide (k = "action_type")
                     then VStr (Recorder.ActionType_value t)
                     else default VNone (fields !! k)).
  unfold RecordedAction_to_dict.
  rewrite (mapM_keys _ g).
  2:{ intros k Hk. destruct (Hin k) as [v Hv]; [apply action_keys_fields; by left|].
      rewrite Hv. cbn. unfold g. case_bool_decide as E.
      - subst k. rewrite decide_True by done. rewrite Hat in Hv. injection Hv as <-. done.
      - rewrite decide_False by done. rewrite Hv. done. }
  rewrite bind_Some, Hsr, bind_Some.
  set (data0 := list_to_map _ : gmap string value).
  assert (H0 : forall k, data0 !! k = if decide (k ∈ RecordedAction_keys) then Some (g k) else None)
    by (intros k; apply lookup_keys).
  clearbody data0.
  assert (Hsrk : "screen_region" ∉ RecordedAction_keys).
  { intros H. unfold RecordedAction_keys in H. not_in_keys H. }
  assert (Hdata : exists data,
    (if truthy sr then (fun d0 => <["screen_region" := d0]> data0) <$> asdict sr
     else Some data0) = Some data
    /\ forall k, data !! k
         = if decide (k = "screen_region") then (if is_none sr then None else asdict sr)
           else data0 !! k).
  { destruct Hcase as [->|(srf & -> & _)].
    - exists data0. split; [reflexivity|]. intros k. case_decide as E; [|done].
      subst k. rewrite H0, decide_False by done. done.
    - eexists. split; [reflexivity|]. intros k. case_decide as E.
      + subst k. by rewrite lookup_insert_eq.
      + by rewrite lookup_insert_ne. }
  destruct Hdata as (data & -> & Hdata). rewrite bind_Some.
  set (d := filter _ data).
  assert (Hd : forall k, d !! k
                 = data !! k ≫= fun v => if is_none v then None else Some v).
  { intros k. subst d. rewrite map_lookup_filter.
    destruct (data !! k) as [v|]; [|done]. simpl.
    destruct (is_none v) eqn:E.
    - by rewrite option_guard_False.
    - by rewrite option_guard_True. }
  clearbody d.
  assert (Hg : forall k v, k ∈ RecordedAction_keys -> k <> "action_type" ->
                 fields !! k = Some v -> d !! k = if is_none v then None else Some v).
  { intros k v Hk Hne Hv. rewrite Hd, Hdata, decide_False by (intros ->; done).
    rewrite H0, decide_True by done. unfold g. rewrite decide_False by done.
    rewrite Hv. done. }
  assert (Hkeys : forall k, k ∈ ["id"; "timestamp"; "delay_before"; "options"] ->
                    k ∈ RecordedAction_keys /\ k <> "action_type").
  { intros k Hk.
    repeat (apply elem_of_cons in Hk as [->|Hk]; [split; [in_keys|discriminate]|]).
    by apply elem_of_nil in Hk. }
  assert (Hsome : forall k, k ∈ ["id"; "timestamp"; "delay_before"; "options"] ->
                    exists v, fields !! k = Some v /\ d !! k = Some v /\ is_none v = false).
  { intros k Hk. destruct (Hkeys k Hk) as [Hk1 Hk2].
    destruct (Hin k) as [v Hv]; [apply action_keys_fields; by left|].
    assert (Hn : is_none v = false).
    { apply is_none_false. intros ->. by apply (Hreq k Hk). }
    exists v. split; [done|]. split; [|done]. rewrite (Hg k v Hk1 Hk2 Hv), Hn. done. }
  eexists. split; [reflexivity|].
  destruct (action_from_dict_spec d sr t) as (m & -> & Hm).
  - rewrite Hd, Hdata, decide_True by done.
    destruct Hcase as [->|Hro]; [done|].
    pose proof (region_round_trip sr Hro) as Hrt.
    destruct Hro as (srf & -> & _). exact Hrt.
  - rewrite Hd, Hdata, decide_False by done. rewrite H0, decide_True.
    + unfold g. rewrite decide_True by done. done.
    + unfold RecordedAction_keys. repeat constructor.
  - destruct (Hsome "id") as (v & _ & -> & _); [repeat constructor|eauto].
  - destruct (Hsome "timestamp") as (v & _ & -> & _); [repeat constructor|eauto].
  - do 2 f_equal. apply map_eq. intros k. rewrite Hm.
    case_decide as E1; [subst k; by rewrite Hsr|].
    case_decide as E2; [subst k; by rewrite Hat|].
    destruct (decide (k ∈ RecordedAction_keys)) as [Hk|Hk].
    + rewrite (action_defaults k Hk). simpl.
      destruct (Hin k) as [v Hv]; [apply action_keys_fields; by left|].
      rewrite Hv, (Hg k v Hk E2 Hv).
      destruct (decide (k ∈ ["id"; "timestamp"; "delay_before"; "options"])) as [Hr|Hr].
      * destruct (Hsome k Hr) as (v' & Hv' & _ & Hn). rewrite Hv in Hv'. injection Hv' as <-.
        rewrite Hn. done.
      * destruct (is_none v) eqn:En; [|done]. destruct v; try discriminate En. simpl.
        destruct (decide (k = "delay_before")) as [->|Ed]; [destruct Hr; in_keys|].
        destruct (decide (k = "options")) as [->|Eo]; [destruct Hr; in_keys|].
        by case_decide.
    + rewrite Hout by (rewrite action_keys_fields; intros [?|?]; done).
      rewrite (not_elem_of_list_to_map_1 (M:=gmap string)); [done|].
      intros Hin'. apply (elem_of_list_to_set (C:=gset string)) in Hin'.
      fold (field_names RecordedAction_fields) in Hin'.
      apply action_keys_fields in Hin'. destruct Hin'; done.
Qed.


Lemma to_dict_without_none (a d : value) :
  RecordedAction_to_dict a = Some d ->
  exists entries, d = VDict entries /\ forall k, entries !! k <> Some VNone.
Proof.
  unfold RecordedAction_to_dict. destruct a as [| | | | | | | | |cls fields]; try done.
  destruct (mapM _ RecordedAction_keys) as [data|]; [|done]. rewrite bind_Some.
  destruct (fields !! "screen_region") as [sr|]; [|done]. rewrite bind_Some.
  match goal with |- context [?x ≫= _] => destruct x as [data'|] end; [|done].
  rewrite bind_Some. intros [= <-]. eexists. split; [reflexivity|].
  intros k Hk. apply map_lookup_filter_Some in Hk as [_ Hk]. done.
Qed.

(** [RecordedAction.from_dict] inverts [RecordedAction.to_dict]: an action
    whose identifier, timestamp, delay and options are not [None], whose type
    is a member of the enum and whose screen region is [None] or a
    [ScreenRegion] of scalars is serialised without an exception, into a
    dictionary that holds no [None], and the dictionary is read back as the
    same action, although [to_dict] has left out every attribute that is
    [None]. *)
Theorem action_round_trip (a : value) :
  action_object a ->
  exists entries,
    RecordedAction_to_dict a = Some (VDict entries)
    /\ (forall k, entries !! k <> Some VNone)
    /\ RecordedAction_from_dict (VDict entries) = Some a.
Proof.
  intros Ha. destruct (action_object_round_trip a Ha) as (d & Hto & Hfrom).
  destruct (to_dict_without_none a d Hto) as (entries & -> & Hnone).
  by exists entries.
Qed.

Lemma setdefault_present k v (m : gmap string value) :
  is_Some (m !! k) -> setdefault k v m = m.
Proof. intros [x Hx]. unfold setdefault. by rewrite Hx. Qed.

Lemma recording_keys_fields k :
  k ∈ field_names Recording_fields
  <-> k ∈ Recording_plain_keys \/ k = "created_at" \/ k = "updated_at" \/ k = "actions".
Proof.
  unfold field_names. rewrite elem_of_list_to_set. simpl.
  unfold Recording_plain_keys. split.
  - intros H.
    repeat (apply elem_of_cons in H as [->|H]; [first [left; in_keys|auto]|]).
    by apply elem_of_nil in H.
  - intros [H|[->|[->| ->]]]; [|in_keys..].
    repeat (apply elem_of_cons in H as [->|H]; [in_keys|]).
    by apply elem_of_nil in H.
Qed.

Lemma actions_round_trip (actions : list value) :
  Forall action_object actions ->
  exists ds, mapM RecordedAction_to_dict actions = Some ds
    /\ mapM RecordedAction_from_dict ds = Some actions.
Proof.
  induction 1 as [|a actions Ha _ (ds & Hto & Hfrom)]; [by exists []|].
  destruct (action_object_round_trip a Ha) as (d & Hd & Hd').
  exists (d :: ds). cbn. rewrite Hd, Hto. cbn. rewrite Hd', Hfrom. done.
Qed.

Section WithDatetime.
Variable isoformat : Z -> string.
Variable fromisoformat : string -> option Z.
Hypothesis fromisoformat_isoformat : forall t, fromisoformat (isoformat t) = Some t.

(** [Recording.from_dict] inverts [Recording.to_dict] on a recording whose
    dates are [datetime]s and whose actions are a list of actions as above,
    provided [fromisoformat] reads what [isoformat] writes. *)
Theorem recording_round_trip (r : value) :
  recording_object r ->
  exists d, Recording_to_dict isoformat r = Some d
    /\ Recording_from_dict fromisoformat d = Some r.
Proof.
  intros (fields & created & updated & actions & -> & Hdom & Hc & Hu & Ha & Hact).
  assert (Hin : forall k, k ∈ field_names Recording_fields -> is_Some (fields !! k)).
  { intros k Hk. apply elem_of_dom. by rewrite Hdom. }
  assert (Hout : forall k, k ∉ field_names Recording_fields -> fields !! k = None).
  { intros k Hk. apply not_elem_of_dom. by rewrite Hdom. }
  destruct (actions_round_trip actions Hact) as (ds & Hto & Hfrom).
  unfold Recording_to_dict. rewrite Hc, Hu, Ha. cbn [mbind option_bind isoformat_call].
  unfold actions_to. rewrite Hto. cbn [fmap option_fmap option_map mbind option_bind].
  rewrite (mapM_keys _ (fun k => default VNone (fields !! k))).
  2:{ intros k Hk. destruct (Hin k) as [v Hv]; [apply recording_keys_fields; by left|].
      by rewrite Hv. }
  cbn [mbind option_bind].
  set (plain := list_to_map _ : gmap string value).
  assert (Hp : forall k, plain !! k
                 = if decide (k ∈ Recording_plain_keys)
                   then Some (default VNone (fields !! k)) else None)
    by (intros k; apply lookup_keys).
  clearbody plain.
  eexists. split; [reflexivity|].
  unfold Recording_from_dict.
  rewrite lookup_insert_eq. cbn [mbind option_bind fromisoformat_call].
  rewrite fromisoformat_isoformat. cbn [fmap option_fmap option_map mbind option_bind].
  rewrite lookup_insert_ne, lookup_insert_ne, lookup_insert_eq by done.
  cbn [mbind option_bind fromisoformat_call].
  rewrite fromisoformat_isoformat. cbn [fmap option_fmap option_map mbind option_bind].
  rewrite !(lookup_insert_ne _ _ "actions") by done. rewrite lookup_insert_eq.
  cbn [mbind option_bind actions_from]. rewrite Hfrom.
  cbn [fmap option_fmap option_map mbind option_bind].
  set (data := <["actions" := VList actions]> _).
  assert (Hdata : forall k, data !! k
                    = if decide (k ∈ field_names Recording_fields) then fields !! k else None).
  { intros k. subst data.
    destruct (decide (k = "actions")) as [->|E1].
    { rewrite lookup_insert_eq, decide_True, Ha; [done|].
      apply recording_keys_fields. auto. }
    rewrite lookup_insert_ne by done.
    destruct (decide (k = "updated_at")) as [->|E2].
    { rewrite lookup_insert_eq, decide_True, Hu; [done|].
      apply recording_keys_fields. auto. }
    rewrite lookup_insert_ne by done.
    destruct (decide (k = "created_at")) as [->|E3].
    { rewrite lookup_insert_eq, decide_True, Hc; [done|].
      apply recording_keys_fields. auto. }
    rewrite !lookup_insert_ne by done. rewrite Hp.
    destruct (decide (k ∈ Recording_plain_keys)) as [Hk|Hk].
    - rewrite decide_True by (apply recording_keys_fields; by left).
      destruct (Hin k) as [v ->]; [apply recording_keys_fields; by left|]. done.
    - rewrite decide_False; [done|]. rewrite recording_keys_fields.
      intros [?|[?|[?|?]]]; done. }
  clearbody data.
  assert (Hpresent : forall k, k ∈ field_names Recording_fields -> is_Some (data !! k)).
  { intros k Hk. rewrite Hdata, decide_True by done. by apply Hin. }
  assert (Hsd : forall k v, k ∈ Recording_plain_keys -> setdefault k v data = data).
  { intros k v Hk. apply setdefault_present, Hpresent, recording_keys_fields. by left. }
  rewrite (Hsd "audit_purpose"), (Hsd "audit_verification_goal"),
    (Hsd "step_screenshot_paths"), (Hsd "email_recipients")
    by in_keys.
  set (kwargs := keep_fields _ data).
  assert (Hk : forall k, kwargs !! k = data !! k).
  { intros k. subst kwargs. unfold keep_fields. rewrite map_lookup_filter, Hdata.
    case_decide as E; [|by destruct (data !! k)].
    destruct (fields !! k); simpl; [|done]. by rewrite option_guard_True. }
  clearbody kwargs.
  destruct (dataclass_init_spec "Recording" Recording_fields kwargs) as (m & -> & Hm).
  - intros k Hk'. apply elem_of_dom in Hk' as [v Hv]. rewrite Hk, Hdata in Hv.
    case_decide as E; [exact E|discriminate Hv].
  - intros f Hf. rewrite Hk. apply Hpresent. unfold field_names.
    apply elem_of_list_to_set, list_elem_of_fmap. by exists (f, None).
  - do 2 f_equal. apply map_eq. intros k. rewrite Hm, Hk, Hdata.
    case_decide as E.
    + destruct (Hin k E) as [v ->].
      assert (Hs : is_Some ((list_to_map Recording_fields : gmap string (option value)) !! k)).
      { apply elem_of_dom. rewrite dom_list_to_map_L. exact E. }
      destruct Hs as [dflt ->]. done.
    + rewrite Hout by done.
      rewrite (not_elem_of_list_to_map_1 (M:=gmap string)); [done|].
      intros Hin'. apply E. unfold field_names. by apply elem_of_list_to_set.
Qed.

End WithDatetime.

Lemma click_is_action_object : action_object Examples.click_object.
Proof.
  eexists _, Recorder.MOUSE_CLICK, VNone. split; [reflexivity|].
  split; [by rewrite dom_list_to_map_L|]. split; [reflexivity|]. split; [reflexivity|].
  split; [by left|]. intros k Hk.
  repeat (apply elem_of_cons in Hk as [->|Hk]; [vm_compute; discriminate|]).
  by apply elem_of_nil in Hk.
Qed.

Lemma action_round_trip_witness :
  exists entries,
    RecordedAction_to_dict Examples.click_object = Some (VDict entries)
    /\ (forall k, entries !! k <> Some VNone)
    /\ RecordedAction_from_dict (VDict entries) = Some Examples.click_object.
Proof.
  exact (action_round_trip Examples.click_object click_is_action_object).
Defined.

Lemma recording_round_trip_witness :
  exists d, Recording_to_dict Examples.isoformat Examples.recording_object = Some d
    /\ Recording_from_dict Examples.fromisoformat d = Some Examples.recording_object.
Proof.
  apply (recording_round_trip Examples.isoformat Examples.fromisoformat).
  - intros t. apply CredentialsFacts.unpack_pack.
  - eexists _, _, _, [Examples.click_object]. split; [reflexivity|].
    split; [by rewrite dom_list_to_map_L|]. split; [reflexivity|]. split; [reflexivity|].
    split; [reflexivity|]. constructor; [apply click_is_action_object|constructor].
Defined.

End SerialLaws.

(** ** More on the credential manager *)

Module CredentialLaws.
Import Credentials.

(** [Credential.from_dict] reads back what [Credential.to_dict] writes; it
    does so without the optional keys [url] and [notes], which then are
    [None], and raises ([KeyError]) when [name], [username] or [password] is
    missing. *)
Theorem credential_dict_round_trip (c : Credential) :
  from_dict (to_dict c) = Some c
  /\ from_dict (delete "url" (delete "notes" (to_dict c)))
     = Some {| c_name := c_name c; c_username := c_username c;
               c_password := c_password c; c_url := None; c_notes := None |}
  /\ (forall k d, k ∈ ["name"; "username"; "password"] -> d !! k = None ->
      from_dict d = None).
Proof.
  split; [by destruct c|]. split; [by destruct c|].
  intros k d Hk Hd. unfold from_dict, dict_item.
  assert (Hcase : k = "name" \/ k = "username" \/ k = "password").
  { repeat (apply elem_of_cons in Hk as [->|Hk]; [auto|]). by apply elem_of_nil in Hk. }
  destruct Hcase as [->|[->| ->]]; rewrite Hd; simpl.
  - done.
  - by destruct (mjoin (d !! "name")).
  - destruct (mjoin (d !! "name")); [|done]. simpl.
    by destruct (mjoin (d !! "username")).
Qed.

Lemma credential_dict_round_trip_witness :
  from_dict (delete "password" (to_dict Examples.portal)) = None.
Proof.
  destruct (credential_dict_round_trip Examples.portal) as (_ & _ & H).
  apply (H "password"); [repeat constructor|reflexivity].
Defined.

Section Storage.
Context {Key : Type}.
Variable pbkdf2 : string -> string -> Key.
Variable fernet_encrypt : Key -> string -> string -> string.
Variable fernet_decrypt : Key -> string -> option string.
Variable dumps_store : gmap string CredDict -> string.
Variable loads_store : string -> option (gmap string CredDict).
Variable dumps_cred : CredDict -> string.
Variable loads_cred : string -> option CredDict.

Abbreviation Manager := (@CredentialManager Key).
Abbreviation get_credential := (get_credential fernet_decrypt loads_store loads_cred).
Abbreviation store_credential :=
  (store_credential fernet_encrypt fernet_decrypt dumps_store loads_store dumps_cred).
Abbreviation load_file := (_load_credentials_file fernet_decrypt loads_store).
Abbreviation lookup := (lookup fernet_decrypt loads_store loads_cred).

(** Without a usable keyring and without a master password there is nowhere
    to store: [store_credential] raises the [ValueError] of [_store_in_file]
    and changes nothing. *)
Theorem store_needs_storage (c : Credential) (nonce : string) (self : Manager) :
  _use_keyring self = false \/ keyring_broken self = true ->
  _encryption self = None ->
  store_credential c nonce self
  = (Raise "Master password not set. Call set_master_password first.", self).
Proof.
  intros Hk He. unfold Credentials.store_credential, keyring_set_password, _store_in_file.
  monad_unfold. destruct (_use_keyring self); simpl.
  - destruct Hk as [Hk|Hk]; [done|]. rewrite Hk. simpl. by rewrite He.
  - by rewrite He.
Qed.

End Storage.

Lemma store_needs_storage_witness :
  let self := CredentialManager_new Examples.pbkdf2 false None None ∅ false None "" in
  Examples.store_credential Examples.portal "n1" self
  = (Raise "Master password not set. Call set_master_password first.", self).
Proof.
  intros self. apply store_needs_storage; [by left|reflexivity].
Defined.

Section WithCrypto.
Context {Key : Type}.
Variable pbkdf2 : string -> string -> Key.
Variable fernet_encrypt : Key -> string -> string -> string.
Variable fernet_decrypt : Key -> string -> option string.
Variable dumps_store : gmap string CredDict -> string.
Variable loads_store : string -> option (gmap string CredDict).
Variable dumps_cred : CredDict -> string.
Variable loads_cred : string -> option CredDict.

Hypothesis decrypt_encrypt : forall k n m, fernet_decrypt k (fernet_encrypt k n m) = Some m.
Hypothesis decrypt_wrong_key :
  forall k k' n m, k <> k' -> fernet_decrypt k' (fernet_encrypt k n m) = None.
Hypothesis pbkdf2_inj : forall p p' s, pbkdf2 p s = pbkdf2 p' s -> p = p'.
Hypothesis loads_dumps_store : forall d, loads_store (dumps_store d) = Some d.
Hypothesis loads_dumps_cred : forall d, loads_cred (dumps_cred d) = Some d.
Hypothesis dumps_cred_not_empty : forall d, dumps_cred d <> "".

Abbreviation Manager := (@CredentialManager Key).
Abbreviation get_credential := (get_credential fernet_decrypt loads_store loads_cred).
Abbreviation store_credential :=
  (store_credential fernet_encrypt fernet_decrypt dumps_store loads_store dumps_cred).
Abbreviation load_file := (_load_credentials_file fernet_decrypt loads_store).
Abbreviation lookup := (lookup fernet_decrypt loads_store loads_cred).
Abbreviation list_credentials := (list_credentials fernet_decrypt loads_store).
Abbreviation delete_credential :=
  (delete_credential fernet_encrypt fernet_decrypt dumps_store loads_store).
Abbreviation verify_master_password :=
  (verify_master_password pbkdf2 fernet_decrypt loads_store).


#[local] Instance str_le_total : Total str_le.
Proof.
  intros a b. unfold str_le. destruct (String.leb_total a b) as [->| ->]; [by left|by right].
Qed.

Lemma load_file_written e nonce d (self : Manager) :
  _encryption self = Some e ->
  _credentials_file self = Some (encrypt_dict fernet_encrypt dumps_store e nonce d) ->
  load_file self = d.
Proof.
  intros He Hf. unfold _load_credentials_file. rewrite Hf, He.
  unfold decrypt_dict, encrypt_dict. rewrite decrypt_encrypt. simpl.
  by rewrite loads_dumps_store.
Qed.

(** What [get_credential] looks at. *)
Lemma lookup_ext n (s1 s2 : Manager) :
  _use_keyring s1 = _use_keyring s2 -> keyring_broken s1 = keyring_broken s2 ->
  keyring s1 !! n = keyring s2 !! n -> load_file s1 !! n = load_file s2 !! n ->
  lookup n s1 = lookup n s2.
Proof.
  intros Hu Hb Hk Hf. unfold Credentials.lookup, Credentials.get_credential,
    keyring_get_password. monad_unfold. rewrite Hu.
  destruct (_use_keyring s2); simpl; rewrite ?Hb; [destruct (keyring_broken s2)|]; simpl.
  - rewrite Hf. destruct (load_file s2 !! n) as [d|]; [destruct (from_dict d)|]; done.
  - rewrite Hk. destruct (Py.truthy_str (keyring s2 !! n)).
    + match goal with |- context [match ?x with Some _ => _ | None => _ end] =>
        destruct x end; done.
    + rewrite Hf. destruct (load_file s2 !! n) as [d|]; [destruct (from_dict d)|]; done.
  - rewrite Hf. destruct (load_file s2 !! n) as [d|]; [destruct (from_dict d)|]; done.
Qed.

Lemma lookup_absent n (self : Manager) :
  (_use_keyring self = true -> keyring_broken self = false -> keyring self !! n = None) ->
  load_file self !! n = None ->
  lookup n self = Ok None.
Proof.
  intros Hk Hf. unfold Credentials.lookup, Credentials.get_credential,
    keyring_get_password. monad_unfold.
  destruct (_use_keyring self); [destruct (keyring_broken self)|]; simpl.
  - by rewrite Hf.
  - rewrite Hk by done. simpl. by rewrite Hf.
  - by rewrite Hf.
Qed.

(** A manager with a working keyring or a master password stores a
    credential and [get_credential] then returns it under its name (the last
    one stored under that name), without changing the manager; every other
    name resolves as before. *)
Theorem store_then_get (c : Credential) (nonce : string) (self : Manager) :
  can_store self ->
  exists self',
    store_credential c nonce self = (Ok true, self')
    /\ get_credential (c_name c) self' = (Ok (Some c), self')
    /\ forall n, n <> c_name c -> lookup n self' = lookup n self.
Proof.
  intros Hcan.
  destruct (CredentialsFacts.store_credential_spec fernet_encrypt fernet_decrypt dumps_store
              loads_store dumps_cred loads_cred decrypt_encrypt loads_dumps_store
              loads_dumps_cred dumps_cred_not_empty c nonce self Hcan)
    as (self' & Hs & _ & Hl).
  exists self'. split; [exact Hs|]. split.
  - pose proof (Hl (c_name c)) as H. rewrite decide_True in H by done.
    pose proof (CredentialsFacts.get_credential_state fernet_decrypt loads_store loads_cred
                  (c_name c) self') as Hst.
    unfold Credentials.lookup in H.
    destruct (get_credential (c_name c) self') as [o s]. simpl in *. by subst.
  - intros n Hn. by rewrite Hl, decide_False.
Qed.


(** [list_credentials] returns the names held in the encrypted file, each
    once and in order; a credential that [store_credential] puts in the
    keyring is retrievable but is not listed. *)
Theorem listing_is_the_file_tier (self : Manager) :
  (forall n, n ∈ list_credentials self <-> is_Some (load_file self !! n))
  /\ NoDup (list_credentials self)
  /\ Sorted str_le (list_credentials self)
  /\ (forall c nonce, _use_keyring self = true -> keyring_broken self = false ->
      exists self',
        store_credential c nonce self = (Ok true, self')
        /\ lookup (c_name c) self' = Ok (Some c)
        /\ list_credentials self' = list_credentials self).
Proof.
  unfold Credentials.list_credentials. split; [|split; [|split]].
  - intros n. rewrite merge_sort_Permutation, elem_of_elements. apply elem_of_dom.
  - rewrite merge_sort_Permutation. apply NoDup_elements.
  - apply Sorted_merge_sort, _.
  - intros c nonce Hu Hb.
    destruct (CredentialsFacts.store_credential_spec fernet_encrypt fernet_decrypt dumps_store
                loads_store dumps_cred loads_cred decrypt_encrypt loads_dumps_store
                loads_dumps_cred dumps_cred_not_empty c nonce self)
      as (self' & Hs & _ & Hl); [left; done|].
    exists self'. split; [exact Hs|]. split; [by rewrite Hl, decide_True|].
    revert Hs. unfold Credentials.store_credential, keyring_set_password. monad_unfold.
    rewrite Hu, Hb. simpl. intros [= <-]. reflexivity.
Qed.

(** The part of [delete_credential] that works on the file, from the state
    [s1] the keyring part has left. *)
Lemma delete_file_step (deleted : bool) (name nonce : string) (s1 self : Manager) :
  _use_keyring s1 = _use_keyring self -> keyring_broken s1 = keyring_broken self ->
  _encryption s1 = _encryption self -> _credentials_file s1 = _credentials_file self ->
  (_use_keyring self = true -> keyring_broken self = false -> keyring s1 !! name = None) ->
  (forall n, n <> name -> keyring s1 !! n = keyring self !! n) ->
  exists b self',
    (self ← get_state;
     let credentials := load_file self in
     match credentials !! name with
     | Some _ =>
         let credentials := delete name credentials in
         match _encryption self with
         | Some e =>
             modify (set_credentials_file
                       (Some (encrypt_dict fernet_encrypt dumps_store e nonce credentials)))
         | None => mret tt
         end;;
         mret true
     | None => mret deleted
     end) s1 = (Ok b, self')
    /\ lookup name self' = Ok None
    /\ (forall n, n <> name -> lookup n self' = lookup n self)
    /\ (b = true <-> deleted = true \/ is_Some (load_file self !! name)).
Proof.
  intros Hu Hb He Hf Hk Hkn.
  assert (Hl : load_file s1 = load_file self).
  { unfold _load_credentials_file. by rewrite Hf, He. }
  monad_unfold. rewrite Hl.
  destruct (load_file self !! name) as [d|] eqn:Hd.
  - destruct (_encryption s1) as [e|] eqn:He1.
    2:{ exfalso. revert Hd. unfold _load_credentials_file. rewrite <- He.
        destruct (_credentials_file self); by rewrite lookup_empty. }
    eexists _, _. split; [reflexivity|].
    set (s2 := set_credentials_file _ s1).
    assert (Hl2 : load_file s2 = delete name (load_file self)).
    { apply (load_file_written e nonce); [exact He1|reflexivity]. }
    split; [|split].
    + apply lookup_absent; [|by rewrite Hl2, lookup_delete_eq].
      subst s2. simpl. intros H1 H2. apply Hk; congruence.
    + intros n Hn. apply lookup_ext; try done.
      * by apply Hkn.
      * by rewrite Hl2, lookup_delete_ne.
    + split; [eauto|done].
  - eexists _, _. split; [reflexivity|]. split; [|split].
    + apply lookup_absent; [|by rewrite Hl].
      intros H1 H2. apply Hk; congruence.
    + intros n Hn. apply lookup_ext; try done; [by apply Hkn|by rewrite Hl].
    + split; [by left|]. intros [?|[? ?]]; done.
Qed.

(** [delete_credential] returns normally; afterwards the name resolves to
    nothing and every other name resolves as before.  It returns [True]
    when the name was in the encrypted file, or when the keyring is in use
    and did not raise, which for a backend that ignores unknown names
    means always. *)
Theorem delete_then_get (missing_raises : bool) (name nonce : string) (self : Manager) :
  exists b self',
    delete_credential missing_raises name nonce self = (Ok b, self')
    /\ lookup name self' = Ok None
    /\ (forall n, n <> name -> lookup n self' = lookup n self)
    /\ (b = true <->
        (_use_keyring self = true /\ keyring_broken self = false
         /\ (is_Some (keyring self !! name) \/ missing_raises = false))
        \/ is_Some (load_file self !! name)).
Proof.
  assert (Hgo : forall deleted s1,
    _use_keyring s1 = _use_keyring self -> keyring_broken s1 = keyring_broken self ->
    _encryption s1 = _encryption self -> _credentials_file s1 = _credentials_file self ->
    (_use_keyring self = true -> keyring_broken self = false -> keyring s1 !! name = None) ->
    (forall n, n <> name -> keyring s1 !! n = keyring self !! n) ->
    (deleted = true <->
       _use_keyring self = true /\ keyring_broken self = false
       /\ (is_Some (keyring self !! name) \/ missing_raises = false)) ->
    fst (try_except
           (if _use_keyring self
            then keyring_delete_password missing_raises name;; mret true
            else mret false) (fun _ => mret false) self) = Ok deleted ->
    snd (try_except
           (if _use_keyring self
            then keyring_delete_password missing_raises name;; mret true
            else mret false) (fun _ => mret false) self) = s1 ->
    exists b self',
      delete_credential missing_raises name nonce self = (Ok b, self')
      /\ lookup name self' = Ok None
      /\ (forall n, n <> name -> lookup n self' = lookup n self)
      /\ (b = true <->
          (_use_keyring self = true /\ keyring_broken self = false
           /\ (is_Some (keyring self !! name) \/ missing_raises = false))
          \/ is_Some (load_file self !! name))).
  { intros deleted s1 Hu Hb He Hf Hk Hkn Hdel Hfst Hsnd.
    destruct (delete_file_step deleted name nonce s1 self Hu Hb He Hf Hk Hkn)
      as (b & self' & Hrun & H1 & H2 & H3).
    exists b, self'. split; [|split; [exact H1|split; [exact H2|]]].
    - unfold Credentials.delete_credential.
      unfold mbind at 1, M_bind at 1. unfold get_state at 1.
      unfold mbind at 1, M_bind at 1.
      destruct (try_except _ _ self) as [o s] eqn:E. simpl in Hfst, Hsnd. subst o s.
      exact Hrun.
    - rewrite H3, Hdel. done. }
  destruct (_use_keyring self) eqn:Hu; [destruct (keyring_broken self) eqn:Hb|].
  - apply (Hgo false self); try done.
    + split; [done|]. intros (_ & ? & _). done.
    + unfold keyring_delete_password. monad_unfold. by rewrite Hb.
    + unfold keyring_delete_password. monad_unfold. by rewrite Hb.
  - destruct (keyring self !! name) as [v|] eqn:Hk.
    + apply (Hgo true (set_keyring (delete name (keyring self)) self)); try done.
      * intros _ _. apply lookup_delete_eq.
      * intros n Hn. simpl. by rewrite lookup_delete_ne.
      * split; [intros _; repeat split; left; eauto|done].
      * unfold keyring_delete_password. monad_unfold. by rewrite Hb, Hk.
      * unfold keyring_delete_password. monad_unfold. by rewrite Hb, Hk.
    + apply (Hgo (negb missing_raises) self); try done.
      * split.
        -- intros H. repeat split. right. by destruct missing_raises.
        -- intros (_ & _ & [[? ?]|Hm]); [done|by rewrite Hm].
      * unfold keyring_delete_password. monad_unfold. rewrite Hb, Hk.
        by destruct missing_raises.
      * unfold keyring_delete_password. monad_unfold. rewrite Hb, Hk.
        by destruct missing_raises.
  - apply (Hgo false self); try done.
    split; [done|]. intros (? & _). done.
Qed.

End WithCrypto.

Lemma store_then_get_witness :
  exists self',
    Examples.store_credential Examples.portal "n1" Examples.keyring_manager = (Ok true, self')
    /\ Credentials.get_credential Examples.fernet_decrypt Examples.loads_store
         Examples.loads_cred "Portal" self' = (Ok (Some Examples.portal), self').
Proof.
  destruct (store_then_get Examples.fernet_encrypt Examples.fernet_decrypt
              Examples.dumps_store Examples.loads_store Examples.dumps_cred
              Examples.loads_cred CredentialsFacts.model_decrypt_encrypt
              (fun d => CredentialsFacts.unpack_pack d)
              (fun d => CredentialsFacts.unpack_pack d)
              (fun d => CredentialsFacts.bits_not_empty _)
              Examples.portal "n1" Examples.keyring_manager)
    as (self' & Hs & Hg & _).
  - left. split; reflexivity.
  - exists self'. split; [exact Hs|exact Hg].
Defined.


Lemma listing_is_the_file_tier_witness :
  exists self',
    Examples.store_credential Examples.portal "n1" Examples.keyring_manager = (Ok true, self')
    /\ Examples.lookup "Portal" self' = Ok (Some Examples.portal)
    /\ Credentials.list_credentials Examples.fernet_decrypt Examples.loads_store self' = [].
Proof.
  destruct (listing_is_the_file_tier Examples.fernet_encrypt Examples.fernet_decrypt
              Examples.dumps_store Examples.loads_store Examples.dumps_cred
              Examples.loads_cred CredentialsFacts.model_decrypt_encrypt
              (fun d => CredentialsFacts.unpack_pack d)
              (fun d => CredentialsFacts.unpack_pack d)
              (fun d => CredentialsFacts.bits_not_empty _)
              Examples.keyring_manager) as (_ & _ & _ & H).
  destruct (H Examples.portal "n1" eq_refl eq_refl) as (self' & Hs & Hl & Hlist).
  exists self'. split; [exact Hs|]. split; [exact Hl|]. rewrite Hlist. reflexivity.
Defined.

Lemma delete_then_get_witness :
  let self := snd (Examples.store_credential Examples.portal "n1" Examples.file_manager) in
  exists self',
    Credentials.delete_credential Examples.fernet_encrypt Examples.fernet_decrypt
      Examples.dumps_store Examples.loads_store true "Portal" "n2" self = (Ok true, self')
    /\ Examples.lookup "Portal" self' = Ok None.
Proof.
  intros self.
  destruct (delete_then_get Examples.fernet_encrypt Examples.fernet_decrypt
              Examples.dumps_store Examples.loads_store Examples.loads_cred
              CredentialsFacts.model_decrypt_encrypt
              (fun d => CredentialsFacts.unpack_pack d)
              true "Portal" "n2" self) as (b & self' & Hd & Hl & _ & Hb).
  assert (b = true) as ->.
  { apply Hb. right. apply (bool_decide_unpack _). vm_compute. exact I. }
  exists self'. split; [exact Hd|exact Hl].
Defined.

Lemma split_once_no_colon (a rest : string) :
  no_colon a -> str_split_once ":" (a +:+ ":" +:+ rest) = (a, Some rest).
Proof.
  induction a as [|c a IH]; intros H; [reflexivity|].
  destruct H as [Hc Ha].
  change (str_split_once ":" (String c (a +:+ ":" +:+ rest)) = (String c a, Some rest)).
  cbn [str_split_once]. rewrite bool_decide_eq_false_2 by exact Hc.
  by rewrite (IH Ha).
Qed.

Lemma colon_not_no_colon (b s : string) : ~ no_colon (b +:+ ":" +:+ s).
Proof.
  induction b as [|c b IH]; intros H.
  - by destruct H as [H _].
  - destruct H as [_ H]. by apply IH.
Qed.

Section SecureInput.
Context {Key : Type}.
Variable fernet_decrypt : Key -> string -> option string.
Variable loads_store : string -> option (gmap string CredDict).
Variable loads_cred : string -> option CredDict.

Abbreviation Manager := (@CredentialManager Key).
Abbreviation lookup := (lookup fernet_decrypt loads_store loads_cred).
Abbreviation get_playback_value :=
  (get_playback_value fernet_decrypt loads_store loads_cred).

(** A field marked with a credential name that has no colon plays back the
    password or the username of that credential (and nothing for another
    field type); a name with a colon is cut at its first colon when the
    reference is read, so such a field never plays back a value. *)
Theorem playback_value_of_marked_field (pending : gmap string string)
    (field_id name field_type : string) (self : Manager) (found : option Credential) :
  no_colon name ->
  lookup name self = Ok found ->
  get_playback_value (mark_sensitive_field field_id name field_type pending) field_id self
  = (Ok (c ← found;
         if bool_decide (field_type = "password") then Some (c_password c)
         else if bool_decide (field_type = "username") then Some (c_username c)
         else None), self)
  /\ forall rest,
       get_playback_value
         (mark_sensitive_field field_id (name +:+ ":" +:+ rest) field_type pending)
         field_id self
       = (Ok None, self).
Proof.
  intros Hn Hl.
  assert (Hg : Credentials.get_credential fernet_decrypt loads_store loads_cred name self
               = (Ok found, self)).
  { pose proof (CredentialsFacts.get_credential_state fernet_decrypt loads_store loads_cred
                  name self) as Hs.
    unfold Credentials.lookup in Hl.
    destruct (Credentials.get_credential _ _ _ name self) as [o s]. simpl in *. by subst. }
  split.
  - unfold Credentials.get_playback_value, mark_sensitive_field.
    rewrite lookup_insert_eq, (split_once_no_colon _ _ Hn). monad_unfold. rewrite Hg.
    destruct found as [c|]; [|reflexivity]. simpl.
    repeat case_bool_decide; reflexivity.
  - intros rest. unfold Credentials.get_playback_value, mark_sensitive_field.
    rewrite lookup_insert_eq.
    assert (Heq : (name +:+ ":" +:+ rest) +:+ ":" +:+ field_type
                  = name +:+ ":" +:+ (rest +:+ ":" +:+ field_type)).
    { clear. induction name as [|c n IH]; [reflexivity|].
      change (String c ((n +:+ ":" +:+ rest) +:+ ":" +:+ field_type)
              = String c (n +:+ ":" +:+ (rest +:+ ":" +:+ field_type))).
      by rewrite IH. }
    rewrite Heq, (split_once_no_colon _ _ Hn). monad_unfold. rewrite Hg.
    destruct found as [c|]; [|reflexivity].
    rewrite !bool_decide_eq_false_2; [reflexivity| |].
    + intros H. apply (colon_not_no_colon rest field_type). rewrite H. by repeat split.
    + intros H. apply (colon_not_no_colon rest field_type). rewrite H. by repeat split.
Qed.

End SecureInput.

Lemma playback_value_of_marked_field_witness :
  let self := snd (Examples.store_credential Examples.portal "n1" Examples.file_manager) in
  Credentials.get_playback_value Examples.fernet_decrypt Examples.loads_store
    Examples.loads_cred (mark_sensitive_field "field-1" "Portal" "password" ∅) "field-1" self
  = (Ok (Some "s3cret"), self).
Proof.
  intros self.
  destruct (playback_value_of_marked_field Examples.fernet_decrypt Examples.loads_store
              Examples.loads_cred ∅ "field-1" "Portal" "password" self
              (Some Examples.portal)) as [H _].
  - repeat split; discriminate.
  - vm_compute. reflexivity.
  - exact H.
Defined.

End CredentialLaws.
